(** * formulajs: form state construction and event handling

    A shallow embedding of [src/lib/data.ts] (the [formDataFns] object) and
    of the event handling module that follows it in the same source file
    (the [eventHandlingFns] object), with the properties of the field state
    machine proved about the embedding.

    Conventions of the embedding:
    - a JavaScript object used as a dictionary whose enumeration order is
      observable ([FormulaForm]) is an ordered property list that follows
      the enumeration order of ordinary objects;
    - dictionaries that are only ever read by key ([ChangeCallbacks], the
      listener table of the document) are [gmap]s;
    - handlers run in a small state-and-exception monad over a [World]
      holding the shared form state and the trace of calls made to the
      collaborators (validation, publish, default-action suppression).   *)

From Stdlib Require Import String Ascii NArith Bool List Lia.
From stdpp Require Import base option list sorting strings gmap.

Open Scope string_scope.
Open Scope list_scope.

(** ** Ordinary JavaScript objects as ordered property lists *)

Module JsObject.

Definition is_digit (c : ascii) : bool :=
  (48 <=? N_of_ascii c)%N && (N_of_ascii c <=? 57)%N.

Fixpoint digits_value (acc : N) (s : string) : option N :=
  match s with
  | EmptyString => Some acc
  | String c s' =>
      if is_digit c
      then digits_value (acc * 10 + (N_of_ascii c - 48))%N s'
      else None
  end.

(** A property key is an array index when it is the canonical decimal
    spelling of an integer below [2^32 - 1]: such keys are enumerated
    first, in ascending numeric order, whatever the order of creation. *)
Definition array_index (k : string) : option N :=
  match k with
  | EmptyString => None
  | String c rest =>
      if Ascii.eqb c "0"
      then match rest with EmptyString => Some 0%N | _ => None end
      else match digits_value 0 k with
           | Some n => if (n <? 4294967295)%N then Some n else None
           | None => None
           end
  end.

Section Obj.
Context {V : Type}.

Definition t := list (string * V).

Definition empty : t := [].

Definition keys (o : t) : list string := map fst o.

(** [o[k]]: own property lookup, [None] standing for [undefined]. The
    properties that every object inherits are left out: none of them is a
    field state, and a field state is all the code looks for. *)
Fixpoint get (k : string) (o : t) : option V :=
  match o with
  | [] => None
  | (k', v') :: o' => if String.eqb k k' then Some v' else get k o'
  end.

(** Assignment to an existing property keeps its place. *)
Fixpoint replace (k : string) (v : V) (o : t) : t :=
  match o with
  | [] => []
  | (k', v') :: o' =>
      if String.eqb k k' then (k, v) :: o' else (k', v') :: replace k v o'
  end.

(** A new array-index key goes before the first key that is a larger
    index or not an index at all. *)
Fixpoint insert_index (i : N) (k : string) (v : V) (o : t) : t :=
  match o with
  | [] => [(k, v)]
  | (k', v') :: o' =>
      match array_index k' with
      | Some j =>
          if (i <? j)%N then (k, v) :: o
          else (k', v') :: insert_index i k v o'
      | None => (k, v) :: o
      end
  end.

(** [o[k] = v] on own properties. *)
Definition set (k : string) (v : V) (o : t) : t :=
  match get k o with
  | Some _ => replace k v o
  | None =>
      match array_index k with
      | Some i => insert_index i k v o
      | None => o ++ [(k, v)]
      end
  end.

(** [{...o}]: a fresh object receiving the own properties of [o] in
    enumeration order. *)
Definition spread (o : t) : t :=
  fold_left (fun acc kv => set (fst kv) (snd kv) acc) o empty.

(** In-place mutation of the object stored under [k]; [None] when
    [o[k]] is [undefined]. *)
Definition update (k : string) (f : V -> V) (o : t) : option t :=
  match get k o with
  | Some v => Some (replace k (f v) o)
  | None => None
  end.

End Obj.

Arguments t : clear implicits.

End JsObject.

(** The enumeration order of the own keys of an ordinary object: array
    indices first, in ascending numeric order, then the other keys in the
    order of their creation. *)
Definition keyPrecedes (k1 k2 : string) : Prop :=
  match JsObject.array_index k1, JsObject.array_index k2 with
  | Some i, Some j => (i <= j)%N
  | Some _, None => True
  | None, Some _ => False
  | None, None => True
  end.

(** A property list that an ordinary object can have: no key twice, keys
    in enumeration order. *)
Definition canonical {V} (o : JsObject.t V) : Prop :=
  NoDup (JsObject.keys o) /\ StronglySorted keyPrecedes (JsObject.keys o).

Definition isArrayIndex (k : string) : bool :=
  match JsObject.array_index k with Some _ => true | None => false end.

(** The keys that are not array indices, in the order given. *)
Definition plainKeys (ks : list string) : list string :=
  List.filter (fun k => negb (isArrayIndex k)) ks.

(** ** Controls *)

Module Dom.

(** The class of a form control and, for a native input, its [type]
    attribute. *)
Inductive ElementClass :=
| HTMLInputElement (type_ : string)
| HTMLSelectElement
| HTMLTextAreaElement.

(** [FormFields]: what the code reads of a control. [checked] is
    meaningful for native inputs only; on the other classes the property
    is absent and reads as a falsy value. *)
Record FormFields := {
  name : string;
  value : string;
  checked : bool;
  class : ElementClass;
}.

End Dom.

Import Dom (FormFields).

(** Modelled from the spec: [utils/type-helpers] is not among the sources;
    "control is a radio button" and "control is a checkbox" are the native
    inputs whose type is [radio], respectively [checkbox]. *)
Definition isRadio (input : FormFields) : bool :=
  match Dom.class input with
  | Dom.HTMLInputElement ty => String.eqb ty "radio"
  | _ => false
  end.

Definition isCheckbox (input : FormFields) : bool :=
  match Dom.class input with
  | Dom.HTMLInputElement ty => String.eqb ty "checkbox"
  | _ => false
  end.

(** ** Form state *)

(** Modelled from the spec: [types.ts] is not among the sources. A stored
    value is what [getInputValue] and the change handler produce: the
    string value of a control or the boolean checked state of a checkbox. *)
Inductive InputValue :=
| VString (s : string)
| VBool (b : bool).

Record FieldState := {
  value : InputValue;
  isValid : bool;
  isTouched : bool;
  isFocused : bool;
  isDirty : bool;
  errors : list string;
  _inputType : option string;
}.

Definition FormulaForm := JsObject.t FieldState.

(** JavaScript truthiness of a stored value, as [||] tests it. *)
Definition truthy (v : InputValue) : bool :=
  match v with
  | VString s => negb (String.eqb s "")
  | VBool b => b
  end.

(** [previousValue ?? ""]: the previous value whenever one is present. *)
Definition previousOrEmpty (previousValue : option InputValue) : InputValue :=
  match previousValue with
  | Some p => p
  | None => VString ""
  end.

Module formDataFns.

(** Parse input data to return the correct value depending on the type. *)
Definition getInputValue (input : FormFields)
    (previousInputValue : option InputValue) : InputValue :=
  if isRadio input then
    if Dom.checked input then VString (Dom.value input)
    else match previousInputValue with
         | Some p => if truthy p then p else VString ""
         | None => VString ""
         end
  else if isCheckbox input then VBool (Dom.checked input)
  else VString (Dom.value input).

Definition initialState (cur : FormFields) (acc : FormulaForm) : FieldState :=
  {| value := getInputValue cur
                (option_map value (JsObject.get (Dom.name cur) acc));
     isValid := true;
     isTouched := false;
     isFocused := false;
     isDirty := false;
     errors := [];
     _inputType := match Dom.class cur with
                   | Dom.HTMLInputElement ty => Some ty
                   | _ => None
                   end |}.

(** Returns the main formula object based on each input value and name. *)
Definition createFormData (inputs : list FormFields) : FormulaForm :=
  fold_left
    (fun acc cur =>
       JsObject.set (Dom.name cur) (initialState cur acc) (JsObject.spread acc))
    inputs JsObject.empty.

End formDataFns.


(** ** Options and events *)

(** Modelled from the spec: [types.ts] is not among the sources. The names
    of the change, focus and blur events are fixed by the code itself: the
    handles object is built with the keys [Events.change], [Events.focus]
    and [Events.blur] and read back as [.change], [.focus] and [.blur]. *)
Module Events.
Definition change : string := "change".
Definition focus : string := "focus".
Definition blur : string := "blur".
Definition submit : string := "submit".
End Events.

(** Per-field options. An absent member is [None]. The validation rules a
    field may carry are read by the validation module only. *)
Record FormulaFieldOptions := {
  validateOn : option string;
  emitOn : option (list string);
  validateDirtyOnly : option bool;
}.

(** [FormulaValidations]: the options of a form, by field name. *)
Abbreviation FormulaValidations := (gmap string FormulaFieldOptions) (only parsing).

(** [options && options[name]] *)
Definition optionsFor (options : option FormulaValidations) (name : string)
    : option FormulaFieldOptions :=
  match options with
  | Some o => o !! name
  | None => None
  end.

Record Event := { target : FormFields }.

(** ** The world the handlers run in *)

Inductive Payload :=
| FieldPayload (field : FieldState)
| SubmitPayload (formData : FormulaForm) (isValid : bool).

(** Calls made to the collaborators, in the order they are made. A payload
    is recorded as the object reads at the time of the call. *)
Inductive Call :=
| PreventDefault
| ApplyFieldValidation (input : FormFields) (inputOptions : option FormulaFieldOptions)
| Emit (event : string) (payload : Payload).

Record World := {
  formData : FormulaForm;
  calls : list Call;
}.

Definition emitted (w : World) : list (string * Payload) :=
  omap (fun c => match c with Emit ev p => Some (ev, p) | _ => None end) (calls w).

Definition validations (w : World) : list (FormFields * option FormulaFieldOptions) :=
  omap (fun c => match c with ApplyFieldValidation i o => Some (i, o) | _ => None end)
       (calls w).

Inductive Exn :=
| TypeError
| Failure (message : string).

(** How a function ends: normally with a result, or by an exception that
    nothing caught. Either way the mutations made so far stay. *)
Inductive Outcome (S A : Type) :=
| Return (a : A) (s : S)
| Throw (e : Exn) (s : S).

Arguments Return {S A} a s.
Arguments Throw {S A} e s.

Definition after {S A} (o : Outcome S A) : S :=
  match o with Return _ s => s | Throw _ s => s end.

Definition returns {S A} (o : Outcome S A) : bool :=
  match o with Return _ _ => true | Throw _ _ => false end.

Definition M (A : Type) := World -> Outcome World A.

Definition ret {A} (a : A) : M A := fun w => Return a w.

Definition bind {A B} (m : M A) (k : A -> M B) : M B :=
  fun w => match m w with
           | Return a w' => k a w'
           | Throw e w' => Throw e w'
           end.

Definition throw {A} (e : Exn) : M A := fun w => Throw e w.

Declare Scope handler_scope.
Delimit Scope handler_scope with handler.
Notation "x <- m ;; k" := (bind m (fun x => k))
  (at level 100, m at next level, k at level 200, right associativity)
  : handler_scope.
Notation "m ;; k" := (bind m (fun _ => k))
  (at level 100, k at level 200, right associativity) : handler_scope.

Definition when (b : bool) (m : M unit) : M unit :=
  if b then m else ret tt.

(** [for (const x of xs) { acc = body(acc, x) }] *)
Fixpoint forOf {A B} (xs : list A) (acc : B) (body : B -> A -> M B) : M B :=
  match xs with
  | [] => ret acc
  | x :: xs' => bind (body acc x) (fun acc' => forOf xs' acc' body)
  end.

Definition getFormData : M FormulaForm := fun w => Return (formData w) w.

Definition call (c : Call) : M unit :=
  fun w => Return tt {| formData := formData w; calls := calls w ++ [c] |}.

(** Reading a member of [formData[name]]: a [TypeError] when the entry is
    [undefined]. *)
Definition readField (name : string) : M FieldState :=
  fun w => match JsObject.get name (formData w) with
           | Some field => Return field w
           | None => Throw TypeError w
           end.

(** Assigning members of [formData[name]] in place. *)
Definition writeField (name : string) (f : FieldState -> FieldState) : M unit :=
  fun w => match JsObject.update name f (formData w) with
           | Some fd => Return tt {| formData := fd; calls := calls w |}
           | None => Throw TypeError w
           end.

Definition set_value (v : InputValue) (s : FieldState) : FieldState :=
  {| value := v; isValid := isValid s; isTouched := isTouched s;
     isFocused := isFocused s; isDirty := isDirty s; errors := errors s;
     _inputType := _inputType s |}.

Definition set_isFocused (b : bool) (s : FieldState) : FieldState :=
  {| value := value s; isValid := isValid s; isTouched := isTouched s;
     isFocused := b; isDirty := isDirty s; errors := errors s;
     _inputType := _inputType s |}.

Definition set_isTouched (b : bool) (s : FieldState) : FieldState :=
  {| value := value s; isValid := isValid s; isTouched := b;
     isFocused := isFocused s; isDirty := isDirty s; errors := errors s;
     _inputType := _inputType s |}.

Definition set_isDirty (b : bool) (s : FieldState) : FieldState :=
  {| value := value s; isValid := isValid s; isTouched := isTouched s;
     isFocused := isFocused s; isDirty := b; errors := errors s;
     _inputType := _inputType s |}.

Definition set_validity (valid : bool) (errs : list string) (s : FieldState)
    : FieldState :=
  {| value := value s; isValid := valid; isTouched := isTouched s;
     isFocused := isFocused s; isDirty := isDirty s; errors := errs;
     _inputType := _inputType s |}.

(** [emit(event, payload)]: fire-and-forget publish. *)
Definition emit (event : string) (payload : Payload) : M unit :=
  call (Emit event payload).

Definition preventDefault : M unit := call PreventDefault.

(** What one validation pass decides for a field, or the exception it
    raises. *)
Inductive Verdict :=
| Validated (valid : bool) (errs : list string)
| Raised (e : Exn).

(** Modelled from the spec: the validation module is not among the sources.
    [applyFieldValidation(control, state, options)] is synchronous and
    mutates [state[name].isValid] and [state[name].errors]; the rules that
    decide them are opaque, so they are a parameter: a [Validator] reads the
    control, the form state and the field's options, and either decides the
    validity and the error list of the field or raises. *)
Definition Validator :=
  FormFields -> FormulaForm -> option FormulaFieldOptions -> Verdict.

Module validationFns.
Section Validation.
Variable validate : Validator.

Definition applyFieldValidation (input : FormFields)
    (inputOptions : option FormulaFieldOptions) : M unit :=
  (call (ApplyFieldValidation input inputOptions) ;;
   fd <- getFormData ;;
   match validate input fd inputOptions with
   | Raised e => throw e
   | Validated valid errs =>
       writeField (Dom.name input) (set_validity valid errs)
   end)%handler.

End Validation.
End validationFns.

(** [xs.includes(x)] on an array of strings. *)
Definition includes (x : string) (xs : list string) : bool :=
  existsb (String.eqb x) xs.

(** [!inputOptions?.emitOn || inputOptions.emitOn.includes(event)]: an
    array, even an empty one, is truthy. *)
Definition emitAllowed (inputOptions : option FormulaFieldOptions)
    (event : string) : bool :=
  match inputOptions with
  | Some o =>
      match emitOn o with
      | Some allowed => includes event allowed
      | None => true
      end
  | None => true
  end.

(** [inputOptions?.validateOn || Events.change]: the empty string is falsy. *)
Definition selectedEventOf (inputOptions : option FormulaFieldOptions) : string :=
  match inputOptions with
  | Some o =>
      match validateOn o with
      | Some ev => if String.eqb ev "" then Events.change else ev
      | None => Events.change
      end
  | None => Events.change
  end.

(** [inputOptions?.validateDirtyOnly === false] *)
Definition validateDirtyOnlyIsFalse (inputOptions : option FormulaFieldOptions)
    : bool :=
  match inputOptions with
  | Some o =>
      match validateDirtyOnly o with
      | Some b => negb b
      | None => false
      end
  | None => false
  end.

(** ** Listener registration *)

Inductive HandlerKind := ChangeHandler | FocusHandler | BlurHandler.

(** A function object returned by [onChange], [onFocus] or [onBlur]: its
    identity, and the control (by reference) and options it captured. Every
    handler captures the one shared form state of the [World]. *)
Record Closure := {
  identity : nat;
  kind : HandlerKind;
  capturedInput : nat;
  capturedOptions : option FormulaFieldOptions;
}.

Record Handles := {
  change : Closure;
  focus : Closure;
  blur : Closure;
}.

(** [ChangeCallbacks]: the handles of a subscription, by field name. *)
Abbreviation ChangeCallbacks := (gmap string Handles) (only parsing).

(** The document: the controls by reference, as they currently read; the
    listeners of each control in registration order; the number of function
    objects created so far; and the world the handlers act on. *)
Record Page := {
  controls : nat -> FormFields;
  listeners : gmap nat (list (string * Closure));
  created : nat;
  world : World;
}.

Definition listenersOf (p : Page) (input : nat) : list (string * Closure) :=
  default [] (listeners p !! input).

(** Two registrations are the same when the event types are equal and the
    callbacks are the same function object. *)
Definition sameListener (type : string) (cb : Closure) (l : string * Closure)
    : bool :=
  String.eqb type (fst l) && Nat.eqb (identity cb) (identity (snd l)).

Definition newClosure (k : HandlerKind) (input : nat)
    (inputOptions : option FormulaFieldOptions) (p : Page) : Closure * Page :=
  ({| identity := created p; kind := k; capturedInput := input;
      capturedOptions := inputOptions |},
   {| controls := controls p; listeners := listeners p;
      created := S (created p); world := world p |}).

(** [input.addEventListener(type, cb)]: registering the same pair twice
    has no effect. *)
Definition addEventListener (input : nat) (type : string) (cb : Closure)
    (p : Page) : Page :=
  if existsb (sameListener type cb) (listenersOf p input) then p
  else {| controls := controls p;
          listeners := <[input := listenersOf p input ++ [(type, cb)]]> (listeners p);
          created := created p; world := world p |}.

(** [input.removeEventListener(type, cb)]: no effect when the pair is not
    registered. *)
Definition removeEventListener (input : nat) (type : string) (cb : Closure)
    (p : Page) : Page :=
  {| controls := controls p;
     listeners :=
       <[input := List.filter (fun l => negb (sameListener type cb l))
                    (listenersOf p input)]> (listeners p);
     created := created p; world := world p |}.

Module eventHandlingFns.

(** One turn of the loop of [subscribeToInputChanges]. *)
Definition subscribeStep (options : option FormulaValidations)
    (acc : ChangeCallbacks * Page) (input : nat) : ChangeCallbacks * Page :=
  let '(fns, p) := acc in
  let name := Dom.name (controls p input) in
  let inputOptions := optionsFor options name in
  let '(onChange, p) := newClosure ChangeHandler input inputOptions p in
  let '(onFocus, p) := newClosure FocusHandler input inputOptions p in
  let '(onBlur, p) := newClosure BlurHandler input inputOptions p in
  let handles := {| change := onChange; focus := onFocus; blur := onBlur |} in
  let fns := <[name := handles]> fns in
  let p := addEventListener input (selectedEventOf inputOptions) (change handles) p in
  let p := addEventListener input Events.focus (focus handles) p in
  let p := addEventListener input Events.blur (blur handles) p in
  (fns, p).

(** Subscribes to input (or change), focus and blur events. *)
Definition subscribeToInputChanges (inputs : list nat)
    (options : option FormulaValidations) (p : Page) : ChangeCallbacks * Page :=
  fold_left (subscribeStep options) inputs (∅, p).

(** Unsubscribes from input (or change), focus and blur events. Reading a
    handle of [fns[input.name]] is a [TypeError] when the entry is
    [undefined]. *)
Fixpoint unsubscribeFromInputChanges (inputs : list nat) (fns : ChangeCallbacks)
    (options : option FormulaValidations) (p : Page) : Outcome Page unit :=
  match inputs with
  | [] => Return tt p
  | input :: inputs' =>
      let name := Dom.name (controls p input) in
      let inputOptions := optionsFor options name in
      match fns !! name with
      | None => Throw TypeError p
      | Some handles =>
          let p := removeEventListener input (selectedEventOf inputOptions)
                     (change handles) p in
          let p := removeEventListener input Events.focus (focus handles) p in
          let p := removeEventListener input Events.blur (blur handles) p in
          unsubscribeFromInputChanges inputs' fns options p
      end
  end.

Section Handlers.
Variable validate : Validator.

Local Open Scope handler_scope.

(** Callback to be executed on focus event. Does not execute validation. *)
Definition onFocus (input : FormFields)
    (inputOptions : option FormulaFieldOptions) : Event -> M unit :=
  fun _ =>
    writeField (Dom.name input) (set_isFocused true) ;;
    when (emitAllowed inputOptions Events.focus)
      (field <- readField (Dom.name input) ;;
       emit Events.focus (FieldPayload field)).

(** Callback to be executed on blur event. Executes conditional validation
    based on user options. *)
Definition onBlur (input : FormFields)
    (inputOptions : option FormulaFieldOptions) : Event -> M unit :=
  fun _ =>
    writeField (Dom.name input) (set_isFocused false) ;;
    field <- readField (Dom.name input) ;;
    when (negb (isTouched field))
      (writeField (Dom.name input) (set_isTouched true) ;;
       when (validateDirtyOnlyIsFalse inputOptions)
         (validationFns.applyFieldValidation validate input inputOptions)) ;;
    when (emitAllowed inputOptions Events.blur)
      (field <- readField (Dom.name input) ;;
       emit Events.blur (FieldPayload field)).

(** Callback to be executed on input (or change) event. Always executes
    validation. *)
Definition onChange (input : FormFields)
    (inputOptions : option FormulaFieldOptions) : Event -> M unit :=
  fun e =>
    let selectedEvent := selectedEventOf inputOptions in
    let target := target e in
    writeField (Dom.name input)
      (set_value (if isCheckbox input
                  then VBool (Dom.checked target)
                  else VString (Dom.value target))) ;;
    validationFns.applyFieldValidation validate input inputOptions ;;
    field <- readField (Dom.name input) ;;
    when (negb (isDirty field))
      (writeField (Dom.name input) (set_isDirty true)) ;;
    when (emitAllowed inputOptions selectedEvent)
      (field <- readField (Dom.name input) ;;
       emit selectedEvent (FieldPayload field)).

(** One turn of the loop of the submit handler. *)
Definition submitStep (options : option FormulaValidations)
    (isValid_ : bool) (input : FormFields) : M bool :=
  validationFns.applyFieldValidation validate input
    (optionsFor options (Dom.name input)) ;;
  field <- readField (Dom.name input) ;;
  ret (if negb (isValid field) then false else isValid_).

(** Callback to be executed on submit event. Always executes validation. *)
Definition onSubmit (inputs : list FormFields)
    (options : option FormulaValidations) : Event -> M unit :=
  fun e =>
    preventDefault ;;
    isValid_ <- forOf inputs true (submitStep options) ;;
    fd <- getFormData ;;
    emit Events.submit (SubmitPayload fd isValid_).

End Handlers.
End eventHandlingFns.

(** ** Sequences of handler invocations *)

(** One invocation of a handler obtained from [onFocus], [onBlur],
    [onChange] or [onSubmit]. *)
Inductive Invocation :=
| Focus (input : FormFields) (inputOptions : option FormulaFieldOptions) (e : Event)
| Blur (input : FormFields) (inputOptions : option FormulaFieldOptions) (e : Event)
| Change (input : FormFields) (inputOptions : option FormulaFieldOptions) (e : Event)
| Submit (inputs : list FormFields) (options : option FormulaValidations) (e : Event).

Definition invoke (validate : Validator) (i : Invocation) : M unit :=
  match i with
  | Focus input o e => eventHandlingFns.onFocus input o e
  | Blur input o e => eventHandlingFns.onBlur validate input o e
  | Change input o e => eventHandlingFns.onChange validate input o e
  | Submit inputs o e => eventHandlingFns.onSubmit validate inputs o e
  end.

(** The host delivers events one after the other; an exception escaping a
    handler ends that invocation only. *)
Definition deliver (validate : Validator) (invocations : list Invocation)
    (w : World) : World :=
  fold_left (fun w i => after (invoke validate i w)) invocations w.


(** ** Dispatch of native events *)

Section Dispatch.
Variable validate : Validator.

(** Calling a function object. *)
Definition callClosure (p : Page) (cb : Closure) (e : Event) : M unit :=
  let input := controls p (capturedInput cb) in
  match kind cb with
  | ChangeHandler => eventHandlingFns.onChange validate input (capturedOptions cb) e
  | FocusHandler => eventHandlingFns.onFocus input (capturedOptions cb) e
  | BlurHandler => eventHandlingFns.onBlur validate input (capturedOptions cb) e
  end.

(** The host dispatches an event of the given type on a control: the
    listeners registered for that type run in registration order, each to
    completion; an exception escaping one of them is reported to the host
    and the next listener runs. *)
Definition dispatchEvent (input : nat) (type : string) (p : Page) : Page :=
  let e := {| target := controls p input |} in
  let due := List.filter (fun l => String.eqb type (fst l)) (listenersOf p input) in
  {| controls := controls p; listeners := listeners p; created := created p;
     world := fold_left (fun w l => after (callClosure p (snd l) e w)) due (world p) |}.

End Dispatch.

(** The user edits a control. *)
Definition userSetsValue (input : nat) (v : string) (p : Page) : Page :=
  {| controls := fun r =>
       if Nat.eqb r input
       then {| Dom.name := Dom.name (controls p r); Dom.value := v;
               Dom.checked := Dom.checked (controls p r);
               Dom.class := Dom.class (controls p r) |}
       else controls p r;
     listeners := listeners p; created := created p; world := world p |}.

(** A page showing the given controls (references are positions in the
    list), with no listener, whose form state was built from them. *)
Definition emptyControl : FormFields :=
  {| Dom.name := ""; Dom.value := ""; Dom.checked := false;
     Dom.class := Dom.HTMLTextAreaElement |}.

Definition pageOf (inputs : list FormFields) : Page :=
  {| controls := fun r => nth r inputs emptyControl;
     listeners := ∅;
     created := 0;
     world := {| formData := formDataFns.createFormData inputs; calls := [] |} |}.

(** ** Sample controls and validators *)

Definition textInput (name value : string) : FormFields :=
  {| Dom.name := name; Dom.value := value; Dom.checked := false;
     Dom.class := Dom.HTMLInputElement "text" |}.

Definition radioInput (name value : string) (checked : bool) : FormFields :=
  {| Dom.name := name; Dom.value := value; Dom.checked := checked;
     Dom.class := Dom.HTMLInputElement "radio" |}.

Definition checkboxInput (name : string) (checked : bool) : FormFields :=
  {| Dom.name := name; Dom.value := "on"; Dom.checked := checked;
     Dom.class := Dom.HTMLInputElement "checkbox" |}.

Definition selectControl (name value : string) : FormFields :=
  {| Dom.name := name; Dom.value := value; Dom.checked := false;
     Dom.class := Dom.HTMLSelectElement |}.

(** Accepts every field. *)
Definition acceptAll : Validator := fun _ _ _ => Validated true [].

(** Rejects the field of the given name and accepts the others. *)
Definition rejectField (name : string) : Validator :=
  fun input _ _ =>
    if String.eqb (Dom.name input) name
    then Validated false ["invalid"]
    else Validated true [].

(** Raises on the field of the given name and accepts the others. *)
Definition raiseOnField (name : string) : Validator :=
  fun input _ _ =>
    if String.eqb (Dom.name input) name
    then Raised (Failure "validation failed")
    else Validated true [].

(** Accepts a control whose current value is not empty. *)
Definition requireValue : Validator :=
  fun input _ _ =>
    if String.eqb (Dom.value input) ""
    then Validated false ["required"]
    else Validated true [].

Definition onlyEmitOn (events : list string) : FormulaFieldOptions :=
  {| validateOn := None; emitOn := Some events; validateDirtyOnly := None |}.

Definition emptyWorld (fd : FormulaForm) : World :=
  {| formData := fd; calls := [] |}.


(** ** Vocabulary of the properties *)

(** The entry of field [f] exists and satisfies [Q]. *)
Definition fieldHas (f : string) (Q : FieldState -> Prop) (w : World) : Prop :=
  exists field, JsObject.get f (formData w) = Some field /\ Q field.

(** A computation keeps a property of the world, whether it returns or
    throws. *)
Definition preserves {A} (I : World -> Prop) (m : M A) : Prop :=
  forall w, I w -> I (after (m w)).

(** Which way an invocation moves the focus of field [f], if it does. *)
Definition focusEffect (f : string) (i : Invocation) : option bool :=
  match i with
  | Focus input _ _ => if String.eqb (Dom.name input) f then Some true else None
  | Blur input _ _ => if String.eqb (Dom.name input) f then Some false else None
  | Change _ _ _ => None
  | Submit _ _ _ => None
  end.

(** The sequence has a focus event of field [f] with no blur event of [f]
    after it. *)
Definition insideFocusWindow (f : string) (invocations : list Invocation) : Prop :=
  exists before i later,
    invocations = before ++ i :: later /\
    focusEffect f i = Some true /\
    Forall (fun j => focusEffect f j <> Some false) later.

Definition focusedAfter (f : string) (initially : bool)
    (invocations : list Invocation) : bool :=
  fold_left (fun b i => default b (focusEffect f i)) invocations initially.

(** A form with the one field [email], already touched and dirty. *)
Definition usedEmailField : FieldState :=
  {| value := VString "a"; isValid := true; isTouched := true;
     isFocused := false; isDirty := true; errors := [];
     _inputType := Some "text" |}.

Definition someEvent : Event := {| target := textInput "email" "a@b.com" |}.

Definition sampleSession : list Invocation :=
  [Focus (textInput "email" "") None someEvent;
   Change (textInput "email" "") None someEvent;
   Blur (textInput "email" "") None someEvent;
   Submit [textInput "email" ""] None someEvent;
   Focus (textInput "email" "") None someEvent].

(** What a handler publishes for an event of a field whose entry reads
    [field]: one event when the field's options allow it, none otherwise. *)
Definition publication (inputOptions : option FormulaFieldOptions)
    (event : string) (field : FieldState) : list Call :=
  if emitAllowed inputOptions event then [Emit event (FieldPayload field)]
  else [].

(** [inputOptions?.emitOn] *)
Definition emitOnOf (inputOptions : option FormulaFieldOptions)
    : option (list string) :=
  match inputOptions with
  | Some o => emitOn o
  | None => None
  end.

(** The value the change handler stores. *)
Definition changedValue (input : FormFields) (e : Event) : InputValue :=
  if isCheckbox input then VBool (Dom.checked (target e))
  else VString (Dom.value (target e)).

(** The control, the options and the trigger name of an invocation of a
    field handler: focus, blur, or the resolved change trigger. *)
Definition fieldHandler (i : Invocation)
    : option (FormFields * option FormulaFieldOptions * string) :=
  match i with
  | Focus input o _ => Some (input, o, Events.focus)
  | Blur input o _ => Some (input, o, Events.blur)
  | Change input o _ => Some (input, o, selectedEventOf o)
  | Submit _ _ _ => None
  end.

(** [formData[input.name].isValid], read on a form state. *)
Definition fieldValid (fd : FormulaForm) (input : FormFields) : bool :=
  match JsObject.get (Dom.name input) fd with
  | Some s => isValid s
  | None => false
  end.

(** The worlds reached after the validation of each control, in the order
    of the submit loop. *)
Fixpoint validatedWorlds (validate : Validator)
    (options : option FormulaValidations) (inputs : list FormFields)
    (w : World) : list (FormFields * World) :=
  match inputs with
  | [] => []
  | x :: xs =>
      let w' := after (validationFns.applyFieldValidation validate x
                         (optionsFor options (Dom.name x)) w) in
      (x, w') :: validatedWorlds validate options xs w'
  end.

(** The validity of a control's field as it reads after the validation of
    that control. *)
Definition validAfterValidation (xw : FormFields * World) : bool :=
  fieldValid (formData (snd xw)) (fst xw).

Definition validationCalls (options : option FormulaValidations)
    (inputs : list FormFields) : list Call :=
  map (fun x => ApplyFieldValidation x (optionsFor options (Dom.name x))) inputs.

Definition threeFields : list FormFields :=
  [textInput "a" "x"; textInput "b" "y"; textInput "c" "z"].

Definition emailInput : FormFields := textInput "email" "".

(** The world of a form built from the one control [email]. *)
Definition emailWorld : World :=
  emptyWorld (formDataFns.createFormData [emailInput]).

Definition validateEvenWhenClean : FormulaFieldOptions :=
  {| validateOn := None; emitOn := None; validateDirtyOnly := Some false |}.

(** Two radio buttons of one group, subscribed and then unsubscribed with
    the handles and options of the subscription. *)
Definition radioPage : Page :=
  pageOf [radioInput "plan" "basic" false; radioInput "plan" "pro" false].

Definition radioSubscribed : ChangeCallbacks * Page :=
  eventHandlingFns.subscribeToInputChanges [0; 1] None radioPage.

Definition radioUnsubscribed : Page :=
  after (eventHandlingFns.unsubscribeFromInputChanges [0; 1]
           (fst radioSubscribed) None (snd radioSubscribed)).

(** The page of the one control [email], subscribed with no options, after
    the user typed an address. *)
Definition emailTyped : Page :=
  userSetsValue 0 "a@b.com"
    (snd (eventHandlingFns.subscribeToInputChanges [0] None (pageOf [emailInput]))).

(** Every callback registered on the page is a function object created
    earlier. *)
Definition closuresKnown (p : Page) : Prop :=
  forall r l, In l (listenersOf p r) -> identity (snd l) < created p.

Definition nameOf (p : Page) (r : nat) : string := Dom.name (controls p r).

(** The three registrations that subscribing a control adds, given its
    handles. *)
Definition registrations (o : option FormulaFieldOptions) (h : Handles)
    : list (string * Closure) :=
  [(selectedEventOf o, change h); (Events.focus, focus h); (Events.blur, blur h)].

(** The handles of a subscription are function objects created since the
    page was in state [p], all different. *)
Definition freshHandles (p : Page) (h : Handles) : Prop :=
  created p <= identity (change h) /\
  identity (change h) < identity (focus h) /\
  identity (focus h) < identity (blur h).

(** The arguments of the validation calls of a submit, one per control, in
    declaration order. *)
Definition validationArgs (options : option FormulaValidations)
    (inputs : list FormFields)
    : list (FormFields * option FormulaFieldOptions) :=
  map (fun x => (x, optionsFor options (Dom.name x))) inputs.

(** ** Radio groups *)

Definition named (n : string) (c : FormFields) : bool :=
  String.eqb (Dom.name c) n.

(** The last checked button of a group, in declaration order. *)
Definition lastChecked (group : list FormFields) : option FormFields :=
  fold_left (fun found r => if Dom.checked r then Some r else found) group None.

(** The value of a radio group: that of its last checked button, the empty
    string when no button is checked. *)
Definition groupValue (group : list FormFields) : InputValue :=
  match lastChecked group with
  | Some r => VString (Dom.value r)
  | None => VString ""
  end.

(** A field state as [createFormData] leaves it, whatever its value. *)
Definition pristine (s : FieldState) : Prop :=
  isValid s = true /\ isTouched s = false /\ isFocused s = false /\
  isDirty s = false /\ errors s = [].

(** A form with a radio group around a text field. *)
Definition planForm : list FormFields :=
  [radioInput "plan" "basic" false; textInput "email" "";
   radioInput "plan" "pro" true; radioInput "plan" "team" false].

(** ** What an invocation may write *)

(** [writes i name g]: the handler invoked by [i] may assign, through [g],
    members of the entry of [name]. These are all the assignments of the
    four handlers, those of validation included. *)
Inductive writes : Invocation -> string -> (FieldState -> FieldState) -> Prop :=
| focus_sets_focused input o e :
    writes (Focus input o e) (Dom.name input) (set_isFocused true)
| blur_clears_focused input o e :
    writes (Blur input o e) (Dom.name input) (set_isFocused false)
| blur_sets_touched input o e :
    writes (Blur input o e) (Dom.name input) (set_isTouched true)
| blur_validates input o e valid errs :
    writes (Blur input o e) (Dom.name input) (set_validity valid errs)
| change_sets_value input o e :
    writes (Change input o e) (Dom.name input)
      (set_value (changedValue input e))
| change_validates input o e valid errs :
    writes (Change input o e) (Dom.name input) (set_validity valid errs)
| change_sets_dirty input o e :
    writes (Change input o e) (Dom.name input) (set_isDirty true)
| submit_validates inputs o e x valid errs :
    In x inputs ->
    writes (Submit inputs o e) (Dom.name x) (set_validity valid errs).

(** The invocation is one of a handler of field [f], or a submit over a
    control of field [f]. *)
Definition concerns (f : string) (i : Invocation) : Prop :=
  match i with
  | Focus input _ _ => Dom.name input = f
  | Blur input _ _ => Dom.name input = f
  | Change input _ _ => Dom.name input = f
  | Submit inputs _ _ => In f (map Dom.name inputs)
  end.

Definition isChangeOf (f : string) (i : Invocation) : Prop :=
  match i with
  | Change input _ _ => Dom.name input = f
  | _ => False
  end.

Definition isBlurOf (f : string) (i : Invocation) : Prop :=
  match i with
  | Blur input _ _ => Dom.name input = f
  | _ => False
  end.

(** A session on the form [a], [b], [c] that never touches [b]. *)
Definition sessionAroundB : list Invocation :=
  [Focus (textInput "a" "x") None someEvent;
   Change (textInput "a" "x") None someEvent;
   Blur (textInput "a" "x") (Some validateEvenWhenClean) someEvent;
   Submit [textInput "a" "x"; textInput "c" "z"] None someEvent].

(** ** Vocabulary of subscriptions *)

(** The handles that one turn of the subscription loop creates for the
    control [r] when [n] function objects exist already. *)
Definition handlesAt (n r : nat) (o : option FormulaFieldOptions) : Handles :=
  {| change := {| identity := n; kind := ChangeHandler;
                  capturedInput := r; capturedOptions := o |};
     focus := {| identity := S n; kind := FocusHandler;
                 capturedInput := r; capturedOptions := o |};
     blur := {| identity := S (S n); kind := BlurHandler;
                capturedInput := r; capturedOptions := o |} |}.

(** The handles are those of a subscription of the control [r] with the
    options [o]. *)
Definition handlesOf (r : nat) (o : option FormulaFieldOptions) (h : Handles)
    : Prop :=
  exists n, h = handlesAt n r o.

(** The handlers that an event of the given type reaches on a control
    subscribed with the options [o], in the order they run. *)
Definition handlersDue (c : FormFields) (o : option FormulaFieldOptions)
    (type : string) : list Invocation :=
  (if String.eqb type (selectedEventOf o)
   then [Change c o {| target := c |}] else []) ++
  (if String.eqb type Events.focus
   then [Focus c o {| target := c |}] else []) ++
  (if String.eqb type Events.blur
   then [Blur c o {| target := c |}] else []).

(** What [unsubscribeFromInputChanges] leaves of the listeners of one
    control, when it removes its change handle from the type [type]. *)
Definition withoutHandles (type : string) (h : Handles)
    (ls : list (string * Closure)) : list (string * Closure) :=
  List.filter (fun l => negb (sameListener Events.blur (blur h) l))
    (List.filter (fun l => negb (sameListener Events.focus (focus h) l))
       (List.filter (fun l => negb (sameListener type (change h) l)) ls)).

Definition validateOnInput : FormulaFieldOptions :=
  {| validateOn := Some "input"; emitOn := None; validateDirtyOnly := None |}.

Definition validateOnBlur : FormulaFieldOptions :=
  {| validateOn := Some "blur"; emitOn := None; validateDirtyOnly := None |}.

(** The event types that subscribing a control [times] times registers. *)
Definition registeredTypes (o : option FormulaFieldOptions) (times : nat)
    : list string :=
  concat (repeat [selectedEventOf o; Events.focus; Events.blur] times).

(** The page of the three fields [a], [b], [c], with no listener. *)
Definition threeFieldsPage : Page := pageOf threeFields.

(** ** The form element and its submit listener *)

(** The function object returned by [onSubmit]: its identity, and the
    array of controls (by reference) and the options it captured. It
    captures the one shared form state of the [World]. *)
Record SubmitCallback := {
  submitIdentity : nat;
  submitInputs : list nat;
  submitOptions : option FormulaValidations;
}.

(** The form element of a page, with its listeners in registration
    order. *)
Record FormElement := {
  page : Page;
  formListeners : list (string * SubmitCallback);
}.

Definition sameFormListener (type : string) (cb : SubmitCallback)
    (l : string * SubmitCallback) : bool :=
  String.eqb type (fst l) && Nat.eqb (submitIdentity cb) (submitIdentity (snd l)).

(** [form.addEventListener(type, cb)] *)
Definition formAddEventListener (type : string) (cb : SubmitCallback)
    (f : FormElement) : FormElement :=
  if existsb (sameFormListener type cb) (formListeners f) then f
  else {| page := page f; formListeners := formListeners f ++ [(type, cb)] |}.

(** [form.removeEventListener(type, cb)] *)
Definition formRemoveEventListener (type : string) (cb : SubmitCallback)
    (f : FormElement) : FormElement :=
  {| page := page f;
     formListeners :=
       List.filter (fun l => negb (sameFormListener type cb l)) (formListeners f) |}.

(** Subscribes to the form submit event and returns the added listener. *)
Definition subscribeToSubmitEvent (inputs : list nat)
    (options : option FormulaValidations) (f : FormElement)
    : SubmitCallback * FormElement :=
  let p := page f in
  let onSubmitCallback :=
    {| submitIdentity := created p; submitInputs := inputs;
       submitOptions := options |} in
  let f := {| page := {| controls := controls p; listeners := listeners p;
                         created := S (created p); world := world p |};
              formListeners := formListeners f |} in
  (onSubmitCallback, formAddEventListener Events.submit onSubmitCallback f).

(** Removes the listener attached to the form submit event. *)
Definition unsubscribeFromSubmitEvent (callback : SubmitCallback)
    (f : FormElement) : FormElement :=
  formRemoveEventListener Events.submit callback f.

(** The call of a submit callback: the captured controls are read as they
    are at the time of the call. *)
Definition callSubmitCallback (validate : Validator) (p : Page)
    (cb : SubmitCallback) (e : Event) : M unit :=
  eventHandlingFns.onSubmit validate (map (controls p) (submitInputs cb))
    (submitOptions cb) e.

(** The host dispatches an event of the given type on the form element. *)
Definition dispatchFormEvent (validate : Validator) (type : string) (e : Event)
    (f : FormElement) : FormElement :=
  let p := page f in
  let due := List.filter (fun l => String.eqb type (fst l)) (formListeners f) in
  {| page :=
       {| controls := controls p; listeners := listeners p; created := created p;
          world := fold_left (fun w l => after (callSubmitCallback validate p (snd l) e w))
                     due (world p) |};
     formListeners := formListeners f |}.

(** Every callback registered on the form is a function object created
    earlier. *)
Definition formClosuresKnown (f : FormElement) : Prop :=
  forall l, In l (formListeners f) -> submitIdentity (snd l) < created (page f).

(** The form of a page, with no listener. *)
Definition formOf (p : Page) : FormElement :=
  {| page := p; formListeners := [] |}.

(** * Properties *)

(** ** Ordered property lists *)

Section JsObjectFacts.
Context {V : Type}.
Implicit Types (o : JsObject.t V) (k : string) (v : V).

Import JsObject.

Lemma get_app_None k o o' :
  get k o = None -> get k (o ++ o') = get k o'.
Proof.
  induction o as [|[k1 v1] o IH]; simpl; [done|].
  destruct (String.eqb_spec k k1); [done|]. exact IH.
Qed.

Lemma get_None_keys k o : get k o = None <-> ~ In k (keys o).
Proof.
  induction o as [|[k1 v1] o IH]; simpl; [tauto|].
  destruct (String.eqb_spec k k1) as [->|Hne].
  - split; [done|]. intros H. exfalso. apply H. by left.
  - rewrite IH. split; [|tauto]. intros H [Heq|Hin]; [congruence|tauto].
Qed.

Lemma get_Some_keys k o v : get k o = Some v -> In k (keys o).
Proof.
  intros H. destruct (in_dec String.string_dec k (keys o)) as [|Hn]; [done|].
  apply get_None_keys in Hn. congruence.
Qed.

Lemma keys_replace k v o : keys (replace k v o) = keys o.
Proof.
  induction o as [|[k1 v1] o IH]; simpl; [done|].
  destruct (String.eqb_spec k k1) as [->|Hne]; simpl; [done|]. by rewrite IH.
Qed.

Lemma get_replace_eq k v o :
  get k (replace k v o) = match get k o with Some _ => Some v | None => None end.
Proof.
  induction o as [|[k1 v1] o IH]; simpl; [done|].
  destruct (String.eqb_spec k k1) as [->|Hne]; simpl.
  - by rewrite String.eqb_refl.
  - destruct (String.eqb_spec k k1); [done|]. exact IH.
Qed.

Lemma get_replace_ne k k' v o :
  k <> k' -> get k' (replace k v o) = get k' o.
Proof.
  intros Hne. induction o as [|[k1 v1] o IH]; simpl; [done|].
  destruct (String.eqb_spec k k1) as [->|Hne1]; simpl.
  - destruct (String.eqb_spec k' k1); [congruence|done].
  - destruct (String.eqb_spec k' k1); [done|]. exact IH.
Qed.

Lemma get_insert_index_ne i k k' v o :
  k <> k' -> get k' (insert_index i k v o) = get k' o.
Proof.
  intros Hne. induction o as [|[k1 v1] o IH]; simpl.
  - destruct (String.eqb_spec k' k); [congruence|done].
  - destruct (array_index k1) as [j|].
    + destruct (i <? j)%N; simpl.
      * destruct (String.eqb_spec k' k); [congruence|done].
      * destruct (String.eqb_spec k' k1); [done|]. exact IH.
    + simpl. destruct (String.eqb_spec k' k); [congruence|done].
Qed.

Lemma get_insert_index_eq i k v o :
  get k o = None -> get k (insert_index i k v o) = Some v.
Proof.
  induction o as [|[k1 v1] o IH]; simpl.
  - by rewrite String.eqb_refl.
  - destruct (String.eqb_spec k k1) as [->|Hne]; [done|]. intros Hn.
    destruct (array_index k1) as [j|].
    + destruct (i <? j)%N; simpl.
      * by rewrite String.eqb_refl.
      * destruct (String.eqb_spec k k1); [done|]. by apply IH.
    + simpl. by rewrite String.eqb_refl.
Qed.

Lemma keys_insert_index_perm i k v o :
  Permutation (keys (insert_index i k v o)) (k :: keys o).
Proof.
  induction o as [|[k1 v1] o IH]; simpl; [done|].
  destruct (array_index k1) as [j|]; [|done].
  destruct (i <? j)%N; simpl; [done|].
  rewrite IH. apply perm_swap.
Qed.

Lemma length_insert_index i k v o :
  length (insert_index i k v o) = S (length o).
Proof.
  induction o as [|[k1 v1] o IH]; simpl; [done|].
  destruct (array_index k1) as [j|]; [|done].
  destruct (i <? j)%N; simpl; [done|]. by rewrite IH.
Qed.

(** Reading after writing. *)
Lemma get_set k k' v o :
  get k' (set k v o) = if String.eqb k' k then Some v else get k' o.
Proof.
  unfold set. destruct (String.eqb_spec k' k) as [->|Hne].
  - destruct (get k o) eqn:Hg.
    + by rewrite get_replace_eq, Hg.
    + destruct (array_index k).
      * by apply get_insert_index_eq.
      * rewrite get_app_None by done. simpl. by rewrite String.eqb_refl.
  - destruct (get k o) eqn:Hg.
    + by apply get_replace_ne.
    + destruct (array_index k).
      * by apply get_insert_index_ne.
      * destruct (get k' o) eqn:Hg'.
        -- revert Hg'. clear. induction o as [|[k1 v1] o IH]; simpl; [done|].
           destruct (String.eqb_spec k' k1); [done|]. exact IH.
        -- rewrite get_app_None by done. simpl.
           destruct (String.eqb_spec k' k); [congruence|done].
Qed.

Lemma length_set k v o :
  length (set k v o) =
  match get k o with Some _ => length o | None => S (length o) end.
Proof.
  unfold set. destruct (get k o) eqn:Hg.
  - rewrite <- (length_map fst (replace k v o)).
    change (map fst (replace k v o)) with (keys (replace k v o)).
    rewrite keys_replace. unfold keys. by rewrite length_map.
  - destruct (array_index k).
    + apply length_insert_index.
    + rewrite length_app. simpl. lia.
Qed.

End JsObjectFacts.

Section CanonicalOrder.
Context {V : Type}.
Implicit Types (o : JsObject.t V) (k : string) (v : V).

Import JsObject.

Lemma keys_app o o' : keys (o ++ o') = keys o ++ keys o'.
Proof. unfold keys. apply map_app. Qed.

Lemma canonical_empty : canonical (@empty V).
Proof. split; constructor. Qed.

Lemma canonical_app_l o o' : canonical (o ++ o') -> canonical o.
Proof.
  intros [Hnd Hs]. rewrite keys_app in Hnd, Hs. split.
  - by apply NoDup_app in Hnd as (? & _ & _).
  - by apply StronglySorted_app_1_l in Hs.
Qed.

(** An index key at least as large as every key present goes last. *)
Lemma insert_index_last i k v o :
  Forall (fun k' => keyPrecedes k' k) (keys o) ->
  array_index k = Some i ->
  insert_index i k v o = o ++ [(k, v)].
Proof.
  intros Hall Hi. induction o as [|[k1 v1] o IH]; simpl; [done|].
  simpl in Hall. apply Forall_cons in Hall as [H1 Hall].
  unfold keyPrecedes in H1. rewrite Hi in H1.
  destruct (array_index k1) as [j|]; [|done].
  destruct (N.ltb_spec i j); [lia|]. by rewrite IH.
Qed.

(** Creating the last key of a canonical list appends it. *)
Lemma set_last k v o :
  canonical (o ++ [(k, v)]) -> set k v o = o ++ [(k, v)].
Proof.
  intros [Hnd Hs]. rewrite keys_app in Hnd, Hs. simpl in Hnd, Hs.
  apply NoDup_app in Hnd as (_ & Hfresh & _).
  apply StronglySorted_app in Hs as (Hle & _ & _).
  assert (Hg : get k o = None).
  { apply get_None_keys. intros Hin. apply list_elem_of_In in Hin.
    apply (Hfresh _ Hin). by left. }
  unfold set. rewrite Hg. destruct (array_index k) as [i|] eqn:Hi; [|done].
  apply insert_index_last; [|done].
  apply Forall_forall. intros k' Hin. apply Hle; [done|]. by left.
Qed.

Lemma spread_from o o' :
  canonical (o ++ o') ->
  fold_left (fun acc kv => set (fst kv) (snd kv) acc) o' o = o ++ o'.
Proof.
  revert o. induction o' as [|[k v] o' IH]; intros o Hc; simpl.
  - by rewrite app_nil_r.
  - replace (o ++ (k, v) :: o') with ((o ++ [(k, v)]) ++ o') in *
      by (by rewrite <- app_assoc).
    rewrite set_last by (by apply canonical_app_l in Hc).
    by apply IH.
Qed.

(** Copying a canonical object yields the same property list. *)
Lemma spread_canonical o : canonical o -> spread o = o.
Proof. intros Hc. unfold spread, empty. by rewrite (spread_from [] o). Qed.

Lemma keyPrecedes_trans k1 k2 k3 :
  keyPrecedes k1 k2 -> keyPrecedes k2 k3 -> keyPrecedes k1 k3.
Proof.
  unfold keyPrecedes.
  destruct (array_index k1), (array_index k2), (array_index k3); try done.
  lia.
Qed.

Lemma sorted_insert_index i k v o :
  array_index k = Some i ->
  StronglySorted keyPrecedes (keys o) ->
  StronglySorted keyPrecedes (keys (insert_index i k v o)).
Proof.
  intros Hi. induction o as [|[k1 v1] o IH]; simpl; intros Hs.
  - repeat constructor.
  - apply StronglySorted_inv in Hs as [Hs H1].
    assert (Hstop : keyPrecedes k k1 ->
                    StronglySorted keyPrecedes (k :: k1 :: keys o)).
    { intros Hk. constructor; [by constructor|].
      constructor; [done|]. eapply Forall_impl; [exact H1|].
      intros k'. by apply keyPrecedes_trans. }
    destruct (array_index k1) as [j|] eqn:Hj.
    + destruct (N.ltb_spec i j).
      * apply Hstop. unfold keyPrecedes. rewrite Hi, Hj. lia.
      * simpl. constructor; [by apply IH|].
        apply Forall_forall. intros k' Hin.
        apply list_elem_of_In in Hin.
        apply (Permutation_in _ (keys_insert_index_perm i k v o)) in Hin.
        destruct Hin as [<-|Hin].
        -- unfold keyPrecedes. rewrite Hi, Hj. lia.
        -- rewrite Forall_forall in H1. apply H1. by apply list_elem_of_In.
    + apply Hstop. unfold keyPrecedes. by rewrite Hi, Hj.
Qed.

(** Assignment keeps an object canonical. *)
Lemma canonical_set k v o : canonical o -> canonical (set k v o).
Proof.
  intros [Hnd Hs]. unfold set. destruct (get k o) eqn:Hg.
  - split; by rewrite keys_replace.
  - apply get_None_keys in Hg. destruct (array_index k) as [i|] eqn:Hi.
    + split; [|by apply sorted_insert_index].
      apply (NoDup_Permutation_proper _ _ (keys_insert_index_perm i k v o)).
      constructor; [|done]. by rewrite list_elem_of_In.
    + unfold canonical. rewrite keys_app. simpl. split.
      * apply NoDup_app. split_and!; [done| |by apply NoDup_singleton].
        intros k' Hin Hk. apply list_elem_of_singleton in Hk as ->.
        by apply list_elem_of_In in Hin.
      * apply StronglySorted_app. split_and!; [|done|repeat constructor].
        intros k1 k2 _ Hk. apply list_elem_of_singleton in Hk as ->.
        unfold keyPrecedes. rewrite Hi. by destruct (array_index k1).
Qed.

End CanonicalOrder.

(** ** Building the form state *)

Section CreateFormData.
Import formDataFns.

Lemma createFormData_snoc_spread inputs cur :
  createFormData (inputs ++ [cur]) =
  JsObject.set (Dom.name cur)
    (initialState cur (createFormData inputs))
    (JsObject.spread (createFormData inputs)).
Proof. unfold createFormData. by rewrite fold_left_app. Qed.

Lemma createFormData_canonical inputs : canonical (createFormData inputs).
Proof.
  induction inputs as [|cur inputs IH] using rev_ind.
  - apply canonical_empty.
  - rewrite createFormData_snoc_spread, spread_canonical by done.
    by apply canonical_set.
Qed.

(** Each turn of the reduction assigns one key of the accumulated object. *)
Lemma createFormData_snoc inputs cur :
  createFormData (inputs ++ [cur]) =
  JsObject.set (Dom.name cur)
    (initialState cur (createFormData inputs)) (createFormData inputs).
Proof.
  rewrite createFormData_snoc_spread.
  by rewrite spread_canonical by apply createFormData_canonical.
Qed.

Lemma createFormData_get_None inputs k :
  ~ In k (map Dom.name inputs) ->
  JsObject.get k (createFormData inputs) = None.
Proof.
  induction inputs as [|cur inputs IH] using rev_ind; [done|].
  rewrite map_app, in_app_iff. simpl. intros Hn.
  rewrite createFormData_snoc, get_set.
  destruct (String.eqb_spec k (Dom.name cur)) as [->|Hne]; [tauto|].
  apply IH. tauto.
Qed.

Lemma createFormData_length inputs :
  NoDup (map Dom.name inputs) ->
  length (createFormData inputs) = length inputs.
Proof.
  induction inputs as [|cur inputs IH] using rev_ind; [done|].
  rewrite map_app. simpl. intros Hnd.
  apply NoDup_app in Hnd as (Hnd & Hfresh & _).
  rewrite createFormData_snoc, length_set, length_app. simpl.
  rewrite createFormData_get_None, IH by
    (try done; rewrite <- list_elem_of_In; intros Hin;
     apply (Hfresh _ Hin); by left).
  lia.
Qed.

Lemma createFormData_get inputs cur :
  NoDup (map Dom.name inputs) -> In cur inputs ->
  JsObject.get (Dom.name cur) (createFormData inputs) =
  Some (initialState cur JsObject.empty).
Proof.
  induction inputs as [|c inputs IH] using rev_ind; [done|].
  rewrite map_app, in_app_iff. simpl. intros Hnd Hin.
  apply NoDup_app in Hnd as (Hnd & Hfresh & _).
  assert (Hc : ~ In (Dom.name c) (map Dom.name inputs)).
  { rewrite <- list_elem_of_In. intros H. apply (Hfresh _ H). by left. }
  rewrite createFormData_snoc, get_set.
  destruct Hin as [Hin|[->|[]]].
  - destruct (String.eqb_spec (Dom.name cur) (Dom.name c)) as [Heq|Hne].
    + exfalso. apply Hc. rewrite <- Heq. by apply in_map.
    + by apply IH.
  - rewrite String.eqb_refl. unfold initialState.
    by rewrite createFormData_get_None.
Qed.

Lemma plainKeys_insert_index {V} i k (v : V) o :
  JsObject.array_index k = Some i ->
  plainKeys (JsObject.keys (JsObject.insert_index i k v o)) =
  plainKeys (JsObject.keys o).
Proof.
  intros Hi.
  assert (Hk : negb (isArrayIndex k) = false)
    by (unfold isArrayIndex; by rewrite Hi).
  unfold plainKeys.
  induction o as [|[k1 v1] o IH]; simpl.
  - by rewrite Hk.
  - destruct (JsObject.array_index k1) as [j|] eqn:Hj.
    + destruct (i <? j)%N; simpl.
      * by rewrite Hk.
      * by rewrite IH.
    + simpl. by rewrite Hk.
Qed.

Lemma createFormData_plainKeys inputs :
  NoDup (map Dom.name inputs) ->
  plainKeys (JsObject.keys (createFormData inputs)) =
  plainKeys (map Dom.name inputs).
Proof.
  induction inputs as [|c inputs IH] using rev_ind; [done|].
  rewrite map_app. simpl. intros Hnd.
  apply NoDup_app in Hnd as (Hnd & Hfresh & _).
  assert (Hc : ~ In (Dom.name c) (map Dom.name inputs)).
  { rewrite <- list_elem_of_In. intros H. apply (Hfresh _ H). by left. }
  rewrite createFormData_snoc. unfold JsObject.set.
  rewrite createFormData_get_None by done.
  unfold plainKeys at 2. rewrite List.filter_app. fold (plainKeys (map Dom.name inputs)).
  rewrite <- IH by done. simpl.
  destruct (JsObject.array_index (Dom.name c)) as [i|] eqn:Hi.
  - rewrite plainKeys_insert_index by done.
    unfold isArrayIndex. rewrite Hi. simpl. by rewrite app_nil_r.
  - rewrite keys_app. unfold plainKeys. rewrite List.filter_app. simpl.
    unfold isArrayIndex. by rewrite Hi.
Qed.

Lemma plainKeys_all ks :
  forallb (fun k => negb (isArrayIndex k)) ks = true -> plainKeys ks = ks.
Proof.
  induction ks as [|k ks IH]; simpl; [done|].
  intros [Hk Hks]%andb_prop. rewrite Hk. by rewrite IH.
Qed.

Lemma createFormData_keys_names inputs k :
  In k (JsObject.keys (createFormData inputs)) -> In k (map Dom.name inputs).
Proof.
  intros Hin.
  destruct (in_dec String.string_dec k (map Dom.name inputs)) as [|Hn]; [done|].
  apply createFormData_get_None, get_None_keys in Hn. tauto.
Qed.

(** Without array-index names the entries are in declaration order. *)
Lemma createFormData_plain_order inputs :
  NoDup (map Dom.name inputs) ->
  forallb (fun k => negb (isArrayIndex k)) (map Dom.name inputs) = true ->
  JsObject.keys (createFormData inputs) = map Dom.name inputs.
Proof.
  intros Hnd Hplain.
  rewrite <- (plainKeys_all (map Dom.name inputs)) by done.
  rewrite <- createFormData_plainKeys by done.
  symmetry. apply plainKeys_all. apply forallb_forall. intros k Hin.
  apply createFormData_keys_names in Hin.
  by apply (proj1 (forallb_forall _ _) Hplain).
Qed.

End CreateFormData.

Section FormDataProperties.
Import formDataFns.

(** C4, as amended. For a radio button, [getInputValue] returns the
    control's own value when it is checked, whatever the previous value;
    when it is unchecked it returns [previousValue ?? ""] unless the
    previous value is the boolean [false], in which case it returns the
    empty string (the fallback is [||], which replaces every falsy previous
    value). *)
Theorem getInputValue_radio input previousValue :
  isRadio input = true ->
  (Dom.checked input = true ->
   getInputValue input previousValue = VString (Dom.value input)) /\
  (Dom.checked input = false ->
   previousValue <> Some (VBool false) ->
   getInputValue input previousValue = previousOrEmpty previousValue) /\
  (Dom.checked input = false ->
   previousValue = Some (VBool false) ->
   getInputValue input previousValue = VString "").
Proof.
  intros Hradio. unfold getInputValue. rewrite Hradio.
  split_and!; intros ->; [done| |by intros ->].
  destruct previousValue as [[s|[|]]|]; simpl; try done.
  by destruct (String.eqb_spec s "") as [->|].
Qed.

(** An unchecked radio button of a group whose previous value is a
    non-empty string keeps that value. *)
Lemma getInputValue_radio_witness :
  isRadio (radioInput "plan" "pro" false) = true /\
  getInputValue (radioInput "plan" "pro" false) (Some (VString "basic")) =
  VString "basic".
Proof.
  split; [reflexivity|].
  apply (getInputValue_radio (radioInput "plan" "pro" false)
           (Some (VString "basic"))); [reflexivity|reflexivity|discriminate].
Defined.

(** C4 as stated fails: an unchecked radio button whose previous value is
    the boolean [false] yields the empty string, not the previous value. *)
Lemma getInputValue_radio_previous_false :
  isRadio (radioInput "plan" "pro" false) = true /\
  Dom.checked (radioInput "plan" "pro" false) = false /\
  getInputValue (radioInput "plan" "pro" false) (Some (VBool false)) = VString "" /\
  getInputValue (radioInput "plan" "pro" false) (Some (VBool false)) <>
  previousOrEmpty (Some (VBool false)).
Proof. by split_and!. Qed.

(** The previous value [false] does reach [getInputValue]: a checkbox and
    a radio button sharing a name. *)
Lemma createFormData_radio_after_checkbox :
  option_map value
    (JsObject.get "plan"
       (createFormData [checkboxInput "plan" false; radioInput "plan" "pro" false])) =
  Some (VString "").
Proof. reflexivity. Qed.

(** A control that is not a native input has no input type. *)
Lemma createFormData_select :
  JsObject.get "country" (createFormData [selectControl "country" "fr"]) =
  Some {| value := VString "fr"; isValid := true; isTouched := false;
          isFocused := false; isDirty := false; errors := [];
          _inputType := None |}.
Proof. reflexivity. Qed.

(** C8, as amended. Over controls with distinct names [createFormData]
    yields exactly one entry per control, holding the value computed by
    [getInputValue] (with no previous value), [isValid = true], the three
    flags [false], no errors, and as input type the type of a native input
    and [null] otherwise. The entries are enumerated in declaration order
    when no name is an array index; in general the names that are array
    indices come first in ascending numeric order, followed by the other
    names in declaration order. *)
Theorem createFormData_entries inputs :
  NoDup (map Dom.name inputs) ->
  length (createFormData inputs) = length inputs /\
  (forall k, In k (JsObject.keys (createFormData inputs)) <->
             In k (map Dom.name inputs)) /\
  (forall cur, In cur inputs ->
     exists field,
       JsObject.get (Dom.name cur) (createFormData inputs) = Some field /\
       value field = getInputValue cur None /\
       isValid field = true /\ isTouched field = false /\
       isFocused field = false /\ isDirty field = false /\
       errors field = [] /\
       _inputType field = match Dom.class cur with
                          | Dom.HTMLInputElement ty => Some ty
                          | _ => None
                          end) /\
  canonical (createFormData inputs) /\
  plainKeys (JsObject.keys (createFormData inputs)) =
    plainKeys (map Dom.name inputs) /\
  (forallb (fun k => negb (isArrayIndex k)) (map Dom.name inputs) = true ->
   JsObject.keys (createFormData inputs) = map Dom.name inputs).
Proof.
  intros Hnd. split_and!.
  - by apply createFormData_length.
  - intros k. split; [apply createFormData_keys_names|].
    intros (cur & <- & Hin)%in_map_iff.
    eapply get_Some_keys. by apply createFormData_get.
  - intros cur Hin. eexists. split; [by apply createFormData_get|].
    by split_and!.
  - apply createFormData_canonical.
  - by apply createFormData_plainKeys.
  - by apply createFormData_plain_order.
Qed.

(** A text input and a checkbox: two entries, in declaration order. *)
Lemma createFormData_entries_witness :
  NoDup (map Dom.name [textInput "email" ""; checkboxInput "news" true]) /\
  JsObject.keys (createFormData [textInput "email" ""; checkboxInput "news" true]) =
  ["email"; "news"].
Proof.
  assert (Hnd : NoDup (map Dom.name
                  [textInput "email" ""; checkboxInput "news" true])).
  { simpl. apply NoDup_cons. split; [|apply NoDup_singleton].
    intros H%list_elem_of_singleton. discriminate. }
  split; [exact Hnd|].
  apply (createFormData_entries
           [textInput "email" ""; checkboxInput "news" true] Hnd).
  reflexivity.
Defined.

(** C8 as stated fails: with the distinct names ["1"] and ["0"] the entries
    are not in declaration order. *)
Lemma createFormData_index_names_reordered :
  NoDup (map Dom.name [textInput "1" "a"; textInput "0" "b"]) /\
  JsObject.keys (createFormData [textInput "1" "a"; textInput "0" "b"]) =
    ["0"; "1"] /\
  JsObject.keys (createFormData [textInput "1" "a"; textInput "0" "b"]) <>
    map Dom.name [textInput "1" "a"; textInput "0" "b"].
Proof.
  split_and!; [|done|done].
  simpl. apply NoDup_cons. split; [|apply NoDup_singleton].
  intros H%list_elem_of_singleton. discriminate.
Qed.

End FormDataProperties.

(** ** Running the primitives *)

Section Primitives.
Implicit Types (w : World) (name : string).

Lemma replace_replace {V} k (v1 v2 : V) o :
  JsObject.replace k v2 (JsObject.replace k v1 o) = JsObject.replace k v2 o.
Proof.
  induction o as [|[k1 x1] o IH]; simpl; [done|].
  destruct (String.eqb_spec k k1) as [->|Hne]; simpl.
  - by rewrite String.eqb_refl.
  - destruct (String.eqb_spec k k1); [done|]. by rewrite IH.
Qed.

Lemma get_replace {V} k k' (v : V) o :
  JsObject.get k' (JsObject.replace k v o) =
  if String.eqb k' k
  then match JsObject.get k o with Some _ => Some v | None => None end
  else JsObject.get k' o.
Proof.
  destruct (String.eqb_spec k' k) as [->|Hne].
  - apply get_replace_eq.
  - by apply get_replace_ne.
Qed.

Lemma writeField_present name g w field :
  JsObject.get name (formData w) = Some field ->
  writeField name g w =
  Return tt {| formData := JsObject.replace name (g field) (formData w);
               calls := calls w |}.
Proof. intros H. unfold writeField, JsObject.update. by rewrite H. Qed.

Lemma emitted_app w c :
  emitted {| formData := formData w; calls := calls w ++ [c] |} =
  emitted w ++ match c with Emit ev p => [(ev, p)] | _ => [] end.
Proof.
  unfold emitted. simpl. rewrite omap_app. simpl.
  destruct c; by rewrite ?app_nil_r.
Qed.

End Primitives.

(** ** Invariants of a field *)

Section Preservation.
Context {I : World -> Prop}.

Lemma preserves_ret {A} (a : A) : preserves I (ret a).
Proof. by intros w. Qed.

Lemma preserves_throw {A} e : preserves I (@throw A e).
Proof. by intros w. Qed.

Lemma preserves_bind {A B} (m : M A) (k : A -> M B) :
  preserves I m -> (forall a, preserves I (k a)) -> preserves I (bind m k).
Proof.
  intros Hm Hk w Hw. specialize (Hm w Hw). unfold bind.
  destruct (m w) as [a w'|e w']; simpl in *; [by apply Hk|done].
Qed.

(** A first step that establishes [I], followed by steps that keep it. *)
Lemma establishes_bind {A B} (P : World -> Prop) (m : M A) (k : A -> M B) :
  (forall w, P w -> I (after (m w))) ->
  (forall a, preserves I (k a)) ->
  forall w, P w -> I (after (bind m k w)).
Proof.
  intros Hm Hk w Hw. specialize (Hm w Hw). unfold bind.
  destruct (m w) as [a w'|e w']; simpl in *; [by apply Hk|done].
Qed.

Lemma preserves_when b (m : M unit) :
  preserves I m -> preserves I (when b m).
Proof. intros Hm. destruct b; [done|apply preserves_ret]. Qed.

Lemma preserves_forOf {A B} (xs : list A) (acc : B) body :
  (forall acc x, preserves I (body acc x)) -> preserves I (forOf xs acc body).
Proof.
  intros Hbody. revert acc. induction xs as [|x xs IH]; intros acc; simpl.
  - apply preserves_ret.
  - apply preserves_bind; [apply Hbody|]. intros acc'. apply IH.
Qed.

End Preservation.

Section FieldInvariant.
Variable validate : Validator.
Variable f : string.
Variable Q : FieldState -> Prop.

Lemma preserves_getFormData : preserves (fieldHas f Q) getFormData.
Proof. by intros w. Qed.

Lemma preserves_readField name : preserves (fieldHas f Q) (readField name).
Proof. intros w Hw. unfold readField. by destruct (JsObject.get _ _). Qed.

Lemma preserves_call c : preserves (fieldHas f Q) (call c).
Proof. by intros w. Qed.

(** A write to another field, or one that respects [Q], keeps [Q]. *)
Lemma preserves_writeField name g :
  (name = f -> forall s, Q s -> Q (g s)) ->
  preserves (fieldHas f Q) (writeField name g).
Proof.
  intros Hg w (s & Hs & HQ). unfold writeField, JsObject.update.
  destruct (JsObject.get name (formData w)) as [s0|] eqn:Hget; simpl;
    [|by exists s].
  unfold fieldHas. simpl. rewrite get_replace.
  destruct (String.eqb_spec f name) as [->|Hne].
  - rewrite Hget. exists (g s0). split; [done|].
    apply Hg; [done|]. congruence.
  - by exists s.
Qed.

(** Peels the binds and the steps that never change a field. *)
Ltac keep :=
  repeat match goal with
    | |- preserves _ (bind _ _) => apply preserves_bind; [|intros ?]
    | |- preserves _ (when _ _) => apply preserves_when
    | |- preserves _ (ret _) => apply preserves_ret
    | |- preserves _ (call _) => apply preserves_call
    | |- preserves _ (readField _) => apply preserves_readField
    | |- preserves _ getFormData => apply preserves_getFormData
    end.

Hypothesis Q_value : forall v s, Q s -> Q (set_value v s).
Hypothesis Q_validity : forall valid errs s, Q s -> Q (set_validity valid errs s).
Hypothesis Q_touched : forall s, Q s -> Q (set_isTouched true s).
Hypothesis Q_dirty : forall s, Q s -> Q (set_isDirty true s).

Lemma preserves_applyFieldValidation input inputOptions :
  preserves (fieldHas f Q)
    (validationFns.applyFieldValidation validate input inputOptions).
Proof.
  unfold validationFns.applyFieldValidation.
  apply preserves_bind; [apply preserves_call|]. intros _.
  apply preserves_bind; [apply preserves_getFormData|]. intros fd.
  destruct (validate input fd inputOptions).
  - apply preserves_writeField. intros _. apply Q_validity.
  - apply preserves_throw.
Qed.

Lemma preserves_emitField name event :
  preserves (fieldHas f Q)
    (bind (readField name) (fun field => emit event (FieldPayload field))).
Proof.
  apply preserves_bind; [apply preserves_readField|].
  intros field. apply preserves_call.
Qed.

(** The focus and blur handlers keep what their first assignment
    establishes. *)
Lemma onFocus_from (P : World -> Prop) input inputOptions e :
  (forall w, P w ->
     fieldHas f Q (after (writeField (Dom.name input) (set_isFocused true) w))) ->
  forall w, P w ->
    fieldHas f Q (after (eventHandlingFns.onFocus input inputOptions e w)).
Proof.
  intros Hfirst. unfold eventHandlingFns.onFocus.
  apply establishes_bind; [done|]. intros _.
  apply preserves_when, preserves_emitField.
Qed.

Lemma onBlur_from (P : World -> Prop) input inputOptions e :
  (forall w, P w ->
     fieldHas f Q (after (writeField (Dom.name input) (set_isFocused false) w))) ->
  forall w, P w ->
    fieldHas f Q (after (eventHandlingFns.onBlur validate input inputOptions e w)).
Proof.
  intros Hfirst. unfold eventHandlingFns.onBlur.
  apply establishes_bind; [done|]. intros _.
  apply preserves_bind; [apply preserves_readField|]. intros field.
  apply preserves_bind; [|intros _; apply preserves_when, preserves_emitField].
  apply preserves_when, preserves_bind.
  - apply preserves_writeField. intros _. apply Q_touched.
  - intros _. apply preserves_when, preserves_applyFieldValidation.
Qed.

Lemma preserves_onFocus input inputOptions e :
  (Dom.name input = f -> forall s, Q s -> Q (set_isFocused true s)) ->
  preserves (fieldHas f Q) (eventHandlingFns.onFocus input inputOptions e).
Proof.
  intros Hfocus. unfold preserves. apply onFocus_from.
  by apply preserves_writeField.
Qed.

Lemma preserves_onBlur input inputOptions e :
  (Dom.name input = f -> forall s, Q s -> Q (set_isFocused false s)) ->
  preserves (fieldHas f Q) (eventHandlingFns.onBlur validate input inputOptions e).
Proof.
  intros Hfocus. unfold preserves. apply onBlur_from.
  by apply preserves_writeField.
Qed.

Lemma preserves_onChange input inputOptions e :
  preserves (fieldHas f Q) (eventHandlingFns.onChange validate input inputOptions e).
Proof.
  unfold eventHandlingFns.onChange, emit. keep.
  - apply preserves_writeField. intros _. apply Q_value.
  - apply preserves_applyFieldValidation.
  - apply preserves_writeField. intros _. apply Q_dirty.
Qed.

Lemma preserves_onSubmit inputs options e :
  preserves (fieldHas f Q) (eventHandlingFns.onSubmit validate inputs options e).
Proof.
  unfold eventHandlingFns.onSubmit, preventDefault, emit. keep.
  apply preserves_forOf. intros acc x. unfold eventHandlingFns.submitStep.
  keep. apply preserves_applyFieldValidation.
Qed.

(** Every invocation that does not move the focus of [f] keeps [Q]. *)
Lemma preserves_invoke i :
  (forall b, focusEffect f i = Some b -> forall s, Q s -> Q (set_isFocused b s)) ->
  preserves (fieldHas f Q) (invoke validate i).
Proof.
  intros Hfocus. destruct i as [input o e|input o e|input o e|inputs o e]; simpl.
  - apply preserves_onFocus. intros Hn. apply Hfocus. simpl.
    by rewrite Hn, String.eqb_refl.
  - apply preserves_onBlur. intros Hn. apply Hfocus. simpl.
    by rewrite Hn, String.eqb_refl.
  - apply preserves_onChange.
  - apply preserves_onSubmit.
Qed.

End FieldInvariant.

(** ** Sequences of invocations *)

Section Sequences.
Variable validate : Validator.
Variable f : string.

Lemma deliver_snoc invocations i w :
  deliver validate (invocations ++ [i]) w =
  after (invoke validate i (deliver validate invocations w)).
Proof. unfold deliver. by rewrite fold_left_app. Qed.

(** A property of the entry of [f] that no assignment of the handlers
    breaks holds after every sequence of invocations. *)
Lemma deliver_preserves (Q : FieldState -> Prop) invocations :
  (forall v s, Q s -> Q (set_value v s)) ->
  (forall valid errs s, Q s -> Q (set_validity valid errs s)) ->
  (forall s, Q s -> Q (set_isTouched true s)) ->
  (forall s, Q s -> Q (set_isDirty true s)) ->
  (forall b s, Q s -> Q (set_isFocused b s)) ->
  forall w, fieldHas f Q w -> fieldHas f Q (deliver validate invocations w).
Proof.
  intros Hv Hval Ht Hd Hf.
  induction invocations as [|i invocations IH] using rev_ind; intros w Hw;
    [done|].
  rewrite deliver_snoc. apply preserves_invoke; auto.
Qed.

(** The first assignment of a focus or blur handler of [f] sets the flag. *)
Lemma focus_assignment (P : FieldState -> Prop) input b w :
  Dom.name input = f ->
  fieldHas f P w ->
  fieldHas f (fun s => isFocused s = b)
    (after (writeField (Dom.name input) (set_isFocused b) w)).
Proof.
  intros -> (s & Hs & _). rewrite (writeField_present _ _ _ _ Hs). simpl.
  exists (set_isFocused b s). split; [|done].
  simpl. by rewrite get_replace, String.eqb_refl, Hs.
Qed.

Lemma focus_step b i w :
  fieldHas f (fun s => isFocused s = b) w ->
  fieldHas f (fun s => isFocused s = default b (focusEffect f i))
    (after (invoke validate i w)).
Proof.
  destruct (focusEffect f i) as [b'|] eqn:Heff; simpl.
  - destruct i as [input o e|input o e|input o e|inputs o e]; simpl in *;
      try discriminate;
      destruct (String.eqb_spec (Dom.name input) f) as [Hn|]; try discriminate;
      injection Heff as <-.
    + apply onFocus_from; try done.
      intros w0. by apply focus_assignment.
    + apply onBlur_from; try done.
      intros w0. by apply focus_assignment.
  - apply preserves_invoke; try done.
    intros b'. by rewrite Heff.
Qed.

Lemma focusedAfter_snoc b invocations i :
  focusedAfter f b (invocations ++ [i]) =
  default (focusedAfter f b invocations) (focusEffect f i).
Proof. unfold focusedAfter. by rewrite fold_left_app. Qed.

Lemma deliver_focus b invocations w :
  fieldHas f (fun s => isFocused s = b) w ->
  fieldHas f (fun s => isFocused s = focusedAfter f b invocations)
    (deliver validate invocations w).
Proof.
  intros Hw. induction invocations as [|i invocations IH] using rev_ind;
    [done|].
  rewrite deliver_snoc, focusedAfter_snoc. by apply focus_step.
Qed.

Lemma snoc_split {A} (before later xs : list A) (i x : A) :
  before ++ i :: later = xs ++ [x] ->
  (later = [] /\ before = xs /\ i = x) \/
  (exists later', later = later' ++ [x] /\ xs = before ++ i :: later').
Proof.
  destruct later as [|y later _] using rev_ind.
  - intros [-> ->]%app_inj_tail. by left.
  - rewrite app_comm_cons, app_assoc. intros [<- ->]%app_inj_tail.
    right. by exists later.
Qed.

(** Starting unfocused, the flag is set exactly inside a focus window. *)
Lemma focusedAfter_window invocations :
  focusedAfter f false invocations = true <-> insideFocusWindow f invocations.
Proof.
  induction invocations as [|x invocations IH] using rev_ind.
  - split; [done|]. intros (before & i & later & Heq & _).
    by destruct before.
  - rewrite focusedAfter_snoc.
    destruct (focusEffect f x) as [[|]|] eqn:Hx; simpl.
    + split; [|done]. intros _. exists invocations, x, []. by split_and!.
    + split; [done|]. intros (before & i & later & Heq & Hi & Hlater).
      symmetry in Heq.
      apply snoc_split in Heq as [(-> & -> & ->)|(later' & -> & ->)].
      * congruence.
      * apply Forall_app in Hlater as [_ Hlast].
        apply Forall_inv in Hlast. done.
    + rewrite IH. split.
      * intros (before & i & later & -> & Hi & Hlater).
        exists before, i, (later ++ [x]). split_and!; [|done|].
        -- by rewrite <- app_assoc.
        -- apply Forall_app. split; [done|]. constructor; [|done].
           by rewrite Hx.
      * intros (before & i & later & Heq & Hi & Hlater).
        symmetry in Heq.
        apply snoc_split in Heq as [(-> & -> & ->)|(later' & -> & ->)].
        -- congruence.
        -- apply Forall_app in Hlater as [Hlater _].
           by exists before, i, later'.
Qed.

End Sequences.

(** Every entry built by [createFormData] starts unfocused, untouched and
    clean. *)
Lemma createFormData_initial_flags inputs k field :
  JsObject.get k (formDataFns.createFormData inputs) = Some field ->
  isFocused field = false /\ isTouched field = false /\ isDirty field = false.
Proof.
  revert field. induction inputs as [|cur inputs IH] using rev_ind;
    intros field; [done|].
  rewrite createFormData_snoc, get_set.
  destruct (String.eqb_spec k (Dom.name cur)); [|by apply IH].
  by intros [= <-].
Qed.

Lemma onFocus_validations input inputOptions e w :
  validations (after (eventHandlingFns.onFocus input inputOptions e w)) =
  validations w.
Proof.
  unfold eventHandlingFns.onFocus, bind, writeField, JsObject.update.
  destruct (JsObject.get (Dom.name input) (formData w)) as [s|] eqn:Hs;
    [|done].
  destruct (emitAllowed inputOptions Events.focus); simpl; [|done].
  unfold bind, readField. simpl. rewrite get_replace, String.eqb_refl, Hs.
  simpl. unfold validations. simpl. rewrite omap_app. simpl.
  by rewrite app_nil_r.
Qed.

Section StateMachineProperties.
Variable validate : Validator.

(** C5. Along every sequence of handler invocations (focus, blur, change,
    submit, of any field) on a form state, the entry of a field stays in
    place and, once [isTouched] is true it is true ever after, and once
    [isDirty] is true it is true ever after. *)
Theorem flags_monotonic f invocations w field :
  JsObject.get f (formData w) = Some field ->
  exists field',
    JsObject.get f (formData (deliver validate invocations w)) = Some field' /\
    (isTouched field = true -> isTouched field' = true) /\
    (isDirty field = true -> isDirty field' = true).
Proof.
  intros Hget.
  apply (deliver_preserves validate f
           (fun s => (isTouched field = true -> isTouched s = true) /\
                     (isDirty field = true -> isDirty s = true)));
    try (by intros); try (by intros ? ? ?); try (by intros ? ? ? ?).
  - intros s [Ht Hd]. by split.
  - intros s [Ht Hd]. by split.
  - by exists field.
Qed.

(** C9. A field that is not focused (as every field is when the form state
    is built) has [isFocused] true after a sequence of handler invocations
    exactly when the sequence contains a focus event of that field with no
    later blur event of that field, and false otherwise; the focus handler
    never invokes validation. *)
Theorem focus_window f invocations w field :
  JsObject.get f (formData w) = Some field ->
  isFocused field = false ->
  (exists field',
     JsObject.get f (formData (deliver validate invocations w)) = Some field' /\
     (isFocused field' = true <-> insideFocusWindow f invocations)) /\
  (forall inputs k s,
     JsObject.get k (formDataFns.createFormData inputs) = Some s ->
     isFocused s = false) /\
  (forall input inputOptions e w0,
     validations (after (eventHandlingFns.onFocus input inputOptions e w0)) =
     validations w0).
Proof.
  intros Hget Hunfocused. split_and!.
  - destruct (deliver_focus validate f false invocations w)
      as (field' & Hget' & Hfocused); [by exists field|].
    exists field'. split; [done|].
    rewrite Hfocused. apply focusedAfter_window.
  - intros inputs k s Hs. by apply createFormData_initial_flags in Hs as [? _].
  - apply onFocus_validations.
Qed.

End StateMachineProperties.

(** A touched and dirty field stays so through a session of focus,
    change, blur and submit. *)
Lemma flags_monotonic_witness :
  JsObject.get "email" (formData (emptyWorld [("email", usedEmailField)])) =
    Some usedEmailField /\
  exists field',
    JsObject.get "email"
      (formData (deliver requireValue sampleSession
                   (emptyWorld [("email", usedEmailField)]))) = Some field' /\
    (isTouched usedEmailField = true -> isTouched field' = true) /\
    (isDirty usedEmailField = true -> isDirty field' = true).
Proof.
  split; [reflexivity|].
  apply (flags_monotonic requireValue "email" sampleSession
           (emptyWorld [("email", usedEmailField)]) usedEmailField).
  reflexivity.
Defined.

(** The same session on a freshly built form. *)
Lemma focus_window_witness :
  JsObject.get "email"
    (formData (emptyWorld (formDataFns.createFormData [textInput "email" ""]))) =
    Some (formDataFns.initialState (textInput "email" "") JsObject.empty) /\
  isFocused (formDataFns.initialState (textInput "email" "") JsObject.empty) =
    false /\
  exists field',
    JsObject.get "email"
      (formData (deliver requireValue sampleSession
         (emptyWorld (formDataFns.createFormData [textInput "email" ""])))) =
      Some field' /\
    (isFocused field' = true <-> insideFocusWindow "email" sampleSession).
Proof.
  split; [reflexivity|]. split; [reflexivity|].
  apply (focus_window requireValue "email" sampleSession
           (emptyWorld (formDataFns.createFormData [textInput "email" ""]))
           (formDataFns.initialState (textInput "email" "") JsObject.empty));
    reflexivity.
Defined.

(** ** The handlers, run on a field that is present *)

Section HandlerRuns.
Variable validate : Validator.
Implicit Types (fd : FormulaForm) (cs : list Call) (input : FormFields).

Lemma writeField_at name g fd cs s :
  JsObject.get name fd = Some s ->
  writeField name g {| formData := fd; calls := cs |} =
  Return tt {| formData := JsObject.replace name (g s) fd; calls := cs |}.
Proof. intros H. unfold writeField, JsObject.update. simpl. by rewrite H. Qed.

Lemma readField_at name fd cs s :
  JsObject.get name fd = Some s ->
  readField name {| formData := fd; calls := cs |} =
  Return s {| formData := fd; calls := cs |}.
Proof. intros H. unfold readField. simpl. by rewrite H. Qed.

Lemma get_replaced name x fd s :
  JsObject.get name fd = Some s ->
  JsObject.get name (JsObject.replace name x fd) = Some x.
Proof. intros Hs. by rewrite get_replace, String.eqb_refl, Hs. Qed.

Lemma applyFieldValidation_at input inputOptions fd cs s :
  JsObject.get (Dom.name input) fd = Some s ->
  validationFns.applyFieldValidation validate input inputOptions
    {| formData := fd; calls := cs |} =
  match validate input fd inputOptions with
  | Validated valid errs =>
      Return tt
        {| formData :=
             JsObject.replace (Dom.name input) (set_validity valid errs s) fd;
           calls := cs ++ [ApplyFieldValidation input inputOptions] |}
  | Raised ex =>
      Throw ex
        {| formData := fd;
           calls := cs ++ [ApplyFieldValidation input inputOptions] |}
  end.
Proof.
  intros Hs. unfold validationFns.applyFieldValidation, bind, call, getFormData.
  simpl. destruct (validate input fd inputOptions); [|done].
  by rewrite (writeField_at _ _ _ _ _ Hs).
Qed.

Lemma emitField_at input inputOptions event fd cs s :
  JsObject.get (Dom.name input) fd = Some s ->
  when (emitAllowed inputOptions event)
    (bind (readField (Dom.name input))
       (fun field => emit event (FieldPayload field)))
    {| formData := fd; calls := cs |} =
  Return tt {| formData := fd;
               calls := cs ++ publication inputOptions event s |}.
Proof.
  intros Hs. unfold publication, when.
  destruct (emitAllowed inputOptions event).
  - unfold bind. by rewrite (readField_at _ _ _ _ Hs).
  - unfold ret. by rewrite app_nil_r.
Qed.

Lemma onFocus_run input inputOptions e fd cs s :
  JsObject.get (Dom.name input) fd = Some s ->
  eventHandlingFns.onFocus input inputOptions e {| formData := fd; calls := cs |} =
  Return tt
    {| formData := JsObject.replace (Dom.name input) (set_isFocused true s) fd;
       calls := cs ++ publication inputOptions Events.focus (set_isFocused true s) |}.
Proof.
  intros Hs. unfold eventHandlingFns.onFocus, bind at 1.
  rewrite (writeField_at _ _ _ _ _ Hs).
  by rewrite (emitField_at _ _ _ _ _ _ (get_replaced _ _ _ _ Hs)).
Qed.

Lemma onBlur_run input inputOptions e fd cs s :
  JsObject.get (Dom.name input) fd = Some s ->
  eventHandlingFns.onBlur validate input inputOptions e
    {| formData := fd; calls := cs |} =
  let n := Dom.name input in
  let s1 := set_isFocused false s in
  let s2 := set_isTouched true s1 in
  if isTouched s then
    Return tt {| formData := JsObject.replace n s1 fd;
                 calls := cs ++ publication inputOptions Events.blur s1 |}
  else if validateDirtyOnlyIsFalse inputOptions then
    match validate input (JsObject.replace n s2 fd) inputOptions with
    | Validated valid errs =>
        Return tt
          {| formData := JsObject.replace n (set_validity valid errs s2) fd;
             calls := (cs ++ [ApplyFieldValidation input inputOptions]) ++
                      publication inputOptions Events.blur
                        (set_validity valid errs s2) |}
    | Raised ex =>
        Throw ex
          {| formData := JsObject.replace n s2 fd;
             calls := cs ++ [ApplyFieldValidation input inputOptions] |}
    end
  else
    Return tt {| formData := JsObject.replace n s2 fd;
                 calls := cs ++ publication inputOptions Events.blur s2 |}.
Proof.
  intros Hs. cbv zeta. unfold eventHandlingFns.onBlur, bind at 1.
  rewrite (writeField_at _ _ _ _ _ Hs).
  pose proof (fun x => get_replaced (Dom.name input) x fd s Hs) as Hget.
  unfold bind at 1. rewrite (readField_at _ _ _ _ (Hget _)).
  change (isTouched (set_isFocused false s)) with (isTouched s).
  destruct (isTouched s); simpl.
  - unfold bind at 1, ret at 1. by rewrite (emitField_at _ _ _ _ _ _ (Hget _)).
  - unfold bind at 1. unfold bind at 1.
    rewrite (writeField_at _ _ _ _ _ (Hget _)).
    rewrite replace_replace.
    destruct (validateDirtyOnlyIsFalse inputOptions); simpl.
    + rewrite (applyFieldValidation_at _ _ _ _ _ (Hget _)).
      destruct (validate input _ inputOptions); [|done].
      rewrite replace_replace.
      by rewrite (emitField_at _ _ _ _ _ _ (Hget _)).
    + by rewrite (emitField_at _ _ _ _ _ _ (Hget _)).
Qed.

Lemma onChange_run input inputOptions e fd cs s :
  JsObject.get (Dom.name input) fd = Some s ->
  eventHandlingFns.onChange validate input inputOptions e
    {| formData := fd; calls := cs |} =
  let n := Dom.name input in
  let s1 := set_value (changedValue input e) s in
  match validate input (JsObject.replace n s1 fd) inputOptions with
  | Validated valid errs =>
      let s3 := set_isDirty true (set_validity valid errs s1) in
      Return tt
        {| formData := JsObject.replace n s3 fd;
           calls := (cs ++ [ApplyFieldValidation input inputOptions]) ++
                    publication inputOptions (selectedEventOf inputOptions) s3 |}
  | Raised ex =>
      Throw ex
        {| formData := JsObject.replace n s1 fd;
           calls := cs ++ [ApplyFieldValidation input inputOptions] |}
  end.
Proof.
  intros Hs. cbv zeta. unfold eventHandlingFns.onChange, bind at 1.
  fold (changedValue input e).
  rewrite (writeField_at _ _ _ _ _ Hs).
  pose proof (fun x => get_replaced (Dom.name input) x fd s Hs) as Hget.
  unfold bind at 1.
  rewrite (applyFieldValidation_at _ _ _ _ _ (Hget _)).
  destruct (validate input _ inputOptions) as [valid errs|ex]; [|done].
  rewrite replace_replace.
  unfold bind at 1. rewrite (readField_at _ _ _ _ (Hget _)).
  unfold bind at 1.
  change (isDirty (set_validity valid errs (set_value (changedValue input e) s)))
    with (isDirty s).
  destruct (isDirty s) eqn:Hd; simpl.
  - rewrite (emitField_at _ _ _ _ _ _ (Hget _)).
    replace (set_isDirty true (set_validity valid errs
               (set_value (changedValue input e) s)))
      with (set_validity valid errs (set_value (changedValue input e) s));
      [done|].
    unfold set_isDirty, set_validity, set_value. simpl. by rewrite Hd.
  - rewrite (writeField_at _ _ _ _ _ (Hget _)).
    rewrite replace_replace.
    by rewrite (emitField_at _ _ _ _ _ _ (Hget _)).
Qed.

End HandlerRuns.

(** ** What the handlers call *)

Section Traces.
Implicit Types (fd : FormulaForm) (cs : list Call).

Lemma validations_validation fd fd' cs input o :
  validations {| formData := fd; calls := cs ++ [ApplyFieldValidation input o] |} =
  validations {| formData := fd'; calls := cs |} ++ [(input, o)].
Proof. unfold validations. simpl. by rewrite omap_app. Qed.

Lemma validations_publication fd fd' cs o ev s :
  validations {| formData := fd; calls := cs ++ publication o ev s |} =
  validations {| formData := fd'; calls := cs |}.
Proof.
  unfold validations, publication. simpl. rewrite omap_app.
  destruct (emitAllowed o ev); simpl; by rewrite app_nil_r.
Qed.

Lemma emitted_validation fd fd' cs input o :
  emitted {| formData := fd; calls := cs ++ [ApplyFieldValidation input o] |} =
  emitted {| formData := fd'; calls := cs |}.
Proof. unfold emitted. simpl. rewrite omap_app. simpl. by rewrite app_nil_r. Qed.

Lemma emitted_publication fd fd' cs o ev s :
  emitted {| formData := fd; calls := cs ++ publication o ev s |} =
  emitted {| formData := fd'; calls := cs |} ++
  (if emitAllowed o ev then [(ev, FieldPayload s)] else []).
Proof.
  unfold emitted, publication. simpl. rewrite omap_app.
  by destruct (emitAllowed o ev).
Qed.

Lemma validations_calls_app fd fd' cs cs' :
  validations {| formData := fd; calls := cs ++ cs' |} =
  validations {| formData := fd'; calls := cs |} ++
  validations {| formData := fd'; calls := cs' |}.
Proof. unfold validations. cbn [calls]. apply omap_app. Qed.

Lemma emitted_calls_app fd fd' cs cs' :
  emitted {| formData := fd; calls := cs ++ cs' |} =
  emitted {| formData := fd'; calls := cs |} ++
  emitted {| formData := fd'; calls := cs' |}.
Proof. unfold emitted. cbn [calls]. apply omap_app. Qed.

Lemma validateDirtyOnlyIsFalse_spec o :
  validateDirtyOnlyIsFalse o = true <->
  exists options, o = Some options /\ validateDirtyOnly options = Some false.
Proof.
  unfold validateDirtyOnlyIsFalse. split.
  - destruct o as [options|]; [|done].
    destruct (validateDirtyOnly options) as [[|]|] eqn:Hv; try done.
    intros _. by exists options.
  - intros (options & -> & ->). done.
Qed.

Lemma includes_In x xs : includes x xs = true <-> In x xs.
Proof.
  unfold includes. rewrite existsb_exists. split.
  - intros (y & Hin & Heq). apply String.eqb_eq in Heq. by subst.
  - intros Hin. exists x. split; [done|]. apply String.eqb_refl.
Qed.

Lemma emitAllowed_spec o ev :
  emitAllowed o ev = true <->
  emitOnOf o = None \/ exists allowed, emitOnOf o = Some allowed /\ In ev allowed.
Proof.
  unfold emitAllowed, emitOnOf. destruct o as [options|]; [|by split; auto].
  destruct (emitOn options) as [allowed|]; [|by split; auto].
  rewrite includes_In. split.
  - intros Hin. right. by exists allowed.
  - intros [|(allowed' & [= <-] & Hin)]; done.
Qed.

(** The resolved change trigger: the configured [validateOn], else the
    canonical change event. *)
Lemma selectedEventOf_spec o :
  (forall options ev,
     o = Some options -> validateOn options = Some ev -> ev <> "" ->
     selectedEventOf o = ev) /\
  ((o = None \/
    exists options, o = Some options /\
      (validateOn options = None \/ validateOn options = Some "")) ->
   selectedEventOf o = Events.change).
Proof.
  unfold selectedEventOf. split.
  - intros options ev -> -> Hev. by destruct (String.eqb_spec ev "").
  - intros [-> | (options & -> & [-> | ->])]; done.
Qed.

End Traces.

Section HandlerProperties.
Variable validate : Validator.

(** C7. An invocation of the blur handler of a field sets [isFocused] to
    false and leaves [isTouched] true; validation is invoked, once, exactly
    when the field was not touched before and [validateDirtyOnly] is
    explicitly [false], and in no other case. *)
Theorem onBlur_effect input inputOptions e w s :
  JsObject.get (Dom.name input) (formData w) = Some s ->
  exists s',
    JsObject.get (Dom.name input)
      (formData (after (eventHandlingFns.onBlur validate input inputOptions e w))) =
      Some s' /\
    isFocused s' = false /\
    isTouched s' = true /\
    validations (after (eventHandlingFns.onBlur validate input inputOptions e w)) =
      validations w ++
      (if negb (isTouched s) && validateDirtyOnlyIsFalse inputOptions
       then [(input, inputOptions)] else []) /\
    (validateDirtyOnlyIsFalse inputOptions = true <->
     exists options,
       inputOptions = Some options /\ validateDirtyOnly options = Some false).
Proof.
  destruct w as [fd cs]. simpl. intros Hs.
  rewrite (onBlur_run validate _ _ _ _ _ _ Hs). cbv zeta.
  pose proof (fun x => get_replaced (Dom.name input) x fd s Hs) as Hget.
  pose proof (validateDirtyOnlyIsFalse_spec inputOptions) as Hspec.
  destruct (isTouched s) eqn:Ht; simpl.
  - eexists. split; [apply Hget|]. do 3 (split; [try done|]); [|done].
    rewrite (validations_publication _ fd). by rewrite app_nil_r.
  - destruct (validateDirtyOnlyIsFalse inputOptions) eqn:Hv.
    + destruct (validate input _ inputOptions) as [valid errs|ex]; simpl;
        (eexists; split; [apply Hget|]; do 3 (split; [try done|]); [|done]).
      * rewrite (validations_publication _ fd).
        apply validations_validation.
      * apply validations_validation.
    + simpl. eexists. split; [apply Hget|]. do 3 (split; [try done|]); [|done].
      rewrite (validations_publication _ fd). by rewrite app_nil_r.
Qed.

(** C2. Every invocation of the change handler of a field stores the
    boolean checked state of the event target when the captured control is
    a checkbox and the raw value of the event target otherwise (no fallback
    to the previous value), and invokes validation for the field once;
    [isDirty] is true afterwards unless it was false and validation raised
    (see C6). When that validation returns, the handler returns with
    [isDirty] true and publishes, under the field's [emitOn] gate, one event
    named by the resolved trigger. *)
Theorem onChange_effect input inputOptions e w s :
  JsObject.get (Dom.name input) (formData w) = Some s ->
  (exists s',
     JsObject.get (Dom.name input)
       (formData (after (eventHandlingFns.onChange validate input inputOptions e w))) =
       Some s' /\
     value s' = (if isCheckbox input then VBool (Dom.checked (target e))
                 else VString (Dom.value (target e))) /\
     isDirty s' =
       isDirty s ||
       returns (eventHandlingFns.onChange validate input inputOptions e w)) /\
  validations (after (eventHandlingFns.onChange validate input inputOptions e w)) =
    validations w ++ [(input, inputOptions)] /\
  (forall valid errs,
     validate input
       (JsObject.replace (Dom.name input) (set_value (changedValue input e) s)
          (formData w)) inputOptions = Validated valid errs ->
     exists s',
       returns (eventHandlingFns.onChange validate input inputOptions e w) = true /\
       JsObject.get (Dom.name input)
         (formData (after (eventHandlingFns.onChange validate input inputOptions e w))) =
         Some s' /\
       value s' = changedValue input e /\
       isDirty s' = true /\
       emitted (after (eventHandlingFns.onChange validate input inputOptions e w)) =
         emitted w ++
         (if emitAllowed inputOptions (selectedEventOf inputOptions)
          then [(selectedEventOf inputOptions, FieldPayload s')] else [])).
Proof.
  destruct w as [fd cs]. simpl. intros Hs.
  rewrite (onChange_run validate _ _ _ _ _ _ Hs). cbv zeta.
  pose proof (fun x => get_replaced (Dom.name input) x fd s Hs) as Hget.
  split_and!.
  - destruct (validate input _ inputOptions) as [valid errs|ex]; simpl;
      (eexists; split; [apply Hget|]; split; [done|]; simpl).
    + by rewrite orb_true_r.
    + by rewrite orb_false_r.
  - destruct (validate input _ inputOptions) as [valid errs|ex]; simpl.
    + rewrite (validations_publication _ fd).
      apply validations_validation.
    + apply validations_validation.
  - intros valid errs ->. simpl. eexists. split; [done|].
    split; [apply Hget|]. do 2 (split; [done|]).
    rewrite (emitted_publication _ fd). by rewrite (emitted_validation _ fd).
Qed.

End HandlerProperties.

(** ** The submit loop *)

Section SubmitLoop.
Variable validate : Validator.
Variable options : option FormulaValidations.

Lemma forOf_app {A B} (xs ys : list A) (acc : B) body w :
  forOf (xs ++ ys) acc body w =
  match forOf xs acc body w with
  | Return acc' w' => forOf ys acc' body w'
  | Throw ex w' => Throw ex w'
  end.
Proof.
  revert acc w. induction xs as [|x xs IH]; intros acc w; simpl; [done|].
  unfold bind. destruct (body acc x w) as [acc' w'|ex w']; [|done]. apply IH.
Qed.

Lemma keys_replace_get {V} k (v : V) o k' :
  JsObject.get k' (JsObject.replace k v o) <> None <-> JsObject.get k' o <> None.
Proof.
  rewrite get_replace. destruct (String.eqb_spec k' k) as [->|]; [|done].
  by destruct (JsObject.get k o).
Qed.

(** The loop, when every field is present and every validation returns:
    one validation per control, in order, and the conjunction of what is
    read after each. *)
Lemma submit_loop inputs acc fd cs :
  (forall x, In x inputs -> JsObject.get (Dom.name x) fd <> None) ->
  (forall x fd0, In x inputs ->
     exists valid errs,
       validate x fd0 (optionsFor options (Dom.name x)) = Validated valid errs) ->
  exists fd',
    forOf inputs acc (eventHandlingFns.submitStep validate options)
      {| formData := fd; calls := cs |} =
    Return
      (acc && forallb validAfterValidation
                (validatedWorlds validate options inputs
                   {| formData := fd; calls := cs |}))
      {| formData := fd'; calls := cs ++ validationCalls options inputs |} /\
    JsObject.keys fd' = JsObject.keys fd /\
    (forall k, ~ In k (map Dom.name inputs) ->
               JsObject.get k fd' = JsObject.get k fd) /\
    (NoDup (map Dom.name inputs) ->
     forallb validAfterValidation
       (validatedWorlds validate options inputs {| formData := fd; calls := cs |}) =
     forallb (fieldValid fd') inputs).
Proof.
  revert acc fd cs. induction inputs as [|x xs IH]; intros acc fd cs Hpresent Hret.
  - exists fd. simpl. unfold ret. rewrite app_nil_r, andb_true_r. by split_and!.
  - destruct (JsObject.get (Dom.name x) fd) as [s|] eqn:Hs;
      [|by exfalso; apply (Hpresent x); [left|]].
    destruct (Hret x fd (or_introl eq_refl)) as (valid & errs & Hv).
    pose proof (get_replaced (Dom.name x) (set_validity valid errs s) fd s Hs)
      as Hget.
    destruct (IH (if negb valid then false else acc)
                (JsObject.replace (Dom.name x) (set_validity valid errs s) fd)
                (cs ++ [ApplyFieldValidation x (optionsFor options (Dom.name x))]))
      as (fd' & Hrun & Hkeys & Hother & Hvalid).
    { intros y Hy. apply keys_replace_get, Hpresent. by right. }
    { intros y fd0 Hy. apply Hret. by right. }
    exists fd'. simpl.
    rewrite (applyFieldValidation_at validate _ _ _ _ _ Hs), Hv. simpl.
    unfold bind at 1, eventHandlingFns.submitStep at 1, bind at 1.
    rewrite (applyFieldValidation_at validate _ _ _ _ _ Hs), Hv.
    unfold bind at 1. rewrite (readField_at _ _ _ _ Hget). unfold ret at 1.
    change (isValid (set_validity valid errs s)) with valid.
    rewrite Hrun. unfold validationCalls in *. simpl.
    rewrite <- app_assoc. simpl.
    assert (Hx : forall cs0,
              validAfterValidation
                (x, {| formData := JsObject.replace (Dom.name x)
                                     (set_validity valid errs s) fd;
                       calls := cs0 |}) = valid).
    { intros cs0. unfold validAfterValidation, fieldValid. simpl.
      by rewrite Hget. }
    rewrite !Hx. split_and!.
    + f_equal. by destruct valid, acc.
    + by rewrite Hkeys, keys_replace.
    + intros k Hk. rewrite Hother by tauto.
      apply get_replace_ne. tauto.
    + intros [Hfresh Hnd]%NoDup_cons. rewrite Hvalid by done.
      f_equal. unfold fieldValid.
      rewrite Hother by (by rewrite <- list_elem_of_In).
      by rewrite Hget.
Qed.

Lemma applyFieldValidation_emitted input o w :
  emitted (after (validationFns.applyFieldValidation validate input o w)) =
  emitted w.
Proof.
  destruct w as [fd cs].
  unfold validationFns.applyFieldValidation, bind, call, getFormData. simpl.
  destruct (validate input fd o) as [valid errs|ex]; simpl.
  - unfold writeField, JsObject.update. simpl.
    destruct (JsObject.get (Dom.name input) fd); simpl;
      apply (emitted_validation _ fd).
  - apply (emitted_validation _ fd).
Qed.

(** The loop publishes nothing, however it ends. *)
Lemma submit_loop_emitted inputs acc w :
  emitted (after (forOf inputs acc (eventHandlingFns.submitStep validate options) w)) =
  emitted w.
Proof.
  revert acc w. induction inputs as [|x xs IH]; intros acc w; simpl; [done|].
  unfold bind at 1, eventHandlingFns.submitStep at 1, bind at 1.
  pose proof (applyFieldValidation_emitted x (optionsFor options (Dom.name x)) w)
    as Hafv.
  destruct (validationFns.applyFieldValidation validate x _ w) as [[] w1|ex w1];
    simpl in *; [|done].
  unfold bind, readField.
  destruct (JsObject.get (Dom.name x) (formData w1)); simpl; [|done].
  by rewrite IH.
Qed.

Lemma applyFieldValidation_calls input o w :
  calls (after (validationFns.applyFieldValidation validate input o w)) =
  calls w ++ [ApplyFieldValidation input o].
Proof.
  unfold validationFns.applyFieldValidation, bind, call, getFormData. simpl.
  destruct (validate input (formData w) o) as [valid errs|ex]; [|done].
  unfold writeField, JsObject.update. simpl.
  by destruct (JsObject.get (Dom.name input) (formData w)).
Qed.

Lemma submit_loop_cons x xs acc w :
  forOf (x :: xs) acc (eventHandlingFns.submitStep validate options) w =
  match validationFns.applyFieldValidation validate x
          (optionsFor options (Dom.name x)) w with
  | Return _ w1 =>
      match JsObject.get (Dom.name x) (formData w1) with
      | Some field =>
          forOf xs (if negb (isValid field) then false else acc)
            (eventHandlingFns.submitStep validate options) w1
      | None => Throw TypeError w1
      end
  | Throw ex w1 => Throw ex w1
  end.
Proof.
  simpl. unfold bind at 1, eventHandlingFns.submitStep at 1, bind at 1.
  destruct (validationFns.applyFieldValidation validate x _ w) as [[] w1|ex w1];
    [|done].
  unfold bind, readField. by destruct (JsObject.get (Dom.name x) (formData w1)).
Qed.

(** The loop, however it ends: it only adds calls, and the validation calls
    it adds are those of the first controls, in declaration order, of all
    the controls when it returns. *)
Lemma submit_loop_trace inputs acc w :
  exists n rest,
    calls (after (forOf inputs acc (eventHandlingFns.submitStep validate options) w)) =
      calls w ++ rest /\
    validations (after (forOf inputs acc
                          (eventHandlingFns.submitStep validate options) w)) =
      validations w ++ firstn n (validationArgs options inputs) /\
    (returns (forOf inputs acc (eventHandlingFns.submitStep validate options) w) =
       true -> n = length inputs).
Proof.
  revert acc w. induction inputs as [|x xs IH]; intros acc w.
  - exists 0, []. simpl. by rewrite !app_nil_r.
  - pose proof (applyFieldValidation_calls x (optionsFor options (Dom.name x)) w)
      as Hcalls.
    assert (Hone : forall w1,
              calls w1 = calls w ++
                [ApplyFieldValidation x (optionsFor options (Dom.name x))] ->
              validations w1 =
              validations w ++ firstn 1 (validationArgs options (x :: xs))).
    { intros w1 Hw1. unfold validations. rewrite Hw1, omap_app. done. }
    rewrite submit_loop_cons.
    destruct (validationFns.applyFieldValidation validate x _ w)
      as [[] w1|ex w1]; simpl in Hcalls.
    + destruct (JsObject.get (Dom.name x) (formData w1)) as [field|].
      * destruct (IH (if negb (isValid field) then false else acc) w1)
          as (n & rest & Hc & Hv & Hr).
        exists (S n), ([ApplyFieldValidation x (optionsFor options (Dom.name x))]
                       ++ rest).
        split_and!.
        -- by rewrite Hc, Hcalls, <- app_assoc.
        -- rewrite Hv, (Hone w1 Hcalls). simpl. by rewrite <- app_assoc.
        -- intros Hret. simpl. by rewrite (Hr Hret).
      * exists 1, [ApplyFieldValidation x (optionsFor options (Dom.name x))].
        simpl. split_and!; [done|by apply Hone|done].
    + exists 1, [ApplyFieldValidation x (optionsFor options (Dom.name x))].
      simpl. split_and!; [done|by apply Hone|done].
Qed.

End SubmitLoop.

Section SubmitAndGatingProperties.
Variable validate : Validator.

(** C1. Every invocation of the submit handler first suppresses the
    default action and then invokes validation for the controls in
    declaration order, whatever their validity, for every control unless
    a validation raises (which ends the invocation, see C6); it publishes
    exactly one submit event when it returns and none otherwise. When every
    control's field is present and validation returns for every control,
    the invocation returns, and the payload of the event is the whole form
    state and the conjunction of each field's [isValid] as read after that
    field's validation (for distinct names: of each field's [isValid] in
    the published state). *)
Theorem onSubmit_effect inputs options e w :
  (exists n rest aggregate,
     calls (after (eventHandlingFns.onSubmit validate inputs options e w)) =
       calls w ++ PreventDefault :: rest /\
     validations (after (eventHandlingFns.onSubmit validate inputs options e w)) =
       validations w ++ firstn n (validationArgs options inputs) /\
     (returns (eventHandlingFns.onSubmit validate inputs options e w) = true ->
      n = length inputs) /\
     emitted (after (eventHandlingFns.onSubmit validate inputs options e w)) =
       emitted w ++
       (if returns (eventHandlingFns.onSubmit validate inputs options e w)
        then [(Events.submit,
               SubmitPayload
                 (formData (after (eventHandlingFns.onSubmit validate inputs
                                     options e w)))
                 aggregate)]
        else [])) /\
  ((forall x, In x inputs -> JsObject.get (Dom.name x) (formData w) <> None) ->
   (forall x fd, In x inputs ->
      exists valid errs,
        validate x fd (optionsFor options (Dom.name x)) = Validated valid errs) ->
   exists fd' aggregate,
     eventHandlingFns.onSubmit validate inputs options e w =
     Return tt
       {| formData := fd';
          calls := calls w ++ [PreventDefault] ++ validationCalls options inputs ++
                   [Emit Events.submit (SubmitPayload fd' aggregate)] |} /\
     JsObject.keys fd' = JsObject.keys (formData w) /\
     aggregate =
       forallb validAfterValidation
         (validatedWorlds validate options inputs (after (preventDefault w))) /\
     (NoDup (map Dom.name inputs) ->
      aggregate = forallb (fieldValid fd') inputs)).
Proof.
  destruct w as [fd cs]. simpl. split.
  - assert (Hrun : eventHandlingFns.onSubmit validate inputs options e
                     {| formData := fd; calls := cs |} =
                   match forOf inputs true
                           (eventHandlingFns.submitStep validate options)
                           {| formData := fd; calls := cs ++ [PreventDefault] |}
                   with
                   | Return b w2 =>
                       Return tt
                         {| formData := formData w2;
                            calls := calls w2 ++
                              [Emit Events.submit (SubmitPayload (formData w2) b)] |}
                   | Throw ex w2 => Throw ex w2
                   end).
    { unfold eventHandlingFns.onSubmit, bind at 1, preventDefault, call at 1.
      unfold bind at 1. cbn [formData calls].
      by destruct (forOf inputs true _ _). }
    rewrite Hrun. clear Hrun.
    set (w0 := {| formData := fd; calls := cs ++ [PreventDefault] |}).
    destruct (submit_loop_trace validate options inputs true w0)
      as (n & rest & Hc & Hv & Hr).
    pose proof (submit_loop_emitted validate options inputs true w0) as He.
    assert (Hv0 : validations w0 = validations {| formData := fd; calls := cs |}).
    { unfold w0. rewrite (validations_calls_app _ fd). apply app_nil_r. }
    assert (He0 : emitted w0 = emitted {| formData := fd; calls := cs |}).
    { unfold w0. rewrite (emitted_calls_app _ fd). apply app_nil_r. }
    rewrite Hv0 in Hv. rewrite He0 in He.
    destruct (forOf inputs true _ w0) as [b w2|ex w2];
      cbn [after returns calls formData] in *.
    + exists n, (rest ++ [Emit Events.submit (SubmitPayload (formData w2) b)]), b.
      split_and!.
      * rewrite Hc. unfold w0. cbn [calls]. by rewrite <- !app_assoc.
      * rewrite (validations_calls_app _ (formData w2)).
        destruct w2 as [fd2 cs2]. cbn [formData calls] in *.
        rewrite Hv. apply app_nil_r.
      * done.
      * rewrite (emitted_calls_app _ (formData w2)).
        destruct w2 as [fd2 cs2]. cbn [formData calls] in *. by rewrite He.
    + exists n, rest, true. split_and!.
      * rewrite Hc. unfold w0. cbn [calls]. by rewrite <- !app_assoc.
      * done.
      * done.
      * by rewrite He, app_nil_r.
  - intros Hpresent Hret.
    destruct (submit_loop validate options inputs true fd (cs ++ [PreventDefault])
                Hpresent Hret) as (fd' & Hrun & Hkeys & _ & Hvalid).
    exists fd'. eexists. split_and!; [|done|reflexivity|].
    + unfold eventHandlingFns.onSubmit, bind at 1, preventDefault, call at 1.
      simpl. unfold bind at 1. rewrite Hrun. simpl.
      unfold bind, getFormData, emit, call. simpl.
      by rewrite <- !app_assoc.
    + intros Hnd. unfold preventDefault, call. simpl. by apply Hvalid.
Qed.

(** C3, as amended. An invocation of a field handler (focus, blur, or the
    resolved change trigger) that returns publishes one event, named by the
    trigger and carrying the field's state, exactly when the field's
    [emitOn] is absent or includes the trigger's name; an invocation that
    aborts publishes nothing. An empty [emitOn] therefore allows no event.
    With [emitOn: [blur]] nothing is published for a trigger other than
    blur, and exactly one blur event for a blur trigger. *)
Theorem emit_gating i input o trigger w s :
  fieldHandler i = Some (input, o, trigger) ->
  JsObject.get (Dom.name input) (formData w) = Some s ->
  (exists s',
     JsObject.get (Dom.name input) (formData (after (invoke validate i w))) =
       Some s' /\
     emitted (after (invoke validate i w)) =
       emitted w ++
       (if returns (invoke validate i w) && emitAllowed o trigger
        then [(trigger, FieldPayload s')] else [])) /\
  (emitAllowed o trigger = true <->
   emitOnOf o = None \/
   exists allowed, emitOnOf o = Some allowed /\ In trigger allowed) /\
  (emitOnOf o = Some [] -> emitted (after (invoke validate i w)) = emitted w) /\
  (emitOnOf o = Some [Events.blur] -> trigger <> Events.blur ->
   emitted (after (invoke validate i w)) = emitted w) /\
  (emitOnOf o = Some [Events.blur] -> trigger = Events.blur ->
   returns (invoke validate i w) = true ->
   exists s', emitted (after (invoke validate i w)) =
              emitted w ++ [(Events.blur, FieldPayload s')]).
Proof.
  intros Hi Hs.
  assert (Hmain : exists s',
     JsObject.get (Dom.name input) (formData (after (invoke validate i w))) =
       Some s' /\
     emitted (after (invoke validate i w)) =
       emitted w ++
       (if returns (invoke validate i w) && emitAllowed o trigger
        then [(trigger, FieldPayload s')] else [])).
  { destruct w as [fd cs]. simpl in Hs.
    pose proof (fun x => get_replaced (Dom.name input) x fd s Hs) as Hget.
    destruct i as [input' o' e|input' o' e|input' o' e|inputs o' e];
      simpl in Hi; try discriminate; injection Hi as -> -> <-; simpl.
    - rewrite (onFocus_run _ _ _ _ _ _ Hs). simpl.
      eexists. split; [apply Hget|]. apply emitted_publication.
    - rewrite (onBlur_run validate _ _ _ _ _ _ Hs). cbv zeta.
      destruct (isTouched s); simpl.
      + eexists. split; [apply Hget|]. apply emitted_publication.
      + destruct (validateDirtyOnlyIsFalse o).
        * destruct (validate input _ o) as [valid errs|ex]; simpl;
            (eexists; split; [apply Hget|]).
          -- rewrite (emitted_publication _ fd).
             by rewrite (emitted_validation _ fd).
          -- rewrite (emitted_validation _ fd). by rewrite app_nil_r.
        * simpl. eexists. split; [apply Hget|]. apply emitted_publication.
    - rewrite (onChange_run validate _ _ _ _ _ _ Hs). cbv zeta.
      destruct (validate input _ o) as [valid errs|ex]; simpl;
        (eexists; split; [apply Hget|]).
      + rewrite (emitted_publication _ fd).
        by rewrite (emitted_validation _ fd).
      + rewrite (emitted_validation _ fd). by rewrite app_nil_r. }
  pose proof (emitAllowed_spec o trigger) as Hspec.
  split; [exact Hmain|]. split; [exact Hspec|].
  destruct Hmain as (s' & _ & Hemitted).
  assert (Hblur : emitOnOf o = Some [Events.blur] ->
                  emitAllowed o trigger = String.eqb trigger Events.blur).
  { unfold emitAllowed, emitOnOf. destruct o as [options|]; [|done].
    intros ->. simpl. by rewrite orb_false_r. }
  split_and!.
  - intros Hempty. rewrite Hemitted.
    replace (emitAllowed o trigger) with false.
    + by rewrite andb_false_r, app_nil_r.
    + unfold emitAllowed, emitOnOf in *. destruct o as [options|]; [|done].
      by rewrite Hempty.
  - intros Hb Hne. rewrite Hemitted, Hblur by done.
    destruct (String.eqb_spec trigger Events.blur); [done|].
    by rewrite andb_false_r, app_nil_r.
  - intros Hb -> Hr. exists s'. rewrite Hemitted, Hr, Hblur by done. done.
Qed.

(** C6. No handler catches what validation raises. When validation raises
    during an invocation of the change handler, the invocation ends with
    that exception, with the value already assigned, [isDirty] as it was
    and nothing published; when validation raises for a control during an
    invocation of the submit handler, the invocation ends with that
    exception and no submit event is published; and likewise when it raises
    during the first blur of a field. *)
Theorem validation_failure_aborts :
  (forall input o e w s ex w2,
     JsObject.get (Dom.name input) (formData w) = Some s ->
     validationFns.applyFieldValidation validate input o
       (after (writeField (Dom.name input)
                 (set_value (changedValue input e)) w)) = Throw ex w2 ->
     eventHandlingFns.onChange validate input o e w = Throw ex w2 /\
     emitted w2 = emitted w /\
     exists s', JsObject.get (Dom.name input) (formData w2) = Some s' /\
                value s' = changedValue input e /\
                isDirty s' = isDirty s) /\
  (forall inputs options e w before x later b w1 ex w2,
     inputs = before ++ x :: later ->
     forOf before true (eventHandlingFns.submitStep validate options)
       (after (preventDefault w)) = Return b w1 ->
     validationFns.applyFieldValidation validate x
       (optionsFor options (Dom.name x)) w1 = Throw ex w2 ->
     eventHandlingFns.onSubmit validate inputs options e w = Throw ex w2 /\
     emitted w2 = emitted w) /\
  (forall inputs options e w ex w',
     eventHandlingFns.onSubmit validate inputs options e w = Throw ex w' ->
     emitted w' = emitted w) /\
  (forall input o e w s ex w2,
     JsObject.get (Dom.name input) (formData w) = Some s ->
     isTouched s = false ->
     validateDirtyOnlyIsFalse o = true ->
     validationFns.applyFieldValidation validate input o
       (after (writeField (Dom.name input) (set_isTouched true)
                 (after (writeField (Dom.name input) (set_isFocused false) w)))) =
       Throw ex w2 ->
     eventHandlingFns.onBlur validate input o e w = Throw ex w2 /\
     emitted w2 = emitted w).
Proof.
  assert (Hsubmit : forall inputs options e w ex w',
     eventHandlingFns.onSubmit validate inputs options e w = Throw ex w' ->
     emitted w' = emitted w).
  { intros inputs options e w ex w'.
    unfold eventHandlingFns.onSubmit, bind at 1, preventDefault, call at 1.
    unfold bind at 1.
    pose proof (submit_loop_emitted validate options inputs true
                  {| formData := formData w; calls := calls w ++ [PreventDefault] |})
      as Hloop.
    destruct (forOf inputs true _ _) as [b w1|ex1 w1]; simpl in Hloop.
    - unfold bind, getFormData, emit, call. discriminate.
    - intros [= <- <-]. rewrite Hloop. rewrite emitted_app. apply app_nil_r. }
  split_and!; [| |exact Hsubmit|].
  - intros input o e [fd cs] s ex w2 Hs. simpl in Hs.
    rewrite (writeField_at _ _ _ _ _ Hs). simpl.
    pose proof (fun x => get_replaced (Dom.name input) x fd s Hs) as Hget.
    intros Hafv. rewrite (onChange_run validate _ _ _ _ _ _ Hs). cbv zeta.
    rewrite (applyFieldValidation_at validate _ _ _ _ _ (Hget _)) in Hafv.
    destruct (validate input _ o) as [valid errs|ex']; [discriminate|].
    injection Hafv as <- <-. split; [done|]. split.
    + apply (emitted_validation _ fd).
    + eexists. split; [apply Hget|]. done.
  - intros inputs options e w before x later b w1 ex w2 -> Hbefore Hafv.
    assert (Hrun : eventHandlingFns.onSubmit validate (before ++ x :: later)
                     options e w = Throw ex w2).
    { unfold eventHandlingFns.onSubmit, bind at 1.
      change (preventDefault w) with (Return tt (after (preventDefault w))).
      unfold bind at 1. rewrite forOf_app, Hbefore. simpl.
      unfold bind at 1, eventHandlingFns.submitStep at 1, bind at 1.
      by rewrite Hafv. }
    split; [exact Hrun|]. by apply Hsubmit in Hrun.
  - intros input o e [fd cs] s ex w2 Hs Ht Hv. simpl in Hs.
    rewrite (writeField_at _ _ _ _ _ Hs). simpl.
    pose proof (fun x => get_replaced (Dom.name input) x fd s Hs) as Hget.
    rewrite (writeField_at _ _ _ _ _ (Hget _)). simpl.
    rewrite replace_replace.
    intros Hafv. rewrite (onBlur_run validate _ _ _ _ _ _ Hs). cbv zeta.
    rewrite Ht, Hv.
    rewrite (applyFieldValidation_at validate _ _ _ _ _ (Hget _)) in Hafv.
    destruct (validate input _ o) as [valid errs|ex']; [discriminate|].
    injection Hafv as <- <-. split; [done|].
    apply (emitted_validation _ fd).
Qed.

End SubmitAndGatingProperties.

(** ** Sample forms *)

(** Three fields of which validation rejects the second: one submit event,
    with the aggregate [false] and the state of the three fields. *)
Lemma onSubmit_effect_witness :
  (forall x, In x threeFields ->
     JsObject.get (Dom.name x)
       (formData (emptyWorld (formDataFns.createFormData threeFields))) <> None) /\
  (forall x fd, In x threeFields ->
     exists valid errs,
       rejectField "b" x fd (optionsFor None (Dom.name x)) = Validated valid errs) /\
  exists fd',
    eventHandlingFns.onSubmit (rejectField "b") threeFields None someEvent
      (emptyWorld (formDataFns.createFormData threeFields)) =
    Return tt
      {| formData := fd';
         calls := [PreventDefault] ++ validationCalls None threeFields ++
                  [Emit Events.submit (SubmitPayload fd' false)] |} /\
    JsObject.keys fd' = ["a"; "b"; "c"].
Proof.
  assert (H1 : forall x, In x threeFields ->
     JsObject.get (Dom.name x)
       (formData (emptyWorld (formDataFns.createFormData threeFields))) <> None).
  { intros x [<-|[<-|[<-|[]]]]; discriminate. }
  assert (H2 : forall x (fd : FormulaForm), In x threeFields ->
     exists valid errs,
       rejectField "b" x fd (optionsFor None (Dom.name x)) = Validated valid errs).
  { intros x fd [<-|[<-|[<-|[]]]]; eexists; eexists; reflexivity. }
  split; [exact H1|]. split; [exact H2|].
  destruct (proj2 (onSubmit_effect (rejectField "b") threeFields None someEvent
                     (emptyWorld (formDataFns.createFormData threeFields)))
              H1 H2)
    as (fd' & aggregate & Hrun & Hkeys & Haggregate & _).
  exists fd'. split; [|exact Hkeys].
  rewrite Hrun. vm_compute in Haggregate. by rewrite Haggregate.
Defined.

(** The control [email] with no options: a change event carrying an
    address stores it, marks the field dirty and publishes one [change]
    event. *)
Lemma onChange_effect_witness :
  JsObject.get (Dom.name emailInput) (formData emailWorld) =
    Some (formDataFns.initialState emailInput JsObject.empty) /\
  exists s',
    returns (eventHandlingFns.onChange acceptAll emailInput None someEvent
               emailWorld) = true /\
    JsObject.get "email"
      (formData (after (eventHandlingFns.onChange acceptAll emailInput None
                          someEvent emailWorld))) = Some s' /\
    value s' = VString "a@b.com" /\
    isDirty s' = true /\
    emitted (after (eventHandlingFns.onChange acceptAll emailInput None
                      someEvent emailWorld)) =
      [(Events.change, FieldPayload s')].
Proof.
  split; [reflexivity|].
  apply (proj2 (proj2 (onChange_effect acceptAll emailInput None someEvent
                         emailWorld
                         (formDataFns.initialState emailInput JsObject.empty)
                         eq_refl)) true []).
  reflexivity.
Defined.

(** The first blur of a clean field whose [validateDirtyOnly] is [false]
    validates it. *)
Lemma onBlur_effect_witness :
  JsObject.get (Dom.name emailInput) (formData emailWorld) =
    Some (formDataFns.initialState emailInput JsObject.empty) /\
  exists s',
    JsObject.get "email"
      (formData (after (eventHandlingFns.onBlur requireValue emailInput
                          (Some validateEvenWhenClean) someEvent emailWorld))) =
      Some s' /\
    isFocused s' = false /\
    isTouched s' = true /\
    validations (after (eventHandlingFns.onBlur requireValue emailInput
                          (Some validateEvenWhenClean) someEvent emailWorld)) =
      [(emailInput, Some validateEvenWhenClean)].
Proof.
  split; [reflexivity|].
  destruct (onBlur_effect requireValue emailInput (Some validateEvenWhenClean)
              someEvent emailWorld
              (formDataFns.initialState emailInput JsObject.empty) eq_refl)
    as (s' & Hget & Hfocused & Htouched & Hvalidations & _).
  exists s'. by split_and!.
Defined.

(** With [emitOn: [blur]] a blur publishes exactly one blur event. *)
Lemma emit_gating_witness :
  fieldHandler (Blur emailInput (Some (onlyEmitOn [Events.blur])) someEvent) =
    Some (emailInput, Some (onlyEmitOn [Events.blur]), Events.blur) /\
  JsObject.get (Dom.name emailInput) (formData emailWorld) =
    Some (formDataFns.initialState emailInput JsObject.empty) /\
  exists s',
    emitted (after (invoke acceptAll
                      (Blur emailInput (Some (onlyEmitOn [Events.blur])) someEvent)
                      emailWorld)) =
    emitted emailWorld ++ [(Events.blur, FieldPayload s')].
Proof.
  split; [reflexivity|]. split; [reflexivity|].
  apply (emit_gating acceptAll
           (Blur emailInput (Some (onlyEmitOn [Events.blur])) someEvent)
           emailInput (Some (onlyEmitOn [Events.blur])) Events.blur emailWorld
           (formDataFns.initialState emailInput JsObject.empty));
    reflexivity.
Defined.

(** C3 as stated fails: with an empty [emitOn] no handler publishes. *)
Lemma emitOn_empty_publishes_nothing :
  emitOnOf (Some (onlyEmitOn [])) = Some [] /\
  returns (invoke acceptAll (Focus emailInput (Some (onlyEmitOn [])) someEvent)
             emailWorld) = true /\
  emitted (after (invoke acceptAll
                    (Focus emailInput (Some (onlyEmitOn [])) someEvent)
                    emailWorld)) = [] /\
  emitted (after (invoke acceptAll
                    (Blur emailInput (Some (onlyEmitOn [])) someEvent)
                    emailWorld)) = [] /\
  emitted (after (invoke acceptAll
                    (Change emailInput (Some (onlyEmitOn [])) someEvent)
                    emailWorld)) = [].
Proof. by split_and!. Qed.

(** A validator that raises on one field: the change handler of that
    field and the submit handler of its form end with the exception and
    publish nothing. *)
Lemma validation_failure_aborts_witness :
  JsObject.get (Dom.name emailInput) (formData emailWorld) =
    Some (formDataFns.initialState emailInput JsObject.empty) /\
  (exists ex w2,
     validationFns.applyFieldValidation (raiseOnField "email") emailInput None
       (after (writeField (Dom.name emailInput)
                 (set_value (changedValue emailInput someEvent)) emailWorld)) =
       Throw ex w2 /\
     eventHandlingFns.onChange (raiseOnField "email") emailInput None someEvent
       emailWorld = Throw ex w2 /\
     emitted w2 = emitted emailWorld) /\
  (exists ex w2,
     eventHandlingFns.onSubmit (raiseOnField "b") threeFields None someEvent
       (emptyWorld (formDataFns.createFormData threeFields)) = Throw ex w2 /\
     emitted w2 = []).
Proof.
  split; [reflexivity|]. split.
  - eexists. eexists. split; [reflexivity|].
    destruct (proj1 (validation_failure_aborts (raiseOnField "email"))
                emailInput None someEvent emailWorld
                (formDataFns.initialState emailInput JsObject.empty)
                _ _ eq_refl eq_refl) as (Hrun & Hemitted & _).
    by split.
  - eexists. eexists.
    eapply (proj1 (proj2 (validation_failure_aborts (raiseOnField "b")))
             threeFields None someEvent
             (emptyWorld (formDataFns.createFormData threeFields))
             [textInput "a" "x"] (textInput "b" "y") [textInput "c" "z"]);
      reflexivity.
Defined.

(** The example of the change trigger, from subscription to dispatch: one
    control [email] subscribed with no options; after the user typed an
    address, dispatching the change event stores the address, marks the
    field dirty and publishes exactly one [change] event. *)
Lemma change_example_dispatch validate valid errs :
  validate (textInput "email" "a@b.com")
    [("email", set_value (VString "a@b.com")
                 (formDataFns.initialState emailInput JsObject.empty))]
    None = Validated valid errs ->
  exists s',
    JsObject.get "email" (formData (world (dispatchEvent validate 0 "change" emailTyped))) =
      Some s' /\
    value s' = VString "a@b.com" /\
    isDirty s' = true /\
    emitted (world (dispatchEvent validate 0 "change" emailTyped)) =
      [("change", FieldPayload s')].
Proof.
  intros Hv.
  assert (Hrun : world (dispatchEvent validate 0 "change" emailTyped) =
                 after (eventHandlingFns.onChange validate
                          (textInput "email" "a@b.com") None
                          {| target := textInput "email" "a@b.com" |}
                          emailWorld)) by reflexivity.
  assert (Hafter :
    after (eventHandlingFns.onChange validate (textInput "email" "a@b.com") None
             {| target := textInput "email" "a@b.com" |} emailWorld) =
    {| formData :=
         [("email",
           set_isDirty true
             (set_validity valid errs
                (set_value (VString "a@b.com")
                   (formDataFns.initialState emailInput JsObject.empty))))];
       calls :=
         [ApplyFieldValidation (textInput "email" "a@b.com") None;
          Emit "change"
            (FieldPayload
               (set_isDirty true
                  (set_validity valid errs
                     (set_value (VString "a@b.com")
                        (formDataFns.initialState emailInput JsObject.empty)))))] |}).
  { unfold emailWorld, emptyWorld.
    rewrite (onChange_run validate (textInput "email" "a@b.com") None
               {| target := textInput "email" "a@b.com" |}
               (formDataFns.createFormData [emailInput]) []
               (formDataFns.initialState emailInput JsObject.empty) eq_refl).
    cbv zeta. change (JsObject.replace _ _ _) with
      [("email", set_value (VString "a@b.com")
                   (formDataFns.initialState emailInput JsObject.empty))] at 1.
    by rewrite Hv. }
  rewrite Hrun, Hafter. eexists. by split_and!.
Qed.

(** C10 fails on a radio group: the handles are kept by name, so those of
    the first button are lost when the second is subscribed, and
    unsubscribing leaves the three listeners of the first button in place;
    a change event on it still writes the field. *)
Lemma unsubscribe_leaves_radio_listeners :
  map fst (listenersOf (snd radioSubscribed) 0) = ["change"; "focus"; "blur"] /\
  listenersOf radioUnsubscribed 0 = listenersOf (snd radioSubscribed) 0 /\
  listenersOf radioUnsubscribed 1 = [] /\
  option_map value
    (JsObject.get "plan" (formData (world radioUnsubscribed))) =
    Some (VString "") /\
  forall validate,
    option_map value
      (JsObject.get "plan"
         (formData (world (dispatchEvent validate 0 "change"
                             (userSetsValue 0 "team" radioUnsubscribed))))) =
    Some (VString "team").
Proof.
  split_and!; try by vm_compute.
  intros validate.
  assert (Hrun : world (dispatchEvent validate 0 "change"
                          (userSetsValue 0 "team" radioUnsubscribed)) =
                 after (eventHandlingFns.onChange validate
                          (radioInput "plan" "team" false) None
                          {| target := radioInput "plan" "team" false |}
                          (world radioUnsubscribed))) by reflexivity.
  rewrite Hrun.
  change (world radioUnsubscribed) with
    {| formData := [("plan", formDataFns.initialState
                               (radioInput "plan" "pro" false) JsObject.empty)];
       calls := [] |}.
  rewrite (onChange_run validate (radioInput "plan" "team" false) None
             {| target := radioInput "plan" "team" false |}
             [("plan", formDataFns.initialState
                         (radioInput "plan" "pro" false) JsObject.empty)] []
             (formDataFns.initialState (radioInput "plan" "pro" false)
                JsObject.empty) eq_refl).
  cbv zeta. by destruct (validate _ _ None).
Qed.

(** ** Subscribing and unsubscribing controls with distinct names *)

Section Registration.
Implicit Types (p : Page) (r : nat) (cb : Closure).

Lemma listenersOf_insert p r r' ls :
  default [] (<[r := ls]> (listeners p) !! r') =
  if Nat.eqb r' r then ls else listenersOf p r'.
Proof.
  destruct (Nat.eqb_spec r' r) as [->|Hne].
  - by rewrite lookup_insert_eq.
  - by rewrite lookup_insert_ne.
Qed.

Lemma listenersOf_add p r r' type cb :
  existsb (sameListener type cb) (listenersOf p r) = false ->
  listenersOf (addEventListener r type cb p) r' =
  if Nat.eqb r' r then listenersOf p r ++ [(type, cb)] else listenersOf p r'.
Proof.
  intros Hnew. unfold addEventListener. rewrite Hnew.
  unfold listenersOf at 1. simpl. apply listenersOf_insert.
Qed.

Lemma listenersOf_remove p r r' type cb :
  listenersOf (removeEventListener r type cb p) r' =
  if Nat.eqb r' r
  then List.filter (fun l => negb (sameListener type cb l)) (listenersOf p r)
  else listenersOf p r'.
Proof. unfold removeEventListener, listenersOf at 1. simpl. apply listenersOf_insert. Qed.

Lemma not_registered type cb ls :
  (forall l, In l ls -> identity (snd l) <> identity cb) ->
  existsb (sameListener type cb) ls = false.
Proof.
  intros Hfresh. apply not_true_is_false. intros Hex.
  apply existsb_exists in Hex as (l & Hin & Hsame).
  unfold sameListener in Hsame. apply andb_prop in Hsame as [_ Hid].
  apply Nat.eqb_eq in Hid. by apply (Hfresh l Hin).
Qed.

Lemma filter_keeps type cb ls :
  (forall l, In l ls -> identity (snd l) <> identity cb) ->
  List.filter (fun l => negb (sameListener type cb l)) ls = ls.
Proof.
  intros Hfresh. induction ls as [|l ls IH]; simpl; [done|].
  unfold sameListener at 1.
  destruct (Nat.eqb_spec (identity cb) (identity (snd l))) as [Heq|_].
  - exfalso. apply (Hfresh l); [by left|done].
  - rewrite andb_false_r. simpl. rewrite IH; [done|].
    intros l' Hl'. apply Hfresh. by right.
Qed.

Lemma sameListener_refl type cb : sameListener type cb (type, cb) = true.
Proof. unfold sameListener. simpl. by rewrite String.eqb_refl, Nat.eqb_refl. Qed.

Lemma sameListener_other type cb l :
  identity cb <> identity (snd l) -> sameListener type cb l = false.
Proof.
  intros Hne. unfold sameListener.
  destruct (Nat.eqb_spec (identity cb) (identity (snd l))); [done|].
  apply andb_false_r.
Qed.

(** Removing the three registrations of a subscription from a listener
    list that ends with them gives back the list before them. *)
Lemma remove_registrations o h ls :
  (forall l, In l ls -> identity (snd l) < identity (change h)) ->
  identity (change h) < identity (focus h) ->
  identity (focus h) < identity (blur h) ->
  List.filter (fun l => negb (sameListener Events.blur (blur h) l))
    (List.filter (fun l => negb (sameListener Events.focus (focus h) l))
       (List.filter (fun l => negb (sameListener (selectedEventOf o) (change h) l))
          (ls ++ registrations o h))) = ls.
Proof.
  intros Hold Hcf Hfb. unfold registrations.
  rewrite List.filter_app. simpl.
  rewrite sameListener_refl, ?sameListener_other by (simpl; lia). simpl.
  rewrite (filter_keeps _ (change h) ls)
    by (intros l Hl; specialize (Hold l Hl); lia).
  rewrite List.filter_app. simpl.
  rewrite sameListener_refl, ?sameListener_other by (simpl; lia). simpl.
  rewrite (filter_keeps _ (focus h) ls)
    by (intros l Hl; specialize (Hold l Hl); lia).
  rewrite List.filter_app. simpl.
  rewrite sameListener_refl. simpl.
  rewrite (filter_keeps _ (blur h) ls)
    by (intros l Hl; specialize (Hold l Hl); lia).
  apply app_nil_r.
Qed.

End Registration.

Section SubscribeUnsubscribe.
Variable options : option FormulaValidations.
Implicit Types (p : Page) (r : nat) (fns : ChangeCallbacks).

(** One turn of the subscription loop on a page whose callbacks are all
    known: three new function objects, registered after the listeners the
    control already has. *)
Lemma subscribeStep_spec fns p r :
  closuresKnown p ->
  exists h p',
    eventHandlingFns.subscribeStep options (fns, p) r =
      (<[nameOf p r := h]> fns, p') /\
    freshHandles p h /\
    identity (blur h) < created p' /\
    controls p' = controls p /\
    world p' = world p /\
    (forall r',
       listenersOf p' r' =
       if Nat.eqb r' r
       then listenersOf p r ++ registrations (optionsFor options (nameOf p r)) h
       else listenersOf p r').
Proof.
  intros Hknown. unfold eventHandlingFns.subscribeStep, newClosure. simpl.
  set (o := optionsFor options (Dom.name (controls p r))).
  set (c := {| identity := created p; kind := ChangeHandler;
               capturedInput := r; capturedOptions := o |}).
  set (f := {| identity := S (created p); kind := FocusHandler;
               capturedInput := r; capturedOptions := o |}).
  set (b := {| identity := S (S (created p)); kind := BlurHandler;
               capturedInput := r; capturedOptions := o |}).
  set (p0 := {| controls := controls p; listeners := listeners p;
                created := S (S (S (created p))); world := world p |}).
  set (p1 := addEventListener r (selectedEventOf o) c p0).
  set (p2 := addEventListener r Events.focus f p1).
  set (p3 := addEventListener r Events.blur b p2).
  assert (H0 : forall r', listenersOf p0 r' = listenersOf p r') by done.
  assert (H1 : forall r', listenersOf p1 r' =
            if Nat.eqb r' r then listenersOf p r ++ [(selectedEventOf o, c)]
            else listenersOf p r').
  { intros r'. unfold p1. rewrite listenersOf_add, !H0; [done|].
    apply not_registered. intros l Hl. rewrite H0 in Hl.
    specialize (Hknown r l Hl). simpl. lia. }
  assert (H2 : forall r', listenersOf p2 r' =
            if Nat.eqb r' r
            then listenersOf p r ++ [(selectedEventOf o, c); (Events.focus, f)]
            else listenersOf p r').
  { intros r'. unfold p2. rewrite listenersOf_add, !H1.
    - rewrite Nat.eqb_refl. destruct (Nat.eqb r' r); [|done].
      by rewrite <- app_assoc.
    - apply not_registered. intros l Hl. rewrite H1, Nat.eqb_refl in Hl.
      apply in_app_iff in Hl as [Hl|[<-|[]]].
      + specialize (Hknown r l Hl). simpl. lia.
      + simpl. lia. }
  assert (H3 : forall r', listenersOf p3 r' =
            if Nat.eqb r' r
            then listenersOf p r ++
                 [(selectedEventOf o, c); (Events.focus, f); (Events.blur, b)]
            else listenersOf p r').
  { intros r'. unfold p3. rewrite listenersOf_add, !H2.
    - rewrite Nat.eqb_refl. destruct (Nat.eqb r' r); [|done].
      by rewrite <- app_assoc.
    - apply not_registered. intros l Hl. rewrite H2, Nat.eqb_refl in Hl.
      apply in_app_iff in Hl as [Hl|[<-|[<-|[]]]].
      + specialize (Hknown r l Hl). simpl. lia.
      + simpl. lia.
      + simpl. lia. }
  assert (Hsame : controls p3 = controls p /\ world p3 = world p /\
                  created p3 = S (S (S (created p)))).
  { unfold p3, p2, p1, addEventListener.
    repeat match goal with |- context [if ?x then _ else _] => destruct x end;
      done. }
  destruct Hsame as (Hc & Hw & Hcreated).
  exists {| change := c; focus := f; blur := b |}, p3.
  split; [done|]. split; [unfold freshHandles; simpl; lia|].
  split; [rewrite Hcreated; simpl; lia|]. by split_and!.
Qed.

Lemma subscribeStep_known fns p r :
  closuresKnown p ->
  closuresKnown (snd (eventHandlingFns.subscribeStep options (fns, p) r)) /\
  created p <= created (snd (eventHandlingFns.subscribeStep options (fns, p) r)).
Proof.
  intros Hknown.
  destruct (subscribeStep_spec fns p r Hknown)
    as (h & p' & -> & (Hc & Hf & Hb) & Hlast & _ & _ & Hls).
  simpl. split; [|lia]. intros r' l. rewrite Hls.
  destruct (Nat.eqb r' r).
  - intros [Hl|Hl]%in_app_iff.
    + specialize (Hknown r l Hl). lia.
    + unfold registrations in Hl. destruct Hl as [<-|[<-|[<-|[]]]]; simpl; lia.
  - intros Hl. specialize (Hknown r' l Hl). lia.
Qed.

Lemma subscribe_spec rs fns p :
  closuresKnown p ->
  NoDup (map (nameOf p) rs) ->
  controls (snd (fold_left (eventHandlingFns.subscribeStep options) rs (fns, p))) =
    controls p /\
  world (snd (fold_left (eventHandlingFns.subscribeStep options) rs (fns, p))) =
    world p /\
  (forall r, ~ In r rs ->
     listenersOf (snd (fold_left (eventHandlingFns.subscribeStep options) rs (fns, p))) r =
     listenersOf p r) /\
  (forall k, ~ In k (map (nameOf p) rs) ->
     fst (fold_left (eventHandlingFns.subscribeStep options) rs (fns, p)) !! k =
     fns !! k) /\
  (forall r, In r rs ->
     exists h,
       fst (fold_left (eventHandlingFns.subscribeStep options) rs (fns, p))
         !! nameOf p r = Some h /\
       listenersOf (snd (fold_left (eventHandlingFns.subscribeStep options) rs (fns, p))) r =
         listenersOf p r ++ registrations (optionsFor options (nameOf p r)) h /\
       freshHandles p h).
Proof.
  revert fns p. induction rs as [|r rs IH]; intros fns p Hknown Hnd.
  - by split_and!.
  - change (fold_left (eventHandlingFns.subscribeStep options) (r :: rs) (fns, p))
      with (fold_left (eventHandlingFns.subscribeStep options) rs
              (eventHandlingFns.subscribeStep options (fns, p) r)).
    simpl in Hnd. apply NoDup_cons in Hnd as [Hfresh Hnd].
    rewrite list_elem_of_In in Hfresh.
    destruct (subscribeStep_known fns p r Hknown) as [Hknown' Hcreated].
    destruct (subscribeStep_spec fns p r Hknown)
      as (h & p' & Hstep & Hh & _ & Hc & Hw & Hls).
    rewrite Hstep in *. simpl in Hknown', Hcreated.
    assert (Hnames : forall x, nameOf p' x = nameOf p x)
      by (intros x; unfold nameOf; by rewrite Hc).
    assert (Hmap : map (nameOf p') rs = map (nameOf p) rs)
      by (apply map_ext; intros x; apply Hnames).
    assert (Hr : ~ In r rs).
    { intros Hin. apply Hfresh. by apply in_map. }
    destruct (IH (<[nameOf p r := h]> fns) p' Hknown')
      as (Hc' & Hw' & Hout & Hkeys & Hin); [by rewrite Hmap|].
    split_and!.
    + by rewrite Hc'.
    + by rewrite Hw'.
    + intros r' Hr'. simpl in Hr'. rewrite Hout, Hls by tauto.
      destruct (Nat.eqb_spec r' r); [subst r'; tauto|done].
    + intros k Hk. simpl in Hk. rewrite Hkeys by (rewrite Hmap; tauto).
      apply lookup_insert_ne. intros Heq. apply Hk. by left.
    + intros r' [<-|Hr'].
      * exists h. rewrite Hkeys by (by rewrite Hmap).
        rewrite lookup_insert_eq, Hout, Hls, Nat.eqb_refl by done. done.
      * destruct (Hin r' Hr') as (h' & Hget & Hls' & Hc1 & Hc2 & Hc3).
        exists h'. rewrite <- Hnames. split; [done|]. split.
        -- rewrite Hls', Hls. destruct (Nat.eqb_spec r' r); [congruence|done].
        -- unfold freshHandles. split_and!; [lia|done|done].
Qed.

Lemma unsubscribe_spec rs fns q (before : nat -> list (string * Closure)) :
  NoDup rs ->
  (forall r, In r rs ->
     exists h,
       fns !! nameOf q r = Some h /\
       listenersOf q r =
         before r ++ registrations (optionsFor options (nameOf q r)) h /\
       (forall l, In l (before r) -> identity (snd l) < identity (change h)) /\
       identity (change h) < identity (focus h) /\
       identity (focus h) < identity (blur h)) ->
  exists q',
    eventHandlingFns.unsubscribeFromInputChanges rs fns options q = Return tt q' /\
    controls q' = controls q /\
    world q' = world q /\
    (forall r, In r rs -> listenersOf q' r = before r) /\
    (forall r, ~ In r rs -> listenersOf q' r = listenersOf q r).
Proof.
  revert q. induction rs as [|r rs IH]; intros q Hnd Hsub; simpl.
  - exists q. by split_and!.
  - apply NoDup_cons in Hnd as [Hr Hnd]. rewrite list_elem_of_In in Hr.
    destruct (Hsub r (or_introl eq_refl)) as (h & Hget & Hls & Hold & Hcf & Hfb).
    fold (nameOf q r). rewrite Hget.
    set (q1 := removeEventListener r Events.blur (blur h)
                 (removeEventListener r Events.focus (focus h)
                    (removeEventListener r
                       (selectedEventOf (optionsFor options (nameOf q r)))
                       (change h) q))).
    assert (Hq1 : forall r', listenersOf q1 r' =
              if Nat.eqb r' r then before r else listenersOf q r').
    { intros r'. unfold q1. rewrite !listenersOf_remove, !Nat.eqb_refl.
      destruct (Nat.eqb r' r); [|done].
      rewrite Hls. by apply remove_registrations. }
    destruct (IH q1 Hnd) as (q' & Hrun & Hc & Hw & Hin & Hout).
    { intros r' Hr'. destruct (Hsub r' (or_intror Hr')) as (h' & Hsub').
      exists h'. change (nameOf q1 r') with (nameOf q r'). rewrite Hq1.
      destruct (Nat.eqb_spec r' r); [congruence|done]. }
    exists q'. split; [exact Hrun|]. split; [by rewrite Hc|].
    split; [by rewrite Hw|]. split.
    + intros r' [<-|Hr']; [|by apply Hin].
      by rewrite Hout, Hq1, Nat.eqb_refl.
    + intros r' Hr'. simpl in Hr'. rewrite Hout, Hq1 by tauto.
      destruct (Nat.eqb_spec r' r); [subst r'; tauto|done].
Qed.

(** On controls with distinct names, unsubscribing with the handles and
    options of the subscription removes exactly the listeners that the
    subscription registered. *)
Lemma unsubscribe_after_subscribe p inputs :
  closuresKnown p ->
  NoDup (map (nameOf p) inputs) ->
  exists p2,
    eventHandlingFns.unsubscribeFromInputChanges inputs
      (fst (eventHandlingFns.subscribeToInputChanges inputs options p)) options
      (snd (eventHandlingFns.subscribeToInputChanges inputs options p)) =
      Return tt p2 /\
    controls p2 = controls p /\
    world p2 = world p /\
    forall r, listenersOf p2 r = listenersOf p r.
Proof.
  intros Hknown Hnd. unfold eventHandlingFns.subscribeToInputChanges.
  destruct (subscribe_spec inputs ∅ p Hknown Hnd)
    as (Hc & Hw & Hout & _ & Hin).
  set (res := fold_left (eventHandlingFns.subscribeStep options) inputs (∅, p)) in *.
  assert (Hnames : forall x, nameOf (snd res) x = nameOf p x)
    by (intros x; unfold nameOf; by rewrite Hc).
  destruct (unsubscribe_spec inputs (fst res) (snd res) (listenersOf p))
    as (p2 & Hrun & Hc2 & Hw2 & Hin2 & Hout2).
  { apply NoDup_ListNoDup. apply NoDup_ListNoDup in Hnd.
    by apply NoDup_map_inv in Hnd. }
  { intros r Hr. destruct (Hin r Hr) as (h & Hget & Hls & Hfresh & Hcf & Hfb).
    exists h. rewrite Hnames. split_and!; try done.
    intros l Hl. specialize (Hknown r l Hl). lia. }
  exists p2. split; [exact Hrun|]. split; [by rewrite Hc2|].
  split; [by rewrite Hw2|]. intros r.
  destruct (in_dec Nat.eq_dec r inputs) as [Hr|Hr].
  - by apply Hin2.
  - by rewrite Hout2, Hout.
Qed.

End SubscribeUnsubscribe.

(** A control without listeners is not affected by events. *)
Lemma dispatch_without_listeners validate p r type :
  listenersOf p r = [] -> world (dispatchEvent validate r type p) = world p.
Proof. intros Hnone. unfold dispatchEvent. simpl. by rewrite Hnone. Qed.

(** After subscribing controls with distinct names on a page without
    listeners and unsubscribing them, no event on any control changes the
    world any more. *)
Lemma unsubscribed_controls_are_inert validate options p inputs :
  (forall r, listenersOf p r = []) ->
  NoDup (map (nameOf p) inputs) ->
  exists p2,
    eventHandlingFns.unsubscribeFromInputChanges inputs
      (fst (eventHandlingFns.subscribeToInputChanges inputs options p)) options
      (snd (eventHandlingFns.subscribeToInputChanges inputs options p)) =
      Return tt p2 /\
    forall r type, world (dispatchEvent validate r type p2) = world p.
Proof.
  intros Hnone Hnd.
  destruct (unsubscribe_after_subscribe options p inputs)
    as (p2 & Hrun & _ & Hw & Hls); [|done|].
  { intros r l. by rewrite Hnone. }
  exists p2. split; [done|]. intros r type.
  rewrite dispatch_without_listeners; [done|]. by rewrite Hls.
Qed.

(** * Further properties *)

(** ** Forms with repeated names *)

Section RepeatedNames.
Import formDataFns.

Lemma createFormData_get_Some inputs k :
  In k (map Dom.name inputs) ->
  JsObject.get k (createFormData inputs) <> None.
Proof.
  induction inputs as [|cur inputs IH] using rev_ind; [done|].
  rewrite map_app, in_app_iff. simpl. intros Hin.
  rewrite createFormData_snoc, get_set.
  destruct (String.eqb_spec k (Dom.name cur)) as [->|Hne]; [done|].
  apply IH. destruct Hin as [|[|[]]]; [done|congruence].
Qed.

(** Controls added after do not change the entries of other names. *)
Lemma createFormData_app_other before later k :
  ~ In k (map Dom.name later) ->
  JsObject.get k (createFormData (before ++ later)) =
  JsObject.get k (createFormData before).
Proof.
  induction later as [|cur later IH] using rev_ind.
  - by rewrite app_nil_r.
  - rewrite map_app, in_app_iff. simpl. intros Hn.
    rewrite app_assoc, createFormData_snoc, get_set.
    destruct (String.eqb_spec k (Dom.name cur)) as [->|_]; [tauto|].
    apply IH. tauto.
Qed.

(** X1. Whatever the controls (names may repeat), every entry that
    [createFormData] builds is valid, untouched, unfocused and clean, with
    no errors. *)
Theorem createFormData_pristine inputs k s :
  JsObject.get k (createFormData inputs) = Some s -> pristine s.
Proof.
  revert s. induction inputs as [|cur inputs IH] using rev_ind;
    intros s; [done|].
  rewrite createFormData_snoc, get_set.
  destruct (String.eqb_spec k (Dom.name cur)); [|by apply IH].
  intros [= <-]. by repeat split.
Qed.

Lemma createFormData_pristine_witness :
  JsObject.get "plan" (createFormData planForm) =
    Some (initialState (radioInput "plan" "pro" true) JsObject.empty) /\
  pristine (initialState (radioInput "plan" "pro" true) JsObject.empty).
Proof.
  split; [reflexivity|].
  apply (createFormData_pristine planForm "plan"). reflexivity.
Defined.

(** X2. Whatever the controls, the form state has one entry per distinct
    name: no key twice, the keys are exactly the names of the controls,
    and there are as many entries as distinct names. *)
Theorem createFormData_one_entry_per_name inputs :
  NoDup (JsObject.keys (createFormData inputs)) /\
  (forall k, In k (JsObject.keys (createFormData inputs)) <->
             In k (map Dom.name inputs)) /\
  length (createFormData inputs) = length (remove_dups (map Dom.name inputs)).
Proof.
  assert (Hkeys : forall k, In k (JsObject.keys (createFormData inputs)) <->
                            In k (map Dom.name inputs)).
  { intros k. split; [apply createFormData_keys_names|].
    intros Hin. apply createFormData_get_Some in Hin.
    destruct (JsObject.get k (createFormData inputs)) eqn:Hget; [|done].
    by apply get_Some_keys in Hget. }
  destruct (createFormData_canonical inputs) as [Hnd _].
  split_and!; [done|done|].
  rewrite <- (length_map fst (createFormData inputs)).
  apply Permutation_length, NoDup_Permutation; [done|apply NoDup_remove_dups|].
  intros k. rewrite elem_of_remove_dups, !list_elem_of_In. apply Hkeys.
Qed.

(** X3. A control whose name was already used replaces the entry of that
    name in place: the keys and their order stay as they were. *)
Theorem createFormData_repeated_name_in_place inputs cur :
  In (Dom.name cur) (map Dom.name inputs) ->
  JsObject.keys (createFormData (inputs ++ [cur])) =
  JsObject.keys (createFormData inputs).
Proof.
  intros Hin. apply createFormData_get_Some in Hin.
  rewrite createFormData_snoc. unfold JsObject.set.
  destruct (JsObject.get (Dom.name cur) (createFormData inputs)); [|done].
  apply keys_replace.
Qed.

Lemma createFormData_repeated_name_in_place_witness :
  In (Dom.name (textInput "a" "again")) (map Dom.name threeFields) /\
  JsObject.keys (createFormData (threeFields ++ [textInput "a" "again"])) =
  JsObject.keys (createFormData threeFields).
Proof.
  split; [by left|].
  apply (createFormData_repeated_name_in_place threeFields).
  by left.
Defined.

(** X4. The entry of a name is decided by the last control of that name:
    its input type is that control's, and so is its value unless the
    control is an unchecked radio button. *)
Theorem createFormData_last_control_wins before cur later :
  ~ In (Dom.name cur) (map Dom.name later) ->
  exists s,
    JsObject.get (Dom.name cur) (createFormData (before ++ cur :: later)) =
      Some s /\
    _inputType s = match Dom.class cur with
                   | Dom.HTMLInputElement ty => Some ty
                   | _ => None
                   end /\
    (isRadio cur = false ->
     value s = if isCheckbox cur then VBool (Dom.checked cur)
               else VString (Dom.value cur)) /\
    (isRadio cur = true -> Dom.checked cur = true ->
     value s = VString (Dom.value cur)).
Proof.
  intros Hlater.
  replace (before ++ cur :: later) with ((before ++ [cur]) ++ later)
    by (by rewrite <- app_assoc).
  rewrite createFormData_app_other by done.
  rewrite createFormData_snoc, get_set, String.eqb_refl.
  eexists. split; [done|]. split; [done|].
  simpl. unfold getInputValue. split.
  - by intros ->.
  - by intros -> ->.
Qed.

Lemma createFormData_last_control_wins_witness :
  ~ In (Dom.name (checkboxInput "a" true)) (map Dom.name [textInput "b" "y"]) /\
  exists s,
    JsObject.get "a"
      (createFormData ([textInput "a" "x"] ++ checkboxInput "a" true ::
                       [textInput "b" "y"])) = Some s /\
    _inputType s = Some "checkbox" /\
    value s = VBool true.
Proof.
  assert (Hn : ~ In (Dom.name (checkboxInput "a" true))
                 (map Dom.name [textInput "b" "y"])).
  { intros [H|[]]. discriminate. }
  split; [exact Hn|].
  destruct (createFormData_last_control_wins [textInput "a" "x"]
              (checkboxInput "a" true) [textInput "b" "y"] Hn)
    as (s & Hget & Htype & Hvalue & _).
  exists s. split; [exact Hget|]. split; [exact Htype|].
  by apply Hvalue.
Defined.

Lemma lastChecked_snoc group r :
  lastChecked (group ++ [r]) =
  if Dom.checked r then Some r else lastChecked group.
Proof. unfold lastChecked. by rewrite fold_left_app. Qed.

Lemma filter_named_none n inputs :
  ~ In n (map Dom.name inputs) -> List.filter (named n) inputs = [].
Proof.
  induction inputs as [|c inputs IH]; simpl; [done|].
  intros Hn. unfold named at 1.
  destruct (String.eqb_spec (Dom.name c) n); [tauto|]. apply IH. tauto.
Qed.

(** X5. When all the controls of a name are radio buttons, wherever they
    stand in the form, the value of their field is the value of the last
    checked button, and the empty string when none is checked. *)
Theorem createFormData_radio_group n inputs :
  (forall c, In c inputs -> Dom.name c = n -> isRadio c = true) ->
  In n (map Dom.name inputs) ->
  option_map value (JsObject.get n (createFormData inputs)) =
  Some (groupValue (List.filter (named n) inputs)).
Proof.
  induction inputs as [|c inputs IH] using rev_ind; [done|].
  intros Hradio Hin.
  assert (Hradio' : forall c0, In c0 inputs -> Dom.name c0 = n ->
                               isRadio c0 = true).
  { intros c0 Hc0. apply Hradio. apply in_app_iff. by left. }
  rewrite createFormData_snoc, get_set, List.filter_app. simpl.
  unfold named at 2.
  destruct (String.eqb_spec n (Dom.name c)) as [->|Hne].
  - rewrite String.eqb_refl. simpl. unfold groupValue.
    rewrite lastChecked_snoc. unfold getInputValue.
    rewrite Hradio by (try done; apply in_app_iff; right; by left).
    destruct (Dom.checked c); [done|].
    destruct (in_dec String.string_dec (Dom.name c) (map Dom.name inputs))
      as [Hold|Hnew].
    + specialize (IH Hradio' Hold). rewrite IH. unfold groupValue.
      destruct (lastChecked _) as [r|]; simpl; [|done].
      by destruct (String.eqb_spec (Dom.value r) "") as [->|].
    + rewrite createFormData_get_None by done.
      by rewrite filter_named_none by done.
  - destruct (String.eqb_spec (Dom.name c) n); [congruence|].
    rewrite app_nil_r. apply IH; [done|].
    rewrite map_app, in_app_iff in Hin. destruct Hin as [|[|[]]]; [done|].
    congruence.
Qed.

Lemma createFormData_radio_group_witness :
  (forall c, In c planForm -> Dom.name c = "plan" -> isRadio c = true) /\
  In "plan" (map Dom.name planForm) /\
  option_map value (JsObject.get "plan" (createFormData planForm)) =
  Some (VString "pro").
Proof.
  assert (H1 : forall c, In c planForm -> Dom.name c = "plan" ->
                         isRadio c = true).
  { intros c [<-|[<-|[<-|[<-|[]]]]]; try reflexivity. discriminate. }
  assert (H2 : In "plan" (map Dom.name planForm)) by (by left).
  split; [exact H1|]. split; [exact H2|].
  apply (createFormData_radio_group "plan" planForm H1 H2).
Defined.

End RepeatedNames.

(** ** What the handlers leave alone *)

Section HandlerFrame.
Variable validate : Validator.
Variable I : World -> Prop.
Variable ok : string -> (FieldState -> FieldState) -> Prop.
Hypothesis I_call : forall c, preserves I (call c).
Hypothesis I_write : forall name g, ok name g -> preserves I (writeField name g).

Lemma frame_readField name : preserves I (readField name).
Proof. intros w Hw. unfold readField. by destruct (JsObject.get _ _). Qed.

Lemma frame_publish name event :
  preserves I
    (bind (readField name) (fun field => emit event (FieldPayload field))).
Proof.
  apply preserves_bind; [apply frame_readField|]. intros field. apply I_call.
Qed.

Lemma frame_applyFieldValidation input o :
  (forall valid errs, ok (Dom.name input) (set_validity valid errs)) ->
  preserves I (validationFns.applyFieldValidation validate input o).
Proof.
  intros Hok. unfold validationFns.applyFieldValidation.
  apply preserves_bind; [apply I_call|]. intros _.
  apply preserves_bind; [by intros w|]. intros fd.
  destruct (validate input fd o); [by apply I_write|apply preserves_throw].
Qed.

Lemma frame_invoke i :
  (forall name g, writes i name g -> ok name g) ->
  preserves I (invoke validate i).
Proof.
  intros Hok. destruct i as [input o e|input o e|input o e|inputs o e]; simpl.
  - unfold eventHandlingFns.onFocus.
    apply preserves_bind; [apply I_write, Hok; constructor|]. intros _.
    apply preserves_when, frame_publish.
  - unfold eventHandlingFns.onBlur.
    apply preserves_bind; [apply I_write, Hok; constructor|]. intros _.
    apply preserves_bind; [apply frame_readField|]. intros field.
    apply preserves_bind; [|intros _; apply preserves_when, frame_publish].
    apply preserves_when, preserves_bind.
    + apply I_write, Hok. constructor.
    + intros _. apply preserves_when, frame_applyFieldValidation.
      intros valid errs. apply Hok. constructor.
  - unfold eventHandlingFns.onChange.
    apply preserves_bind; [apply I_write, Hok; constructor|]. intros _.
    apply preserves_bind.
    { apply frame_applyFieldValidation. intros valid errs. apply Hok.
      constructor. }
    intros _. apply preserves_bind; [apply frame_readField|]. intros field.
    apply preserves_bind; [|intros _; apply preserves_when, frame_publish].
    apply preserves_when, I_write, Hok. constructor.
  - unfold eventHandlingFns.onSubmit.
    apply preserves_bind; [apply I_call|]. intros _.
    apply preserves_bind.
    + assert (Hloop : forall xs acc,
                (forall x, In x xs -> In x inputs) ->
                preserves I (forOf xs acc
                               (eventHandlingFns.submitStep validate o))).
      { induction xs as [|x xs IH]; intros acc Hxs; simpl.
        - apply preserves_ret.
        - apply preserves_bind.
          + unfold eventHandlingFns.submitStep.
            apply preserves_bind.
            { apply frame_applyFieldValidation. intros valid errs.
              apply Hok. constructor. apply Hxs. by left. }
            intros _. apply preserves_bind; [apply frame_readField|].
            intros field. apply preserves_ret.
          + intros acc'. apply IH. intros y Hy. apply Hxs. by right. }
      by apply Hloop.
    + intros agg. apply preserves_bind; [by intros w|]. intros fd.
      apply I_call.
Qed.

Lemma frame_deliver invocations :
  Forall (fun i => forall name g, writes i name g -> ok name g) invocations ->
  forall w, I w -> I (deliver validate invocations w).
Proof.
  induction invocations as [|i invocations IH] using rev_ind; intros Hok w Hw;
    [done|].
  apply Forall_app in Hok as [Hok Hi]. apply Forall_inv in Hi.
  rewrite deliver_snoc. apply frame_invoke; [done|]. by apply IH.
Qed.

End HandlerFrame.

Section HandlerFrameProperties.
Variable validate : Validator.

(** X6. No sequence of handler invocations, aborted ones included, adds,
    removes or reorders the entries of the form state. *)
Theorem deliver_keeps_entries invocations w :
  JsObject.keys (formData (deliver validate invocations w)) =
  JsObject.keys (formData w).
Proof.
  apply (frame_deliver validate
           (fun w' => JsObject.keys (formData w') = JsObject.keys (formData w))
           (fun _ _ => True)).
  - by intros c w'.
  - intros name g _ w' Hw'. unfold writeField, JsObject.update.
    destruct (JsObject.get name (formData w')); simpl; [|done].
    by rewrite keys_replace.
  - apply Forall_forall. by intros.
  - done.
Qed.

Lemma deliver_field_frame f (Q : FieldState -> Prop) invocations w :
  Forall (fun i => forall name g, writes i name g -> name = f ->
                                  forall s, Q s -> Q (g s)) invocations ->
  fieldHas f Q w -> fieldHas f Q (deliver validate invocations w).
Proof.
  intros Hok. apply (frame_deliver validate (fieldHas f Q)
                       (fun name g => name = f -> forall s, Q s -> Q (g s))).
  - apply preserves_call.
  - intros name g Hg. by apply preserves_writeField.
  - done.
Qed.

(** X7. A sequence of invocations none of which is a handler of field [f]
    or a submit over a control of [f] leaves the entry of [f] exactly as it
    was (and leaves it absent if it was absent). *)
Theorem deliver_other_fields f invocations w :
  Forall (fun i => ~ concerns f i) invocations ->
  JsObject.get f (formData (deliver validate invocations w)) =
  JsObject.get f (formData w).
Proof.
  intros Hother. destruct (JsObject.get f (formData w)) as [s|] eqn:Hs.
  - destruct (deliver_field_frame f (fun s' => s' = s) invocations w)
      as (s' & Hget & ->); [|by exists s|done].
    eapply Forall_impl; [exact Hother|]. intros i Hi name g Hw Hname.
    exfalso. apply Hi. destruct Hw; simpl; try done.
    rewrite <- Hname. by apply in_map.
  - apply get_None_keys. rewrite deliver_keeps_entries.
    by apply get_None_keys.
Qed.

(** X8. Along every sequence of handler invocations the input type of a
    field never changes; its value and [isDirty] change only in a change
    handler of that field; its [isTouched] changes only in a blur handler
    of that field. In particular a submit marks no field dirty or
    touched. *)
Theorem fields_written_by_own_handlers f invocations w s :
  JsObject.get f (formData w) = Some s ->
  exists s',
    JsObject.get f (formData (deliver validate invocations w)) = Some s' /\
    _inputType s' = _inputType s /\
    (Forall (fun i => ~ isChangeOf f i) invocations ->
     value s' = value s /\ isDirty s' = isDirty s) /\
    (Forall (fun i => ~ isBlurOf f i) invocations ->
     isTouched s' = isTouched s).
Proof.
  intros Hs.
  destruct (deliver_field_frame f (fun s' => _inputType s' = _inputType s)
              invocations w) as (s' & Hget & Htype); [|by exists s|].
  { apply Forall_forall. intros i _ name g Hw _ s0 Hs0. by destruct Hw. }
  exists s'. split; [done|]. split; [done|]. split.
  - intros Hno.
    destruct (deliver_field_frame f
                (fun s0 => value s0 = value s /\ isDirty s0 = isDirty s)
                invocations w) as (s2 & Hget2 & Hkeep); [|by exists s|].
    + eapply Forall_impl; [exact Hno|]. intros i Hi name g Hw Hname s0 Hs0.
      destruct Hw; simpl in *; try done.
    + congruence.
  - intros Hno.
    destruct (deliver_field_frame f (fun s0 => isTouched s0 = isTouched s)
                invocations w) as (s2 & Hget2 & Hkeep); [|by exists s|].
    + eapply Forall_impl; [exact Hno|]. intros i Hi name g Hw Hname s0 Hs0.
      destruct Hw; simpl in *; try done.
    + congruence.
Qed.

End HandlerFrameProperties.

Lemma deliver_other_fields_witness :
  Forall (fun i => ~ concerns "b" i) sessionAroundB /\
  JsObject.get "b"
    (formData (deliver requireValue sessionAroundB
                 (emptyWorld (formDataFns.createFormData threeFields)))) =
  JsObject.get "b"
    (formData (emptyWorld (formDataFns.createFormData threeFields))).
Proof.
  assert (H : Forall (fun i => ~ concerns "b" i) sessionAroundB).
  { repeat constructor; simpl; try discriminate.
    intros [?|[?|[]]]; discriminate. }
  split; [exact H|].
  apply (deliver_other_fields requireValue "b" sessionAroundB
           (emptyWorld (formDataFns.createFormData threeFields)) H).
Defined.

Lemma fields_written_by_own_handlers_witness :
  JsObject.get "email" (formData emailWorld) =
    Some (formDataFns.initialState emailInput JsObject.empty) /\
  exists s',
    JsObject.get "email"
      (formData (deliver requireValue
                   [Focus emailInput None someEvent;
                    Submit [emailInput] None someEvent] emailWorld)) = Some s' /\
    value s' = VString "" /\ isDirty s' = false /\ isTouched s' = false.
Proof.
  split; [reflexivity|].
  destruct (fields_written_by_own_handlers requireValue "email"
              [Focus emailInput None someEvent;
               Submit [emailInput] None someEvent] emailWorld
              (formDataFns.initialState emailInput JsObject.empty) eq_refl)
    as (s' & Hget & _ & Hchange & Hblur).
  exists s'. split; [exact Hget|].
  destruct Hchange as [Hv Hd].
  { constructor; [simpl; tauto|]. constructor; [simpl; tauto|]. constructor. }
  split; [exact Hv|]. split; [exact Hd|].
  apply Hblur.
  constructor; [simpl; tauto|]. constructor; [simpl; tauto|]. constructor.
Defined.

(** ** Repeated events *)

Section RepeatedEvents.
Variable validate : Validator.

(** X9. On a present field the focus handler always returns and assigns
    [isFocused] only; a second focus event leaves the form state as the
    first left it. *)
Theorem onFocus_idempotent input o e w s :
  JsObject.get (Dom.name input) (formData w) = Some s ->
  returns (eventHandlingFns.onFocus input o e w) = true /\
  JsObject.get (Dom.name input)
    (formData (after (eventHandlingFns.onFocus input o e w))) =
    Some (set_isFocused true s) /\
  formData (after (eventHandlingFns.onFocus input o e
                     (after (eventHandlingFns.onFocus input o e w)))) =
  formData (after (eventHandlingFns.onFocus input o e w)).
Proof.
  destruct w as [fd cs]. simpl. intros Hs.
  pose proof (fun x => get_replaced (Dom.name input) x fd s Hs) as Hget.
  rewrite (onFocus_run _ _ _ _ _ _ Hs). simpl.
  split; [done|]. split; [apply Hget|].
  rewrite (onFocus_run _ _ _ _ _ _ (Hget _)). simpl.
  apply replace_replace.
Qed.

(** X10. However a blur of a present field ends, a second blur of that
    field returns, invokes no validation and leaves the form state as the
    first left it. *)
Theorem onBlur_idempotent input o e e' w s :
  JsObject.get (Dom.name input) (formData w) = Some s ->
  returns (eventHandlingFns.onBlur validate input o e'
             (after (eventHandlingFns.onBlur validate input o e w))) = true /\
  validations (after (eventHandlingFns.onBlur validate input o e'
                        (after (eventHandlingFns.onBlur validate input o e w)))) =
    validations (after (eventHandlingFns.onBlur validate input o e w)) /\
  formData (after (eventHandlingFns.onBlur validate input o e'
                     (after (eventHandlingFns.onBlur validate input o e w)))) =
  formData (after (eventHandlingFns.onBlur validate input o e w)).
Proof.
  destruct w as [fd cs]. simpl. intros Hs.
  pose proof (fun x => get_replaced (Dom.name input) x fd s Hs) as Hget.
  assert (Hsecond : forall s1 cs1,
            isTouched s1 = true -> set_isFocused false s1 = s1 ->
            let w1 := {| formData := JsObject.replace (Dom.name input) s1 fd;
                         calls := cs1 |} in
            returns (eventHandlingFns.onBlur validate input o e' w1) = true /\
            validations (after (eventHandlingFns.onBlur validate input o e' w1)) =
              validations w1 /\
            formData (after (eventHandlingFns.onBlur validate input o e' w1)) =
              formData w1).
  { intros s1 cs1 Ht Hf. cbv zeta.
    rewrite (onBlur_run validate _ _ _ _ _ _ (Hget s1)). cbv zeta.
    rewrite Ht. simpl. split; [done|]. split.
    - rewrite (validations_publication _ fd). done.
    - by rewrite replace_replace, Hf. }
  rewrite (onBlur_run validate _ _ _ _ _ _ Hs). cbv zeta.
  destruct (isTouched s) eqn:Ht.
  - apply Hsecond; [done|]. unfold set_isFocused. simpl. done.
  - destruct (validateDirtyOnlyIsFalse o).
    + destruct (validate input _ o) as [valid errs|ex]; by apply Hsecond.
    + by apply Hsecond.
Qed.

(** X11. A submit over no control returns, leaves the form state as it is
    and publishes one submit event that reports the form valid. *)
Theorem onSubmit_no_controls options e w :
  eventHandlingFns.onSubmit validate [] options e w =
  Return tt
    {| formData := formData w;
       calls := calls w ++
                [PreventDefault;
                 Emit Events.submit (SubmitPayload (formData w) true)] |}.
Proof.
  unfold eventHandlingFns.onSubmit, bind, preventDefault, emit, call. simpl.
  by rewrite <- app_assoc.
Qed.

End RepeatedEvents.

Lemma onFocus_idempotent_witness :
  JsObject.get (Dom.name emailInput) (formData emailWorld) =
    Some (formDataFns.initialState emailInput JsObject.empty) /\
  formData (after (eventHandlingFns.onFocus emailInput None someEvent
                     (after (eventHandlingFns.onFocus emailInput None someEvent
                               emailWorld)))) =
  formData (after (eventHandlingFns.onFocus emailInput None someEvent emailWorld)).
Proof.
  split; [reflexivity|].
  apply (onFocus_idempotent emailInput None someEvent emailWorld
           (formDataFns.initialState emailInput JsObject.empty) eq_refl).
Defined.

Lemma onBlur_idempotent_witness :
  JsObject.get (Dom.name emailInput) (formData emailWorld) =
    Some (formDataFns.initialState emailInput JsObject.empty) /\
  formData (after (eventHandlingFns.onBlur (raiseOnField "email") emailInput
                     (Some validateEvenWhenClean) someEvent
                     (after (eventHandlingFns.onBlur (raiseOnField "email")
                               emailInput (Some validateEvenWhenClean)
                               someEvent emailWorld)))) =
  formData (after (eventHandlingFns.onBlur (raiseOnField "email") emailInput
                     (Some validateEvenWhenClean) someEvent emailWorld)).
Proof.
  split; [reflexivity|].
  apply (onBlur_idempotent (raiseOnField "email") emailInput
           (Some validateEvenWhenClean) someEvent someEvent emailWorld
           (formDataFns.initialState emailInput JsObject.empty) eq_refl).
Defined.

(** ** Subscriptions, whatever the names *)

Section Subscriptions.
Variable options : option FormulaValidations.
Implicit Types (p : Page) (r : nat) (fns : gmap string Handles).

Lemma addEventListener_keeps input type cb p :
  controls (addEventListener input type cb p) = controls p /\
  world (addEventListener input type cb p) = world p /\
  created (addEventListener input type cb p) = created p.
Proof. unfold addEventListener. by destruct (existsb _ _). Qed.

(** One turn of the subscription loop registers the three handles it
    creates. *)
Lemma subscribeStep_unfold fns p r :
  eventHandlingFns.subscribeStep options (fns, p) r =
  let o := optionsFor options (nameOf p r) in
  let h := handlesAt (created p) r o in
  (<[nameOf p r := h]> fns,
   addEventListener r Events.blur (blur h)
     (addEventListener r Events.focus (focus h)
        (addEventListener r (selectedEventOf o) (change h)
           {| controls := controls p; listeners := listeners p;
              created := S (S (S (created p))); world := world p |}))).
Proof. reflexivity. Qed.

(** One turn of the subscription loop, on any page. *)
Lemma subscribeStep_shape fns p r :
  fst (eventHandlingFns.subscribeStep options (fns, p) r) =
    <[nameOf p r :=
        handlesAt (created p) r (optionsFor options (nameOf p r))]> fns /\
  controls (snd (eventHandlingFns.subscribeStep options (fns, p) r)) =
    controls p /\
  world (snd (eventHandlingFns.subscribeStep options (fns, p) r)) = world p /\
  created (snd (eventHandlingFns.subscribeStep options (fns, p) r)) =
    created p + 3.
Proof.
  rewrite subscribeStep_unfold. cbv zeta. cbn [fst snd].
  split; [done|].
  repeat match goal with
  | |- context [addEventListener ?i ?t ?c ?q] =>
      destruct (addEventListener_keeps i t c q) as (-> & -> & ->)
  end.
  simpl. split_and!; [done|done|lia].
Qed.

Lemma subscribe_shape rs fns p :
  controls (snd (fold_left (eventHandlingFns.subscribeStep options) rs (fns, p))) =
    controls p /\
  world (snd (fold_left (eventHandlingFns.subscribeStep options) rs (fns, p))) =
    world p /\
  created (snd (fold_left (eventHandlingFns.subscribeStep options) rs (fns, p))) =
    created p + 3 * length rs /\
  (forall k, ~ In k (map (nameOf p) rs) ->
     fst (fold_left (eventHandlingFns.subscribeStep options) rs (fns, p)) !! k =
     fns !! k) /\
  (forall k, In k (map (nameOf p) rs) ->
     exists r h,
       In r rs /\ nameOf p r = k /\
       handlesOf r (optionsFor options k) h /\
       fst (fold_left (eventHandlingFns.subscribeStep options) rs (fns, p)) !! k =
       Some h).
Proof.
  revert fns p. induction rs as [|r rs IH]; intros fns p.
  - simpl. split_and!; try done; try lia.
  - change (fold_left (eventHandlingFns.subscribeStep options) (r :: rs) (fns, p))
      with (fold_left (eventHandlingFns.subscribeStep options) rs
              (eventHandlingFns.subscribeStep options (fns, p) r)).
    destruct (subscribeStep_shape fns p r) as (Hfns & Hc & Hw & Hn).
    destruct (eventHandlingFns.subscribeStep options (fns, p) r) as [fns' p'].
    simpl in Hfns, Hc, Hw, Hn. subst fns'.
    assert (Hmap : map (nameOf p') rs = map (nameOf p) rs).
    { apply map_ext. intros x. unfold nameOf. by rewrite Hc. }
    destruct (IH (<[nameOf p r :=
                     handlesAt (created p) r (optionsFor options (nameOf p r))]>
                  fns) p') as (Hc' & Hw' & Hn' & Hout & Hin).
    rewrite Hmap in Hout, Hin. split_and!.
    + by rewrite Hc'.
    + by rewrite Hw'.
    + rewrite Hn', Hn. simpl. lia.
    + intros k Hk. simpl in Hk. rewrite Hout by tauto.
      apply lookup_insert_ne. tauto.
    + intros k Hk.
      destruct (in_dec String.string_dec k (map (nameOf p) rs)) as [Hlater|Hno].
      * destruct (Hin k Hlater) as (r' & h & Hr' & Hname & Hh & Hget).
        exists r', h. split_and!; try done; [by right|].
        unfold nameOf in *. by rewrite <- Hc.
      * exists r, (handlesAt (created p) r (optionsFor options (nameOf p r))).
        simpl in Hk. destruct Hk as [Hk|Hk]; [|done]. subst k.
        split_and!; [by left|done|by eexists|].
        rewrite Hout by done. apply lookup_insert_eq.
Qed.


End Subscriptions.

Section SubscribedPages.
Variable options : option FormulaValidations.
Implicit Types (p : Page) (r : nat).

Lemma NoDup_map_injective {A B} (f : A -> B) (l : list A) x y :
  NoDup (map f l) -> In x l -> In y l -> f x = f y -> x = y.
Proof.
  induction l as [|a l IH]; simpl; [done|].
  intros [Hfresh Hnd]%NoDup_cons [<-|Hx] [<-|Hy] Heq; try done.
  - exfalso. apply Hfresh. rewrite Heq. apply list_elem_of_In. by apply in_map.
  - exfalso. apply Hfresh. rewrite <- Heq. apply list_elem_of_In.
    by apply in_map.
  - by apply IH.
Qed.

(** X13. On a page whose callbacks are all known, subscribing adds to each
    control, after the listeners it has, the three types change trigger,
    focus, blur once per occurrence of the control in the list: nothing is
    ever merged, so subscribing twice registers every handler twice. *)
Theorem subscribe_registers_three inputs p :
  closuresKnown p ->
  closuresKnown (snd (eventHandlingFns.subscribeToInputChanges inputs options p)) /\
  forall r,
    map fst (listenersOf
               (snd (eventHandlingFns.subscribeToInputChanges inputs options p)) r) =
    map fst (listenersOf p r) ++
    registeredTypes (optionsFor options (nameOf p r))
      (count_occ Nat.eq_dec inputs r).
Proof.
  unfold eventHandlingFns.subscribeToInputChanges. generalize (∅ : gmap string Handles).
  revert p. induction inputs as [|r0 rs IH]; intros p fns Hknown.
  - simpl. split; [done|]. intros r. by rewrite app_nil_r.
  - change (fold_left (eventHandlingFns.subscribeStep options) (r0 :: rs) (fns, p))
      with (fold_left (eventHandlingFns.subscribeStep options) rs
              (eventHandlingFns.subscribeStep options (fns, p) r0)).
    destruct (subscribeStep_known options fns p r0 Hknown) as [Hknown' _].
    destruct (subscribeStep_spec options fns p r0 Hknown)
      as (h & p' & Hstep & _ & _ & Hc & _ & Hls).
    rewrite Hstep in *. simpl in Hknown'.
    destruct (IH p' (<[nameOf p r0 := h]> fns) Hknown') as [Hk Hall].
    split; [exact Hk|]. intros r. rewrite Hall, Hls.
    assert (Hname : nameOf p' r = nameOf p r)
      by (unfold nameOf; by rewrite Hc).
    rewrite Hname. simpl count_occ.
    destruct (Nat.eq_dec r0 r) as [->|Hne].
    + rewrite Nat.eqb_refl, map_app. unfold registeredTypes. simpl.
      by rewrite <- app_assoc.
    + destruct (Nat.eqb_spec r r0); [congruence|done].
Qed.

Section Dispatching.
Variable validate : Validator.

(** X14. After subscribing controls with distinct names, an event on a
    subscribed control that had no listener runs the handlers registered
    for its type in the order change, focus, blur, on the control as it
    then reads: the change handler when the type is the resolved change
    trigger, the focus handler for focus, the blur handler for blur. When
    [validateOn] names focus or blur, that event therefore runs the change
    handler first and then the focus or blur handler. *)
Theorem dispatch_after_subscribe inputs p r type :
  closuresKnown p ->
  NoDup (map (nameOf p) inputs) ->
  In r inputs ->
  listenersOf p r = [] ->
  world (dispatchEvent validate r type
           (snd (eventHandlingFns.subscribeToInputChanges inputs options p))) =
  deliver validate
    (handlersDue (controls p r) (optionsFor options (nameOf p r)) type)
    (world p).
Proof.
  intros Hknown Hnd Hr Hnone.
  unfold eventHandlingFns.subscribeToInputChanges.
  destruct (subscribe_spec options inputs ∅ p Hknown Hnd)
    as (Hc & Hw & _ & _ & Hin).
  destruct (subscribe_shape options inputs ∅ p) as (_ & _ & _ & _ & Hshape).
  destruct (Hin r Hr) as (h & Hget & Hls & _).
  destruct (Hshape (nameOf p r)) as (r' & h' & Hr' & Hname & [n ->] & Hget');
    [by apply in_map|].
  assert (r' = r) as -> by (by apply (NoDup_map_injective (nameOf p) inputs)).
  rewrite Hget in Hget'. injection Hget' as ->.
  set (p1 := snd (fold_left (eventHandlingFns.subscribeStep options) inputs (∅, p)))
    in *.
  unfold dispatchEvent. cbn [world]. rewrite Hls, Hnone, Hw, Hc.
  unfold registrations, handlersDue, callClosure. simpl.
  rewrite Hc.
  destruct (String.eqb type (selectedEventOf (optionsFor options (nameOf p r))));
    destruct (String.eqb type Events.focus);
    destruct (String.eqb type Events.blur); reflexivity.
Qed.

End Dispatching.
End SubscribedPages.

Lemma subscribe_registers_three_witness :
  closuresKnown threeFieldsPage /\
  map fst (listenersOf
             (snd (eventHandlingFns.subscribeToInputChanges [0; 1; 0] None
                     threeFieldsPage)) 0) =
  ["change"; "focus"; "blur"; "change"; "focus"; "blur"].
Proof.
  assert (H : closuresKnown threeFieldsPage) by (by intros r l).
  split; [exact H|].
  apply (proj2 (subscribe_registers_three None [0; 1; 0] threeFieldsPage H) 0).
Defined.

Lemma dispatch_after_subscribe_witness :
  closuresKnown (pageOf [emailInput]) /\
  NoDup (map (nameOf (pageOf [emailInput])) [0]) /\
  In 0 [0] /\
  listenersOf (pageOf [emailInput]) 0 = [] /\
  world (dispatchEvent acceptAll 0 "blur"
           (snd (eventHandlingFns.subscribeToInputChanges [0]
                   (Some {[ "email" := validateOnBlur ]}) (pageOf [emailInput])))) =
  deliver acceptAll
    [Change emailInput (Some validateOnBlur) {| target := emailInput |};
     Blur emailInput (Some validateOnBlur) {| target := emailInput |}]
    (world (pageOf [emailInput])).
Proof.
  assert (H1 : closuresKnown (pageOf [emailInput])) by (by intros r l).
  assert (H2 : NoDup (map (nameOf (pageOf [emailInput])) [0]))
    by apply NoDup_singleton.
  assert (H3 : In 0 [0]) by (by left).
  split; [exact H1|]. split; [exact H2|]. split; [exact H3|].
  split; [reflexivity|].
  refine (eq_trans
            (dispatch_after_subscribe (Some {[ "email" := validateOnBlur ]})
               acceptAll [0] (pageOf [emailInput]) 0 "blur" H1 H2 H3 eq_refl) _).
  vm_compute. reflexivity.
Defined.


(** ** Unsubscribing in general *)

Section Unsubscribing.
Variable options : option FormulaValidations.
Implicit Types (p q : Page) (r : nat) (fns : gmap string Handles).

Lemma filter3_idempotent {A} (f g k : A -> bool) (l : list A) :
  List.filter k (List.filter g (List.filter f
    (List.filter k (List.filter g (List.filter f l))))) =
  List.filter k (List.filter g (List.filter f l)).
Proof.
  induction l as [|a l IH]; simpl; [done|].
  destruct (f a) eqn:Hf; simpl; [|done].
  destruct (g a) eqn:Hg; simpl; [|done].
  destruct (k a) eqn:Hk; simpl; [|done].
  repeat (rewrite ?Hf, ?Hg, ?Hk; simpl). by rewrite IH.
Qed.

Lemma withoutHandles_idempotent type h ls :
  withoutHandles type h (withoutHandles type h ls) = withoutHandles type h ls.
Proof. apply filter3_idempotent. Qed.

(** What the loop of [unsubscribeFromInputChanges] does when every listed
    control has handles under its name. *)
Lemma unsubscribe_run rs fns q :
  (forall r, In r rs -> fns !! nameOf q r <> None) ->
  exists q',
    eventHandlingFns.unsubscribeFromInputChanges rs fns options q = Return tt q' /\
    controls q' = controls q /\
    world q' = world q /\
    created q' = created q /\
    forall r,
      listenersOf q' r =
      match fns !! nameOf q r with
      | Some h =>
          if existsb (Nat.eqb r) rs
          then withoutHandles (selectedEventOf (optionsFor options (nameOf q r))) h
                 (listenersOf q r)
          else listenersOf q r
      | None => listenersOf q r
      end.
Proof.
  revert q. induction rs as [|r0 rs IH]; intros q Hhas.
  - exists q. simpl. split_and!; try done. intros r. by destruct (fns !! nameOf q r).
  - simpl. fold (nameOf q r0).
    destruct (fns !! nameOf q r0) as [h0|] eqn:Hget;
      [|by destruct (Hhas r0 (or_introl eq_refl))].
    set (q1 := removeEventListener r0 Events.blur (blur h0)
                 (removeEventListener r0 Events.focus (focus h0)
                    (removeEventListener r0
                       (selectedEventOf (optionsFor options (nameOf q r0)))
                       (change h0) q))).
    assert (Hq1 : forall r, listenersOf q1 r =
              if Nat.eqb r r0
              then withoutHandles (selectedEventOf (optionsFor options (nameOf q r0)))
                     h0 (listenersOf q r0)
              else listenersOf q r).
    { intros r. unfold q1. rewrite !listenersOf_remove, !Nat.eqb_refl.
      by destruct (Nat.eqb r r0). }
    destruct (IH q1) as (q' & Hrun & Hc & Hw & Hn & Hls).
    { intros r Hr. change (nameOf q1 r) with (nameOf q r). apply Hhas. by right. }
    exists q'. split; [exact Hrun|]. split; [by rewrite Hc|].
    split; [by rewrite Hw|]. split; [by rewrite Hn|].
    intros r. rewrite Hls. change (nameOf q1 r) with (nameOf q r).
    rewrite Hq1. destruct (Nat.eqb_spec r r0) as [->|Hne].
    + rewrite Hget. simpl.
      destruct (existsb (Nat.eqb r0) rs); [|done].
      apply withoutHandles_idempotent.
    + by destruct (fns !! nameOf q r).
Qed.

Lemma unsubscribe_returns rs fns q q' :
  eventHandlingFns.unsubscribeFromInputChanges rs fns options q = Return tt q' ->
  forall r, In r rs -> fns !! nameOf q r <> None.
Proof.
  revert q. induction rs as [|r0 rs IH]; intros q Hrun r Hr; [done|].
  simpl in Hrun. fold (nameOf q r0) in Hrun.
  destruct (fns !! nameOf q r0) as [h0|] eqn:Hget; [|done].
  destruct Hr as [<-|Hr]; [by rewrite Hget|].
  apply (IH _ Hrun r Hr).
Qed.

(** X16. Unsubscribing a second time with the same arguments changes
    nothing: it returns again, and every control keeps the listeners, and
    the page the world and the controls, that the first run left. *)
Theorem unsubscribe_idempotent inputs fns p p1 :
  eventHandlingFns.unsubscribeFromInputChanges inputs fns options p = Return tt p1 ->
  exists p2,
    eventHandlingFns.unsubscribeFromInputChanges inputs fns options p1 = Return tt p2 /\
    controls p2 = controls p1 /\
    world p2 = world p1 /\
    forall r, listenersOf p2 r = listenersOf p1 r.
Proof.
  intros Hrun. pose proof (unsubscribe_returns _ _ _ _ Hrun) as Hhas.
  destruct (unsubscribe_run inputs fns p Hhas) as (q1 & Hrun1 & Hc1 & _ & _ & Hls1).
  rewrite Hrun in Hrun1. injection Hrun1 as <-.
  assert (Hnames : forall r, nameOf p1 r = nameOf p r)
    by (intros r; unfold nameOf; by rewrite Hc1).
  destruct (unsubscribe_run inputs fns p1) as (p2 & Hrun2 & Hc2 & Hw2 & _ & Hls2).
  { intros r Hr. rewrite Hnames. by apply Hhas. }
  exists p2. split; [exact Hrun2|]. split; [exact Hc2|]. split; [exact Hw2|].
  intros r. rewrite Hls2, Hnames, Hls1.
  destruct (fns !! nameOf p r); [|done].
  destruct (existsb (Nat.eqb r) inputs); [|done].
  apply withoutHandles_idempotent.
Qed.

Lemma sameListener_other_type type type' cb cb' :
  type <> type' -> sameListener type cb (type', cb') = false.
Proof.
  intros Hne. unfold sameListener. simpl.
  by apply String.eqb_neq in Hne as ->.
Qed.

(** Removing the handles of a subscription with another change trigger
    than the one they were registered with leaves the change listener. *)
Lemma withoutHandles_other_trigger type o h :
  type <> selectedEventOf o ->
  identity (change h) < identity (focus h) < identity (blur h) ->
  withoutHandles type h (registrations o h) = [(selectedEventOf o, change h)].
Proof.
  intros Hne [Hcf Hfb]. unfold withoutHandles, registrations. simpl.
  rewrite (sameListener_other_type _ _ _ _ Hne).
  rewrite ?sameListener_other by (simpl; lia). simpl.
  rewrite sameListener_refl, ?sameListener_other by (simpl; lia). simpl.
  rewrite sameListener_refl, ?sameListener_other by (simpl; lia). simpl.
  done.
Qed.

Section OtherTrigger.
Variable validate : Validator.
Variable options' : option FormulaValidations.

(** X17. The change handle is removed from the event type that the options
    given to [unsubscribeFromInputChanges] resolve to. When those options
    resolve, for a subscribed control, to another change trigger than the
    options of the subscription did, unsubscribing returns normally but
    leaves the change listener attached: an event of the subscription's
    trigger type still runs [onChange] on the control, and no other event
    does anything. *)
Theorem unsubscribe_with_other_trigger inputs p r type :
  closuresKnown p ->
  NoDup (map (nameOf p) inputs) ->
  In r inputs ->
  listenersOf p r = [] ->
  selectedEventOf (optionsFor options (nameOf p r)) <>
    selectedEventOf (optionsFor options' (nameOf p r)) ->
  exists p2,
    eventHandlingFns.unsubscribeFromInputChanges inputs
      (fst (eventHandlingFns.subscribeToInputChanges inputs options' p)) options
      (snd (eventHandlingFns.subscribeToInputChanges inputs options' p)) =
      Return tt p2 /\
    world (dispatchEvent validate r type p2) =
    deliver validate
      (if String.eqb type (selectedEventOf (optionsFor options' (nameOf p r)))
       then [Change (controls p r) (optionsFor options' (nameOf p r))
               {| target := controls p r |}]
       else [])
      (world p).
Proof.
  intros Hknown Hnd Hr Hnone Hdiff.
  unfold eventHandlingFns.subscribeToInputChanges.
  destruct (subscribe_spec options' inputs ∅ p Hknown Hnd)
    as (Hc & Hw & _ & _ & Hin).
  destruct (subscribe_shape options' inputs ∅ p) as (_ & _ & _ & _ & Hshape).
  set (res := fold_left (eventHandlingFns.subscribeStep options') inputs (∅, p)) in *.
  assert (Hnames : forall x, nameOf (snd res) x = nameOf p x)
    by (intros x; unfold nameOf; by rewrite Hc).
  destruct (unsubscribe_run inputs (fst res) (snd res))
    as (p2 & Hrun & Hc2 & Hw2 & _ & Hls2).
  { intros x Hx. rewrite Hnames. destruct (Hin x Hx) as (h & -> & _). done. }
  exists p2. split; [exact Hrun|].
  destruct (Hin r Hr) as (h & Hget & Hls & _).
  destruct (Hshape (nameOf p r)) as (r' & h' & Hr' & Hname & [n ->] & Hget');
    [by apply in_map|].
  assert (r' = r) as -> by (by apply (NoDup_map_injective (nameOf p) inputs)).
  rewrite Hget in Hget'. injection Hget' as ->.
  assert (Hmem : existsb (Nat.eqb r) inputs = true).
  { apply existsb_exists. exists r. split; [done|apply Nat.eqb_refl]. }
  specialize (Hls2 r). rewrite Hnames, Hget, Hmem, Hls, Hnone, app_nil_l in Hls2.
  unfold dispatchEvent. cbn [world]. rewrite Hls2, Hw2, Hw, Hc2, Hc.
  rewrite (withoutHandles_other_trigger _ _ _ Hdiff) by (simpl; lia).
  cbn [List.filter fst].
  destruct (String.eqb type (selectedEventOf (optionsFor options' (nameOf p r))));
    [|reflexivity].
  unfold callClosure. simpl. by rewrite ?Hc2, ?Hc.
Qed.

End OtherTrigger.
End Unsubscribing.

Lemma unsubscribe_idempotent_witness :
  exists p2,
    eventHandlingFns.unsubscribeFromInputChanges [0; 1] (fst radioSubscribed) None
      radioUnsubscribed = Return tt p2 /\
    controls p2 = controls radioUnsubscribed /\
    world p2 = world radioUnsubscribed /\
    forall r, listenersOf p2 r = listenersOf radioUnsubscribed r.
Proof.
  apply (unsubscribe_idempotent None [0; 1] (fst radioSubscribed)
           (snd radioSubscribed) radioUnsubscribed).
  vm_compute. reflexivity.
Defined.

Lemma unsubscribe_with_other_trigger_witness :
  exists p2,
    eventHandlingFns.unsubscribeFromInputChanges [0]
      (fst (eventHandlingFns.subscribeToInputChanges [0]
              (Some {[ "email" := validateOnInput ]}) (pageOf [emailInput])))
      None
      (snd (eventHandlingFns.subscribeToInputChanges [0]
              (Some {[ "email" := validateOnInput ]}) (pageOf [emailInput]))) =
      Return tt p2 /\
    world (dispatchEvent acceptAll 0 "input" p2) =
    deliver acceptAll
      [Change emailInput (Some validateOnInput) {| target := emailInput |}]
      (world (pageOf [emailInput])).
Proof.
  assert (H1 : closuresKnown (pageOf [emailInput])) by (by intros r l).
  assert (H2 : NoDup (map (nameOf (pageOf [emailInput])) [0]))
    by apply NoDup_singleton.
  assert (H3 : In 0 [0]) by (by left).
  assert (H4 : selectedEventOf (optionsFor None (nameOf (pageOf [emailInput]) 0)) <>
               selectedEventOf
                 (optionsFor (Some {[ "email" := validateOnInput ]})
                    (nameOf (pageOf [emailInput]) 0)))
    by (vm_compute; discriminate).
  destruct (unsubscribe_with_other_trigger None acceptAll
              (Some {[ "email" := validateOnInput ]}) [0] (pageOf [emailInput])
              0 "input" H1 H2 H3 eq_refl H4) as (p2 & Hrun & Hw).
  exists p2. split; [exact Hrun|].
  refine (eq_trans Hw _). vm_compute. reflexivity.
Defined.

(** ** The submit subscription *)

Section SubmitSubscription.
Variable options : option FormulaValidations.
Implicit Types (f : FormElement) (cb : SubmitCallback).

Lemma subscribeToSubmitEvent_spec inputs f :
  formClosuresKnown f ->
  formListeners (snd (subscribeToSubmitEvent inputs options f)) =
    formListeners f ++ [(Events.submit, fst (subscribeToSubmitEvent inputs options f))] /\
  controls (page (snd (subscribeToSubmitEvent inputs options f))) = controls (page f) /\
  listeners (page (snd (subscribeToSubmitEvent inputs options f))) = listeners (page f) /\
  world (page (snd (subscribeToSubmitEvent inputs options f))) = world (page f).
Proof.
  intros Hknown. unfold subscribeToSubmitEvent, formAddEventListener. cbn [fst snd].
  cbn [formListeners page].
  replace (existsb _ (formListeners f)) with false; [done|].
  symmetry. apply not_true_is_false. intros Hex.
  apply existsb_exists in Hex as (l & Hl & Hsame).
  unfold sameFormListener in Hsame. apply andb_prop in Hsame as [_ Hid].
  apply Nat.eqb_eq in Hid. simpl in Hid. specialize (Hknown l Hl). lia.
Qed.

(** X18. The callback that [subscribeToSubmitEvent] returns is a new
    listener of the form, registered after those it has; passing it to
    [unsubscribeFromSubmitEvent] removes it and nothing else. Neither
    function touches the form state, the controls or their listeners. *)
Theorem submit_subscription_round_trip inputs f :
  formClosuresKnown f ->
  formListeners (snd (subscribeToSubmitEvent inputs options f)) =
    formListeners f ++ [(Events.submit, fst (subscribeToSubmitEvent inputs options f))] /\
  formListeners
    (unsubscribeFromSubmitEvent (fst (subscribeToSubmitEvent inputs options f))
       (snd (subscribeToSubmitEvent inputs options f))) = formListeners f /\
  world (page (unsubscribeFromSubmitEvent (fst (subscribeToSubmitEvent inputs options f))
                 (snd (subscribeToSubmitEvent inputs options f)))) = world (page f) /\
  controls (page (unsubscribeFromSubmitEvent (fst (subscribeToSubmitEvent inputs options f))
                    (snd (subscribeToSubmitEvent inputs options f)))) = controls (page f) /\
  listeners (page (unsubscribeFromSubmitEvent (fst (subscribeToSubmitEvent inputs options f))
                     (snd (subscribeToSubmitEvent inputs options f)))) = listeners (page f).
Proof.
  intros Hknown.
  destruct (subscribeToSubmitEvent_spec inputs f Hknown) as (Hls & Hc & Hl & Hw).
  split; [exact Hls|].
  unfold unsubscribeFromSubmitEvent, formRemoveEventListener. cbn [formListeners page].
  split; [|by split_and!].
  rewrite Hls, List.filter_app.
  assert (Hid : submitIdentity (fst (subscribeToSubmitEvent inputs options f)) =
                created (page f)) by reflexivity.
  generalize dependent (fst (subscribeToSubmitEvent inputs options f)).
  intros cb _ Hid. cbn [List.filter].
  replace (sameFormListener Events.submit cb (Events.submit, cb)) with true
    by (unfold sameFormListener; simpl; by rewrite Nat.eqb_refl).
  cbn [negb]. rewrite app_nil_r.
  revert Hknown. unfold formClosuresKnown.
  induction (formListeners f) as [|l ls IH]; intros Hold; [done|].
  cbn [List.filter]. unfold sameFormListener at 1.
  destruct (Nat.eqb_spec (submitIdentity cb) (submitIdentity (snd l))) as [Heq|_].
  - specialize (Hold l (or_introl eq_refl)). lia.
  - rewrite andb_false_r. cbn [negb]. rewrite IH; [done|].
    intros l' Hl'. apply Hold. by right.
Qed.

Section SubmitDispatch.
Variable validate : Validator.

(** X19. A submit event on the form after [subscribeToSubmitEvent] runs
    the listeners the form had, and then the handler of [onSubmit] once, on
    the subscribed controls as they read at that time. *)
Theorem submit_after_subscription inputs f e :
  formClosuresKnown f ->
  world (page (dispatchFormEvent validate Events.submit e
                 (snd (subscribeToSubmitEvent inputs options f)))) =
  deliver validate [Submit (map (controls (page f)) inputs) options e]
    (world (page (dispatchFormEvent validate Events.submit e f))).
Proof.
  intros Hknown.
  destruct (subscribeToSubmitEvent_spec inputs f Hknown) as (Hls & Hc & _ & Hw).
  unfold dispatchFormEvent. cbn [page world].
  rewrite Hls, List.filter_app, fold_left_app, Hw.
  unfold callSubmitCallback. rewrite Hc. reflexivity.
Qed.

End SubmitDispatch.
End SubmitSubscription.

Lemma submit_subscription_round_trip_witness :
  formListeners
    (unsubscribeFromSubmitEvent
       (fst (subscribeToSubmitEvent [0; 1; 2] None (formOf threeFieldsPage)))
       (snd (subscribeToSubmitEvent [0; 1; 2] None (formOf threeFieldsPage)))) = [].
Proof.
  assert (H : formClosuresKnown (formOf threeFieldsPage)) by (by intros l).
  apply (proj1 (proj2 (submit_subscription_round_trip None [0; 1; 2]
                         (formOf threeFieldsPage) H))).
Defined.

Lemma submit_after_subscription_witness :
  world (page (dispatchFormEvent requireValue Events.submit someEvent
                 (snd (subscribeToSubmitEvent [0; 1; 2] None
                         (formOf threeFieldsPage))))) =
  deliver requireValue [Submit threeFields None someEvent] (world threeFieldsPage).
Proof.
  assert (H : formClosuresKnown (formOf threeFieldsPage)) by (by intros l).
  apply (submit_after_subscription None requireValue [0; 1; 2]
           (formOf threeFieldsPage) someEvent H).
Defined.

(** ** From the control to the form state *)

Section TypedValue.
Variable options : option FormulaValidations.
Variable validate : Validator.

Lemma dispatch_registrations q r type n o :
  listenersOf q r = registrations o (handlesAt n r o) ->
  world (dispatchEvent validate r type q) =
  deliver validate (handlersDue (controls q r) o type) (world q).
Proof.
  intros Hls. unfold dispatchEvent. cbn [world]. rewrite Hls.
  unfold registrations, handlersDue, callClosure. simpl.
  destruct (String.eqb type (selectedEventOf o));
    destruct (String.eqb type Events.focus);
    destruct (String.eqb type Events.blur); reflexivity.
Qed.

(** X20. After subscribing controls with distinct names, when the user
    edits a subscribed control that is not a checkbox and the control's
    change trigger is dispatched on it, the entry of the control holds the
    text just entered: the handlers read the control as it is when the
    event arrives. This holds whatever validation does, an exception
    included, and also when the trigger is the focus or blur event. *)
Theorem typed_value_reaches_form_state inputs p r v s :
  closuresKnown p ->
  NoDup (map (nameOf p) inputs) ->
  In r inputs ->
  listenersOf p r = [] ->
  JsObject.get (nameOf p r) (formData (world p)) = Some s ->
  isCheckbox (controls p r) = false ->
  fieldHas (nameOf p r) (fun s' => value s' = VString v)
    (world (dispatchEvent validate r
              (selectedEventOf (optionsFor options (nameOf p r)))
              (userSetsValue r v
                 (snd (eventHandlingFns.subscribeToInputChanges inputs options p))))).
Proof.
  intros Hknown Hnd Hr Hnone Hs Hbox.
  unfold eventHandlingFns.subscribeToInputChanges.
  destruct (subscribe_spec options inputs ∅ p Hknown Hnd)
    as (Hc & Hw & _ & _ & Hin).
  destruct (subscribe_shape options inputs ∅ p) as (_ & _ & _ & _ & Hshape).
  destruct (Hin r Hr) as (h & Hget & Hls & _).
  destruct (Hshape (nameOf p r)) as (r' & h' & Hr' & Hname & [n ->] & Hget');
    [by apply in_map|].
  assert (r' = r) as -> by (by apply (NoDup_map_injective (nameOf p) inputs)).
  rewrite Hget in Hget'. injection Hget' as ->.
  set (p1 := snd (fold_left (eventHandlingFns.subscribeStep options) inputs (∅, p)))
    in *.
  set (o := optionsFor options (nameOf p r)) in *.
  rewrite Hnone, app_nil_l in Hls.
  rewrite (dispatch_registrations (userSetsValue r v p1) r _ n o Hls).
  cbn [userSetsValue controls world]. rewrite Nat.eqb_refl, Hw, Hc.
  set (c := {| Dom.name := Dom.name (controls p r); Dom.value := v;
               Dom.checked := Dom.checked (controls p r);
               Dom.class := Dom.class (controls p r) |}).
  unfold handlersDue. rewrite String.eqb_refl.
  change (deliver validate ([Change c o {| target := c |}] ++ ?rest) (world p))
    with (deliver validate rest
            (after (eventHandlingFns.onChange validate c o {| target := c |}
                      (world p)))).
  apply deliver_field_frame.
  - assert (Hfocus : forall name g,
              writes (Focus c o {| target := c |}) name g -> name = nameOf p r ->
              forall s0, value s0 = VString v -> value (g s0) = VString v)
      by (intros name g Hg _ s0 Hs0; by inversion Hg).
    assert (Hblur : forall name g,
              writes (Blur c o {| target := c |}) name g -> name = nameOf p r ->
              forall s0, value s0 = VString v -> value (g s0) = VString v)
      by (intros name g Hg _ s0 Hs0; by inversion Hg).
    destruct (String.eqb (selectedEventOf o) Events.focus);
      destruct (String.eqb (selectedEventOf o) Events.blur); simpl;
      repeat constructor; assumption.
  - destruct (world p) as [fd cs]. simpl in Hs.
    rewrite (onChange_run validate c o {| target := c |} fd cs s Hs).
    cbv zeta. unfold changedValue.
    change (isCheckbox c) with (isCheckbox (controls p r)). rewrite Hbox.
    change (Dom.name c) with (nameOf p r).
    destruct (validate c _ o) as [valid errs|ex]; simpl;
      eexists; (split; [by apply (get_replaced _ _ _ s)|done]).
Qed.

End TypedValue.

Lemma typed_value_reaches_form_state_witness :
  fieldHas "email" (fun s' => value s' = VString "a@b.com")
    (world (dispatchEvent requireValue 0 "blur"
              (userSetsValue 0 "a@b.com"
                 (snd (eventHandlingFns.subscribeToInputChanges [0]
                         (Some {[ "email" := validateOnBlur ]})
                         (pageOf [emailInput])))))).
Proof.
  assert (H1 : closuresKnown (pageOf [emailInput])) by (by intros r l).
  assert (H2 : NoDup (map (nameOf (pageOf [emailInput])) [0]))
    by apply NoDup_singleton.
  assert (H3 : In 0 [0]) by (by left).
  change "blur" with
    (selectedEventOf
       (optionsFor (Some {[ "email" := validateOnBlur ]})
          (nameOf (pageOf [emailInput]) 0))).
  apply (typed_value_reaches_form_state (Some {[ "email" := validateOnBlur ]})
           requireValue [0] (pageOf [emailInput]) 0 "a@b.com"
           (formDataFns.initialState emailInput JsObject.empty)
           H1 H2 H3 eq_refl eq_refl eq_refl).
Defined.

(** ** Subscribing and unsubscribing again *)

(** X15. On controls with distinct names, unsubscribing with the handles
    and the options of the subscription returns and undoes the
    subscription: the world and the controls are as before subscribing,
    every control has the listeners it had before, and so every event then
    does what it would have done without the subscription. *)
Theorem subscription_round_trip validate options p inputs :
  closuresKnown p ->
  NoDup (map (nameOf p) inputs) ->
  exists p2,
    eventHandlingFns.unsubscribeFromInputChanges inputs
      (fst (eventHandlingFns.subscribeToInputChanges inputs options p)) options
      (snd (eventHandlingFns.subscribeToInputChanges inputs options p)) =
      Return tt p2 /\
    controls p2 = controls p /\
    world p2 = world p /\
    (forall r, listenersOf p2 r = listenersOf p r) /\
    (forall r type,
       world (dispatchEvent validate r type p2) =
       world (dispatchEvent validate r type p)).
Proof.
  intros Hknown Hnd.
  destruct (unsubscribe_after_subscribe options p inputs Hknown Hnd)
    as (p2 & Hrun & Hc & Hw & Hls).
  exists p2. split_and!; try done.
  intros r type. unfold dispatchEvent. cbn [world].
  rewrite Hls, Hw, Hc. unfold callClosure. by rewrite Hc.
Qed.

Lemma subscription_round_trip_witness :
  exists p2,
    eventHandlingFns.unsubscribeFromInputChanges [0; 1; 2]
      (fst (eventHandlingFns.subscribeToInputChanges [0; 1; 2] None threeFieldsPage))
      None
      (snd (eventHandlingFns.subscribeToInputChanges [0; 1; 2] None threeFieldsPage)) =
      Return tt p2 /\
    forall r, listenersOf p2 r = [].
Proof.
  assert (H1 : closuresKnown threeFieldsPage) by (by intros r l).
  assert (H2 : NoDup (map (nameOf threeFieldsPage) [0; 1; 2]))
    by (apply (bool_decide_unpack _); vm_compute; exact I).
  destruct (subscription_round_trip requireValue None threeFieldsPage [0; 1; 2]
              H1 H2) as (p2 & Hrun & _ & _ & Hls & _).
  exists p2. split; [exact Hrun|exact Hls].
Defined.
